(** * aiotfm: the event bus, the trade handlers and the room roster

    A shallow embedding of [aiotfm/client.py] and [aiotfm/room.py].

    Python objects that are shared and mutated (players, trades, futures)
    live in append-only stores and are named by their index; dictionaries
    are finite maps; a method that mutates the client and may raise is a
    function from the client state to the new state and an outcome. *)

From Stdlib Require Import ZArith String Ascii Lia.
From stdpp Require Import base option list gmap strings.

(** ** Python values, exceptions and outcomes *)

(** The exceptions the embedded code can raise. *)
Inductive exn : Type :=
  | AiotfmException (msg : string)
  | AlreadyConnected
  | IncorrectPassword
  | LoginError (code : Z)
  | AttributeError
  | TypeError
  | ValueError
  | IndexError
  | InvalidStateError
  | ConnectionClosed
  | ProtocolError.

(** What a call produces: a value, or a raised exception.  [Stuck] marks
    the border of the embedding (a branch of the source that is not
    embedded, or a reference into a store that no Python state has). *)
Inductive outcome (A : Type) : Type :=
  | Ok (a : A)
  | Raise (e : exn)
  | Stuck.
Arguments Ok {A} a.
Arguments Raise {A} e.
Arguments Stuck {A}.

Definition outcome_bind {A B} (o : outcome A) (k : A -> outcome B) : outcome B :=
  match o with
  | Ok a => k a
  | Raise e => Raise e
  | Stuck => Stuck
  end.

Definition outcome_map {A B} (f : A -> B) (o : outcome A) : outcome B :=
  outcome_bind o (fun a => Ok (f a)).

(** The two connections of a client. *)
Inductive conn_ref : Type := CMain | CBulle.

(** ** Text helpers: [str.lower], [bytes.split] and [int] on text *)

Module Text.

Definition lower_ascii (a : ascii) : ascii :=
  let n := nat_of_ascii a in
  if (65 <=? n)%nat && (n <=? 90)%nat then ascii_of_nat (n + 32) else a.

(** [str.lower()] on the ASCII names the events have. *)
Fixpoint lower (s : string) : string :=
  match s with
  | EmptyString => EmptyString
  | String a r => String (lower_ascii a) (lower r)
  end.

(** [bytes.split(sep)] for a one-byte separator: one piece more than
    there are separators, empty pieces kept. *)
Fixpoint split (sep : ascii) (s : string) : list string :=
  match s with
  | EmptyString => [EmptyString]
  | String a r =>
      if Ascii.eqb a sep then EmptyString :: split sep r
      else match split sep r with
           | [] => [String a EmptyString]
           | p :: ps => String a p :: ps
           end
  end.

(** [s[:n]] *)
Fixpoint prefix (n : nat) (s : string) : string :=
  match n, s with
  | S n', String a r => String a (prefix n' r)
  | _, _ => EmptyString
  end.

Fixpoint codes (s : string) : list Z :=
  match s with
  | EmptyString => []
  | String a r => Z.of_nat (nat_of_ascii a) :: codes r
  end.

Definition is_space (a : ascii) : bool :=
  let n := nat_of_ascii a in
  (n =? 32)%nat || ((9 <=? n)%nat && (n <=? 13)%nat).

Definition digit_of (a : ascii) : option Z :=
  let n := nat_of_ascii a in
  if (48 <=? n)%nat && (n <=? 57)%nat then Some (Z.of_nat (n - 48)) else None.

Fixpoint lstrip (s : string) : string :=
  match s with
  | EmptyString => EmptyString
  | String a r => if is_space a then lstrip r else s
  end.

Fixpoint rev_onto (s acc : string) : string :=
  match s with
  | EmptyString => acc
  | String a r => rev_onto r (String a acc)
  end.

Definition strip (s : string) : string :=
  rev_onto (lstrip (rev_onto (lstrip s) EmptyString)) EmptyString.

(** Decimal digits, a single underscore allowed between two digits. *)
Fixpoint digits (acc : Z) (after_digit : bool) (s : string) : option Z :=
  match s with
  | EmptyString => if after_digit then Some acc else None
  | String a r =>
      match digit_of a with
      | Some d => digits (10 * acc + d)%Z true r
      | None =>
          if Ascii.eqb a "_"%char && after_digit then digits acc false r
          else None
      end
  end.

(** [int(text)] in base ten: surrounding blanks, an optional sign, digits. *)
Definition to_int (s : string) : option Z :=
  match strip s with
  | String "-"%char r => Z.opp <$> digits 0 false r
  | String "+"%char r => digits 0 false r
  | r => digits 0 false r
  end.

End Text.

(** ** Players and trades *)

Module Player.

(** The fields of [aiotfm.player.Player] that the client and the room
    read: the display name, the session id, the persistent id and the
    back-reference to a trade (an index into the store of trades). *)
Record t : Type := mk
  { username : string;
    id : Z;
    pid : Z;
    trade : option nat }.

Definition set_trade (tr : option nat) (p : t) : t :=
  mk (username p) (id p) (pid p) tr.

End Player.

(** The frame codec is an external collaborator of the client
    ([aiotfm.packet] is not part of the embedded sources). *)
Module Packet.

(** Modelled from the spec: the codec "provides cursor-based sequential
    reads and a builder for sequential writes"; a packet is its opcode
    pair and the sequence of primitive values it carries, a read takes
    the next value and fails on a value of another kind. *)
Inductive field : Type :=
  | F8 (z : Z)
  | F16 (z : Z)
  | F32 (z : Z)
  | FBool (b : bool)
  | FUTF (s : string)
  | FBytes (s : string)
  | FPlayer (p : Player.t).

Record t : Type := mk { ccc : Z * Z; body : list field }.

Definition new (c cc : Z) : t := mk (c, cc) [].
Definition write (f : field) (p : t) : t := mk (ccc p) (body p ++ [f]).
Definition write8 (z : Z) := write (F8 z).
Definition write32 (z : Z) := write (F32 z).
Definition writeString (s : string) := write (FUTF s).

Definition next {A} (pick : field -> option A) (p : t) : outcome (A * t) :=
  match body p with
  | f :: rest =>
      match pick f with
      | Some a => Ok (a, mk (ccc p) rest)
      | None => Raise ProtocolError
      end
  | [] => Raise ProtocolError
  end.

Definition read8 := next (fun f => match f with F8 z => Some z | _ => None end).
Definition read16 := next (fun f => match f with F16 z => Some z | _ => None end).
Definition read32 := next (fun f => match f with F32 z => Some z | _ => None end).
Definition readBool := next (fun f => match f with FBool b => Some b | _ => None end).
Definition readUTF := next (fun f => match f with FUTF s => Some s | _ => None end).
Definition readBytes := next (fun f => match f with FBytes s => Some s | _ => None end).
(** [Player.from_packet(packet)] *)
Definition readPlayer := next (fun f => match f with FPlayer p => Some p | _ => None end).

End Packet.

(** The values that travel as event arguments and keyword arguments. *)
#[local] Unset Elimination Schemes.
Inductive pyval : Type :=
  | VNone
  | VBool (b : bool)
  | VInt (z : Z)
  | VStr (s : string)
  | VBytes (s : string)
  | VTuple (l : list pyval)
  | VList (l : list pyval)
  | VPlayer (r : nat)
  | VTrade (r : nat)
  | VClient
  | VConn (c : conn_ref)
  | VPacket (p : Packet.t).
#[local] Set Elimination Schemes.

(** The builtin [int(value)]. *)
Definition py_int (v : pyval) : outcome Z :=
  match v with
  | VInt z => Ok z
  | VBool b => Ok (if b then 1 else 0)%Z
  | VStr s | VBytes s =>
      match Text.to_int s with
      | Some z => Ok z
      | None => Raise ValueError
      end
  | _ => Raise TypeError
  end.

(** ** [aiotfm/room.py] *)

Module Room.

(** What the room reads of the objects in its roster.  [p_eq] is
    [Player.__eq__], which belongs to [aiotfm.player] and is taken as
    given. *)
Class PlayerLike (P : Type) : Type :=
  { p_id : P -> Z;
    p_pid : P -> Z;
    p_eq : P -> pyval -> bool }.

Record t (P : Type) : Type := mk
  { name : string;
    private : bool;
    players : list P }.
Arguments mk {P} _ _ _.
Arguments name {P} _.
Arguments private {P} _.
Arguments players {P} _.

Section Methods.
Context {P : Type} `{PlayerLike P}.

(** [[p for p in players if predicate(p)]]: the predicate is called
    on the players in order and the first exception ends the loop. *)
Fixpoint comprehension (predicate : P -> outcome bool) (ps : list P)
  : outcome (list P) :=
  match ps with
  | [] => Ok []
  | p :: rest =>
      outcome_bind (predicate p) (fun keep =>
      outcome_bind (comprehension predicate rest) (fun found =>
      Ok (if keep then p :: found else found)))
  end.

(** [l[:max]] *)
Definition slice_to (max : option Z) (l : list P) : list P :=
  match max with
  | None => l
  | Some n =>
      if (0 <=? n)%Z then take (Z.to_nat n) l
      else take (length l - Z.to_nat (- n)) l
  end.

(** A method takes the room and gives the room back with its outcome. *)
Definition get_players (predicate : P -> outcome bool) (max : option Z)
    (self : t P) : t P * outcome (list P) :=
  (self, outcome_map (slice_to max) (comprehension predicate (players self))).

Definition get_player (kwargs : list (string * pyval)) (self : t P)
  : t P * outcome (option P) :=
  match kwargs with
  | [] => (self, Raise (AiotfmException "You did not provide any identifier."))
  | _ :: _ :: _ =>
      (self, Raise (AiotfmException
         "You cannot filter one player with more than one identifier."))
  | [(identifier, value)] =>
      let search (filter : P -> outcome bool) :=
        let '(self, result) := get_players filter None self in
        (self, outcome_map head result) in
      if String.eqb identifier "name" || String.eqb identifier "username" then
        search (fun p => Ok (p_eq p value))
      else if String.eqb identifier "id" then
        search (fun p => outcome_map (Z.eqb (p_id p)) (py_int value))
      else if String.eqb identifier "pid" then
        search (fun p => outcome_map (Z.eqb (p_pid p)) (py_int value))
      else (self, Raise (AiotfmException "Invalid filter."))
  end.

End Methods.

End Room.

(** ** The collaborators of the client that are not in the sources *)

Module Trade.

(** Modelled from the spec: [aiotfm.inventory.Trade] is not in src.  A
    trade has a "counterparty reference, alive flag, pendingInvite flag,
    two item-quantity mappings (mine, theirs ...), two lock flags (mine,
    theirs)"; the names are the attributes [client.py] reads and
    writes. *)
Record t : Type := mk
  { _other : nat;
    alive : bool;
    on_invite : bool;
    items_me : gmap Z Z;
    items_other : gmap Z Z;
    locked_me : bool;
    locked_other : bool }.

Definition set__other (v : nat) (x : t) : t :=
  mk v (alive x) (on_invite x) (items_me x) (items_other x)
     (locked_me x) (locked_other x).
Definition set_alive (v : bool) (x : t) : t :=
  mk (_other x) v (on_invite x) (items_me x) (items_other x)
     (locked_me x) (locked_other x).
Definition set_on_invite (v : bool) (x : t) : t :=
  mk (_other x) (alive x) v (items_me x) (items_other x)
     (locked_me x) (locked_other x).
Definition set_items_me (v : gmap Z Z) (x : t) : t :=
  mk (_other x) (alive x) (on_invite x) v (items_other x)
     (locked_me x) (locked_other x).
Definition set_items_other (v : gmap Z Z) (x : t) : t :=
  mk (_other x) (alive x) (on_invite x) (items_me x) v
     (locked_me x) (locked_other x).
Definition set_locked_me (v : bool) (x : t) : t :=
  mk (_other x) (alive x) (on_invite x) (items_me x) (items_other x)
     v (locked_other x).
Definition set_locked_other (v : bool) (x : t) : t :=
  mk (_other x) (alive x) (on_invite x) (items_me x) (items_other x)
     (locked_me x) v.

End Trade.

Module Connection.

(** Modelled from the spec: [aiotfm.connection.Connection] is not in
    src.  A connection has an "identity tag, ... open/closed flag, ... a
    per-connection fingerprint byte"; [sent] is the sequence of frames
    handed to [send], each with its cipher flag. *)
Record t : Type := mk
  { name : string;
    open : bool;
    fingerprint : Z;
    sent : list (Packet.t * bool) }.

Definition set_fingerprint (v : Z) (x : t) : t :=
  mk (name x) (open x) v (sent x).

(** Modelled from the spec: [send] frames the packet onto the socket,
    and a send on a connection that is no longer open "must fail
    loudly". *)
Definition send (packet : Packet.t) (cipher : bool) (x : t) : outcome t :=
  if open x then Ok (mk (name x) (open x) (fingerprint x) (sent x ++ [(packet, cipher)]))
  else Raise ConnectionClosed.

End Connection.

(** ** [aiotfm/client.py] *)

(** An [asyncio] future: pending, cancelled, or done with a result or with
    an exception. *)
Inductive future : Type :=
  | Pending
  | Cancelled
  | Result (v : pyval)
  | Failed (e : exn).

(** [fut.set_result(v)] and [fut.set_exception(e)] need a pending future. *)
Definition set_result (v : pyval) (f : future) : outcome future :=
  match f with
  | Pending => Ok (Result v)
  | _ => Raise InvalidStateError
  end.

Definition set_exception (e : exn) (f : future) : outcome future :=
  match f with
  | Pending => Ok (Failed e)
  | _ => Raise InvalidStateError
  end.

(** What the condition comes to on the arguments, as a truth value
    ([bool] of what it returns) or as the exception it raises. *)
Inductive verdict : Type :=
  | Holds (b : bool)
  | Throws (e : exn).

(** An entry of [Client._waiters]: [(condition, future, stopPropagation)].
    The condition is applied to the positional arguments of the event. *)
Record waiter : Type := mk_waiter
  { w_cond : list pyval -> verdict;
    w_fut : nat;
    w_stop : bool }.

(** The coroutines bound to the [on_*] attributes of a client: the three
    the class defines, and the ones the user registers with [event]. *)
Inductive coro : Type :=
  | OnError
  | OnConnectionError
  | OnLoginResult
  | UserCoro (n : nat).

(** What the event loop has been asked to run. *)
Inductive task : Type :=
  | RunEvent (c : coro) (event_name : string) (args : list pyval)
  | HeartbeatLoop.

Inductive callback : Type := Close.

Module Client.

(** The attributes of [Client] that the embedded methods use, the
    stores of the shared objects, what was handed to the event loop
    ([tasks], [timers]) and the trace of the calls to [dispatch]
    ([dispatched], in call order; the code itself never reads it). *)
Record t : Type := mk
  { main : Connection.t;
    bulle : option Connection.t;
    _waiters : gmap string (list waiter);
    room : option (Room.t nat);
    trade : option nat;
    trades : list nat;
    community : Z;
    authkey : option Z;
    coros : gmap string coro;
    player_store : list Player.t;
    trade_store : list Trade.t;
    futures : list future;
    tasks : list task;
    timers : list (Z * callback);
    dispatched : list (string * list pyval) }.

Definition set_main v x :=
  mk v (bulle x) (_waiters x) (room x) (trade x) (trades x) (community x)
     (authkey x) (coros x) (player_store x) (trade_store x) (futures x)
     (tasks x) (timers x) (dispatched x).
Definition set_bulle v x :=
  mk (main x) v (_waiters x) (room x) (trade x) (trades x) (community x)
     (authkey x) (coros x) (player_store x) (trade_store x) (futures x)
     (tasks x) (timers x) (dispatched x).
Definition set__waiters v x :=
  mk (main x) (bulle x) v (room x) (trade x) (trades x) (community x)
     (authkey x) (coros x) (player_store x) (trade_store x) (futures x)
     (tasks x) (timers x) (dispatched x).
Definition set_room v x :=
  mk (main x) (bulle x) (_waiters x) v (trade x) (trades x) (community x)
     (authkey x) (coros x) (player_store x) (trade_store x) (futures x)
     (tasks x) (timers x) (dispatched x).
Definition set_trade v x :=
  mk (main x) (bulle x) (_waiters x) (room x) v (trades x) (community x)
     (authkey x) (coros x) (player_store x) (trade_store x) (futures x)
     (tasks x) (timers x) (dispatched x).
Definition set_authkey v x :=
  mk (main x) (bulle x) (_waiters x) (room x) (trade x) (trades x) (community x)
     v (coros x) (player_store x) (trade_store x) (futures x)
     (tasks x) (timers x) (dispatched x).
Definition set_player_store v x :=
  mk (main x) (bulle x) (_waiters x) (room x) (trade x) (trades x) (community x)
     (authkey x) (coros x) v (trade_store x) (futures x)
     (tasks x) (timers x) (dispatched x).
Definition set_trade_store v x :=
  mk (main x) (bulle x) (_waiters x) (room x) (trade x) (trades x) (community x)
     (authkey x) (coros x) (player_store x) v (futures x)
     (tasks x) (timers x) (dispatched x).
Definition set_futures v x :=
  mk (main x) (bulle x) (_waiters x) (room x) (trade x) (trades x) (community x)
     (authkey x) (coros x) (player_store x) (trade_store x) v
     (tasks x) (timers x) (dispatched x).
Definition set_tasks v x :=
  mk (main x) (bulle x) (_waiters x) (room x) (trade x) (trades x) (community x)
     (authkey x) (coros x) (player_store x) (trade_store x) (futures x)
     v (timers x) (dispatched x).
Definition set_timers v x :=
  mk (main x) (bulle x) (_waiters x) (room x) (trade x) (trades x) (community x)
     (authkey x) (coros x) (player_store x) (trade_store x) (futures x)
     (tasks x) v (dispatched x).
Definition set_dispatched v x :=
  mk (main x) (bulle x) (_waiters x) (room x) (trade x) (trades x) (community x)
     (authkey x) (coros x) (player_store x) (trade_store x) (futures x)
     (tasks x) (timers x) v.

(** [Client.__init__]: the three handlers come with the class. *)
Definition init (community : Z) : t :=
  mk (Connection.mk "main" false 0 []) None ∅ None None [] community None
     (<["on_error" := OnError]>
        (<["on_connection_error" := OnConnectionError]>
           (<["on_login_result" := OnLoginResult]> ∅)))
     [] [] [] [] [] [].

(** *** Methods as state transformers *)

Definition M (A : Type) : Type := t -> t * outcome A.

Definition ret {A} (a : A) : M A := fun c => (c, Ok a).
Definition raise {A} (e : exn) : M A := fun c => (c, Raise e).
Definition stuck {A} : M A := fun c => (c, Stuck).
Definition bind {A B} (m : M A) (k : A -> M B) : M B := fun c =>
  match m c with
  | (c', Ok a) => k a c'
  | (c', Raise e) => (c', Raise e)
  | (c', Stuck) => (c', Stuck)
  end.
Definition lift {A} (o : outcome A) : M A := fun c => (c, o).
Definition get : M t := fun c => (c, Ok c).
Definition modify (f : t -> t) : M unit := fun c => (f c, Ok tt).

End Client.

Declare Scope client_scope.
Delimit Scope client_scope with client.
Notation "x <~ m ;; k" := (Client.bind m (fun x => k))
  (at level 100, m at next level, k at level 200, right associativity) : client_scope.
Notation "'read' ( v , q ) <~ r ;; k" :=
  (Client.bind (Client.lift r) (fun x => let '(v, q) := x in k))
  (at level 100, v name, q name, r at next level, k at level 200,
   right associativity) : client_scope.
Notation "m ;;; k" := (Client.bind m (fun _ => k))
  (at level 100, k at level 200, right associativity) : client_scope.

Local Open Scope client_scope.

(** *** The event bus: [wait_for] and [dispatch] *)

(** [lambda *a: True], the condition of a waiter registered without one. *)
Definition always : list pyval -> verdict := fun _ => Holds true.

(** [Client.wait_for(event, condition, timeout, stopPropagation)].  The
    call creates the future, appends the waiter under the lower-cased
    event name and hands the future to [asyncio.wait_for]; the answer
    here is the index of the new future.  The timeout belongs to the
    event loop: when it fires the future is cancelled (see [cancel]). *)
Definition wait_for (event : string) (condition : option (list pyval -> verdict))
    (stopPropagation : bool) : Client.M nat := fun c =>
  let event := Text.lower event in
  let future := length (Client.futures c) in
  let condition := default always condition in
  let waiters := default [] (Client._waiters c !! event) in
  (Client.set__waiters
     (<[event := waiters ++ [mk_waiter condition future stopPropagation]]>
        (Client._waiters c))
     (Client.set_futures (Client.futures c ++ [Pending]) c),
   Ok future).

(** [fut.cancel()], what a timeout does to the future of a waiter. *)
Definition cancel (fut : nat) (c : Client.t) : Client.t :=
  match Client.futures c !! fut with
  | Some Pending => Client.set_futures (<[fut := Cancelled]> (Client.futures c)) c
  | _ => c
  end.

(** [args[0] if len(args)==1 else args if len(args) else None] *)
Definition payload (args : list pyval) : pyval :=
  match args with
  | [a] => a
  | [] => VNone
  | _ => VTuple args
  end.

(** How the loop over the waiters of one event ends. *)
Inductive scan_end : Type :=
  | Finished (to_remove : list nat)
  | Stopped (i : nat)
  | Crashed (e : exn)
  | Dangling.

(** The loop [for i, (cond, fut, stop) in enumerate(waiters)] of
    [dispatch], from index [i] on, over the store of futures. *)
Fixpoint scan (args : list pyval) (waiters : list waiter) (i : nat)
    (to_remove : list nat) (futs : list future) : list future * scan_end :=
  match waiters with
  | [] => (futs, Finished to_remove)
  | w :: rest =>
      match futs !! w_fut w with
      | None => (futs, Dangling)
      | Some Cancelled => scan args rest (S i) (to_remove ++ [i]) futs
      | Some f =>
          match w_cond w args with
          | Throws e =>
              match set_exception e f with
              | Ok f' => scan args rest (S i) to_remove (<[w_fut w := f']> futs)
              | _ => (futs, Crashed InvalidStateError)
              end
          | Holds result =>
              if result then
                match set_result (payload args) f with
                | Ok f' =>
                    if w_stop w then (<[w_fut w := f']> futs, Stopped i)
                    else scan args rest (S i) (to_remove ++ [i]) (<[w_fut w := f']> futs)
                | _ => (futs, Crashed InvalidStateError)
                end
              else scan args rest (S i) to_remove futs
          end
      end
  end.

(** [for i in to_remove[::-1]: del waiters[i]] *)
Definition drop_indices (to_remove : list nat) (waiters : list waiter) : list waiter :=
  foldl (fun ws i => delete i ws) waiters (rev to_remove).

(** The end of [dispatch]: the persistent handler, when the client has
    the attribute, is handed to the event loop and not awaited. *)
Definition fire (method : string) (args : list pyval) : Client.M unit := fun c =>
  match Client.coros c !! method with
  | Some coro =>
      (Client.set_tasks (Client.tasks c ++ [RunEvent coro method args]) c, Ok tt)
  | None => (c, Ok tt)
  end.

(** [Client.dispatch(event, *args)].  No call of the client passes
    keyword arguments; the conditions of the waiters never see them. *)
Definition dispatch (event : string) (args : list pyval) : Client.M unit := fun c =>
  let c := Client.set_dispatched (Client.dispatched c ++ [(event, args)]) c in
  let method := "on_" +:+ event in
  match Client._waiters c !! method with
  | Some waiters =>
      match scan args waiters 0 [] (Client.futures c) with
      | (futs, Stopped i) =>
          (Client.set__waiters (<[method := delete i waiters]> (Client._waiters c))
             (Client.set_futures futs c), Ok tt)
      | (futs, Crashed e) => (Client.set_futures futs c, Raise e)
      | (futs, Dangling) => (Client.set_futures futs c, Stuck)
      | (futs, Finished to_remove) =>
          let c := Client.set_futures futs c in
          let c :=
            if (length to_remove =? length waiters)%nat
            then Client.set__waiters (delete method (Client._waiters c)) c
            else Client.set__waiters
                   (<[method := drop_indices to_remove waiters]> (Client._waiters c)) c in
          fire method args c
      end
  | None => fire method args c
  end.

(** [Client.on_login_result(code, *args)] *)
Definition on_login_result (code : Z) (args : list pyval) : Client.M unit :=
  Client.modify (fun c => Client.set_timers (Client.timers c ++ [(5%Z, Close)]) c) ;;;
  if (code =? 1)%Z then Client.raise AlreadyConnected
  else if (code =? 2)%Z then Client.raise IncorrectPassword
  else Client.raise (LoginError code).

(** *** Access to the attributes and to the stores *)

(** [Player.__eq__], against a keyword value and against a player: part
    of [aiotfm.player], taken as given. *)
Class PlayerEq : Type :=
  { player_eq_value : Player.t -> pyval -> bool;
    player_eq : Player.t -> Player.t -> bool }.

#[export] Instance player_like `{PlayerEq} : Room.PlayerLike Player.t :=
  {| Room.p_id := Player.id;
     Room.p_pid := Player.pid;
     Room.p_eq := player_eq_value |}.

(** A player of the roster seen from the client: its index in the store
    and the object there. *)
#[export] Instance stored_player_like `{PlayerEq} : Room.PlayerLike (nat * Player.t) :=
  {| Room.p_id := fun x => Player.id (snd x);
     Room.p_pid := fun x => Player.pid (snd x);
     Room.p_eq := fun x => player_eq_value (snd x) |}.

(** [self.room], on its way to an attribute of the room. *)
Definition the_room : Client.M (Room.t nat) := fun c =>
  match Client.room c with
  | Some r => (c, Ok r)
  | None => (c, Raise AttributeError)
  end.

(** [self.trade], on its way to an attribute of the trade. *)
Definition the_trade : Client.M nat := fun c =>
  match Client.trade c with
  | Some tr => (c, Ok tr)
  | None => (c, Raise AttributeError)
  end.

(** [self.trade] as an argument of an event. *)
Definition trade_value (c : Client.t) : pyval :=
  match Client.trade c with
  | Some tr => VTrade tr
  | None => VNone
  end.

Definition player_at (r : nat) : Client.M Player.t := fun c =>
  match Client.player_store c !! r with
  | Some p => (c, Ok p)
  | None => (c, Stuck)
  end.

Definition trade_at (r : nat) : Client.M Trade.t := fun c =>
  match Client.trade_store c !! r with
  | Some x => (c, Ok x)
  | None => (c, Stuck)
  end.

(** An assignment to attributes of the trade at [r]. *)
Definition update_trade (r : nat) (f : Trade.t -> Trade.t) : Client.M unit :=
  x <~ trade_at r ;;
  Client.modify (fun c => Client.set_trade_store (<[r := f x]> (Client.trade_store c)) c).

Definition the_conn (conn : conn_ref) : Client.M Connection.t := fun c =>
  match conn with
  | CMain => (c, Ok (Client.main c))
  | CBulle =>
      match Client.bulle c with
      | Some b => (c, Ok b)
      | None => (c, Stuck)
      end
  end.

Definition put_conn (conn : conn_ref) (x : Connection.t) : Client.M unit :=
  Client.modify (fun c =>
    match conn with
    | CMain => Client.set_main x c
    | CBulle => Client.set_bulle (Some x) c
    end).

(** [await connection.send(packet)] *)
Definition conn_send (conn : conn_ref) (packet : Packet.t) (cipher : bool)
  : Client.M unit :=
  x <~ the_conn conn ;;
  x' <~ Client.lift (Connection.send packet cipher x) ;;
  put_conn conn x'.

(** [except Exception: traceback.print_exc()] *)
Definition catch (m : Client.M bool) : Client.M unit := fun c =>
  match m c with
  | (c', Ok _) => (c', Ok tt)
  | (c', Raise _) => (c', Ok tt)
  | (c', Stuck) => (c', Stuck)
  end.

(** Modelled from the spec: [Player.__getitem__] is not in src; a player
    is "identity (numeric session id, numeric persistent id, display
    name) plus a back-reference to at most one active Trade", an object
    with attributes and no items, so that [player[i]] is a type error. *)
Definition player_getitem (player : nat) (i : Z) : outcome nat := Raise TypeError.

(** Modelled from the spec: [Trade._close] is not in src.  A trade that
    ends is "marked closed, removed from 'current' but retained in
    historical registry". *)
Definition _close (tr : nat) : Client.M unit :=
  update_trade tr (Trade.set_alive false) ;;;
  Client.modify (fun c =>
    match Client.trade c with
    | Some cur => if (cur =? tr)%nat then Client.set_trade None c else c
    | None => c
    end).

(** Modelled from the spec: [Trade._update_player] is not in src.  The
    trade of an updated player is synchronised: the new player object
    becomes the counterparty and carries the back-reference. *)
Definition _update_player (tr after : nat) : Client.M unit :=
  update_trade tr (Trade.set__other after) ;;;
  p <~ player_at after ;;
  Client.modify (fun c =>
    Client.set_player_store
      (<[after := Player.set_trade (Some tr) p]> (Client.player_store c)) c).

Section Handlers.
Context `{PlayerEq}.

(** The roster with the objects behind the indices. *)
Definition room_view (r : Room.t nat) (c : Client.t) : Room.t (nat * Player.t) :=
  Room.mk (Room.name r) (Room.private r)
    (omap (fun i => (fun p => (i, p)) <$> Client.player_store c !! i) (Room.players r)).

(** [self.room.get_player(...)]: the lookup in the room [r] of the client. *)
Definition room_get_player (r : Room.t nat) (kwargs : list (string * pyval))
  : Client.M (option nat) := fun c =>
  (c, outcome_map (fmap fst) (snd (Room.get_player kwargs (room_view r c)))).

(** [l.remove(x)]: the first element that is [x] or equals [x] goes. *)
Fixpoint remove_first (same : nat -> bool) (l : list nat) : option (list nat) :=
  match l with
  | [] => None
  | y :: rest =>
      if same y then Some rest else cons y <$> remove_first same rest
  end.

(** [self.room.players.remove(player)] *)
Definition players_remove (player : nat) : Client.M unit :=
  r <~ the_room ;;
  fun c =>
    let same y :=
      (y =? player)%nat ||
      match Client.player_store c !! y, Client.player_store c !! player with
      | Some a, Some b => player_eq a b
      | _, _ => false
      end in
    match remove_first same (Room.players r) with
    | Some l =>
        (Client.set_room (Some (Room.mk (Room.name r) (Room.private r) l)) c, Ok tt)
    | None => (c, Raise ValueError)
    end.

(** [Player.from_packet(packet)]: a new object in the store. *)
Definition new_player (p : Player.t) : Client.M nat := fun c =>
  (Client.set_player_store (Client.player_store c ++ [Player.set_trade None p]) c,
   Ok (length (Client.player_store c))).

(** [self.room.players.append(player)] *)
Definition players_append (player : nat) : Client.M unit :=
  r <~ the_room ;;
  Client.modify (Client.set_room
    (Some (Room.mk (Room.name r) (Room.private r) (Room.players r ++ [player])))).

(** [for player in range(packet.read16()):
       self.room.players.append(Player.from_packet(packet))] *)
Fixpoint read_players (n : nat) (packet : Packet.t) : Client.M Packet.t :=
  match n with
  | O => Client.ret packet
  | S n' =>
      read (p, packet) <~ Packet.readPlayer packet ;;
      player <~ new_player p ;;
      players_append player ;;;
      read_players n' packet
  end.

(** The loop [for player in before] of the roster frame. *)
Fixpoint sync_trades (before : list nat) : Client.M unit :=
  match before with
  | [] => Client.ret tt
  | player :: rest =>
      p <~ player_at player ;;
      match Player.trade p with
      | Some tr =>
          r <~ the_room ;;
          after <~ room_get_player r [("pid", VInt (Player.pid p))] ;;
          match after with
          | Some a => _update_player tr a
          | None => _close tr ;;; dispatch "trade_close" [VTrade tr]
          end
      | None => Client.ret tt
      end ;;;
      sync_trades rest
  end.

(** The loop [for trade in self.trades] of the trade-error frame. *)
Fixpoint close_named (name : string) (error : Z) (trades : list nat)
  : Client.M unit :=
  match trades with
  | [] => Client.ret tt
  | trade :: rest =>
      x <~ trade_at trade ;;
      other <~ player_at (Trade._other x) ;;
      if String.eqb (Player.username other) name then
        _close trade ;;;
        dispatch "trade_error" [VTrade trade; VInt error] ;;;
        dispatch "trade_close" [VTrade trade]
      else close_named name error rest
  end.

(** [Client.handle_old_packet(connection, oldCCC, data)] *)
Definition handle_old_packet (connection : conn_ref) (oldCCC : list Z)
    (data : list string) : Client.M bool :=
  match oldCCC with
  | [8; 7]%Z =>
      r <~ the_room ;;
      n <~ Client.lift (match data with
                        | d :: _ => py_int (VBytes d)
                        | [] => Raise IndexError
                        end) ;;
      player <~ room_get_player r [("pid", VInt n)] ;;
      match player with
      | Some player =>
          players_remove player ;;;
          p <~ player_at player ;;
          match Player.trade p with
          | Some tr =>
              second <~ Client.lift (player_getitem player 1) ;;
              q <~ player_at second ;;
              let trade := match Player.trade q with
                           | Some x => VTrade x
                           | None => VNone
                           end in
              _close tr ;;;
              dispatch "trade_close" [trade]
          | None => Client.ret tt
          end ;;;
          dispatch "player_remove" [VPlayer player]
      | None => Client.ret tt
      end ;;;
      Client.ret true
  | _ => Client.ret false
  end.

End Handlers.

Section Packets.
Context `{PlayerEq}.

(** The branches of [handle_packet], one definition for each opcode
    pair, named after the comment of the branch. *)

(** [CCC==(1, 1)] Old packets *)
Definition old_packets (connection : conn_ref) (packet : Packet.t)
  : Client.M bool :=
  read (bytes, packet) <~ Packet.readBytes packet ;;
  match Text.split "001"%char bytes with
  | first :: data =>
      let oldCCC := Text.codes (Text.prefix 2 first) in
      dispatch "old_packet"
        [VConn connection; VTuple (VInt <$> oldCCC); VList (VBytes <$> data)] ;;;
      handle_old_packet connection oldCCC data
  | [] => Client.raise IndexError
  end.

(** [CCC==(16, 2)] Tribe invitation received *)
Definition tribe_invitation (packet : Packet.t) : Client.M bool :=
  read (author, packet) <~ Packet.readUTF packet ;;
  read (tribe, packet) <~ Packet.readUTF packet ;;
  dispatch "tribe_inv" [VStr author; VStr tribe] ;;;
  Client.ret true.

(** The two frames the client answers the handshake with. *)
Definition capability_frame (community : Z) : Packet.t :=
  Packet.write8 0 (Packet.write8 community (Packet.new 8 2)).

Definition os_info : Packet.t :=
  let os_info :=
    Packet.writeString "Linux" (Packet.writeString "en" (Packet.new 28 17)) in
  Packet.write8 0 (Packet.writeString "LNX 29,0,0,140" os_info).

(** [CCC==(26, 3)] Handshake OK *)
Definition handshake_ok (connection : conn_ref) (packet : Packet.t)
  : Client.M bool :=
  read (online_players, packet) <~ Packet.read32 packet ;;
  read (fingerprint, packet) <~ Packet.read8 packet ;;
  x <~ the_conn connection ;;
  put_conn connection (Connection.set_fingerprint fingerprint x) ;;;
  read (community, packet) <~ Packet.readUTF packet ;;
  read (country, packet) <~ Packet.readUTF packet ;;
  read (authkey, packet) <~ Packet.read32 packet ;;
  Client.modify (Client.set_authkey (Some authkey)) ;;;
  Client.modify (fun c => Client.set_tasks (Client.tasks c ++ [HeartbeatLoop]) c) ;;;
  c <~ Client.get ;;
  conn_send connection (capability_frame (Client.community c)) false ;;;
  conn_send connection os_info false ;;;
  dispatch "login_ready" [VInt online_players; VStr community; VStr country] ;;;
  Client.ret true.

(** [CCC==(26, 12)] Login result *)
Definition login_result (packet : Packet.t) : Client.M bool :=
  read (code, packet) <~ Packet.read8 packet ;;
  read (key, packet) <~ Packet.readUTF packet ;;
  read (args, packet) <~ Packet.readUTF packet ;;
  dispatch "login_result" [VInt code; VStr key; VStr args] ;;;
  Client.ret true.

(** [CCC==(28, 6)] Server ping *)
Definition server_ping (connection : conn_ref) (packet : Packet.t)
  : Client.M bool :=
  read (n, packet) <~ Packet.read8 packet ;;
  conn_send connection (Packet.write8 n (Packet.new 28 6)) false ;;;
  Client.ret true.

(** [CCC==(29, 6)] Lua logs *)
Definition lua_logs (packet : Packet.t) : Client.M bool :=
  read (log, packet) <~ Packet.readUTF packet ;;
  dispatch "lua_log" [VStr log] ;;;
  Client.ret true.

(** [CCC==(31, 6)] Trade error *)
Definition trade_error (packet : Packet.t) : Client.M bool :=
  read (name, packet) <~ Packet.readUTF packet ;;
  read (error, packet) <~ Packet.read8 packet ;;
  if String.eqb name "" then
    tr <~ the_trade ;;
    x <~ trade_at tr ;;
    other <~ player_at (Trade._other x) ;;
    if String.eqb (Player.username other) name then
      tr <~ the_trade ;;
      _close tr ;;;
      c <~ Client.get ;;
      dispatch "trade_error" [trade_value c; VInt error] ;;;
      c <~ Client.get ;;
      dispatch "trade_close" [trade_value c] ;;;
      Client.ret true
    else Client.ret true
  else
    c <~ Client.get ;;
    close_named name error (Client.trades c) ;;;
    Client.ret true.

(** [CCC==(31, 7)] Trade start *)
Definition trade_start (packet : Packet.t) : Client.M bool :=
  r <~ the_room ;;
  read (pid, packet) <~ Packet.read32 packet ;;
  player <~ room_get_player r [("pid", VInt pid)] ;;
  match player with
  | None => Client.raise AttributeError
  | Some player =>
      p <~ player_at player ;;
      match Player.trade p with
      | None => Client.raise AttributeError
      | Some tr =>
          update_trade tr (Trade.set_on_invite false) ;;;
          update_trade tr (Trade.set_alive true) ;;;
          c <~ Client.get ;;
          match Client.trade c with
          | Some trade =>
              _close trade ;;;
              dispatch "trade_close" [VTrade trade]
          | None => Client.ret tt
          end ;;;
          Client.modify (Client.set_trade (Some tr)) ;;;
          dispatch "trade_start" [VTrade tr] ;;;
          Client.ret true
      end
  end.

(** [(1 if adding else -1) * quantity] *)
Definition signed (adding : bool) (quantity : Z) : Z :=
  ((if adding then 1 else -1) * quantity)%Z.

(** [if id in items: items[id] += quantity / else: items[id] = quantity] *)
Definition add_quantity (id quantity : Z) (items : gmap Z Z) : gmap Z Z :=
  match items !! id with
  | Some n => <[id := (n + quantity)%Z]> items
  | None => <[id := quantity]> items
  end.

(** [if items[id] == 0: del items[id]] *)
Definition drop_zero (id : Z) (items : gmap Z Z) : gmap Z Z :=
  if bool_decide (items !! id = Some 0%Z) then delete id items else items.

(** [CCC==(31, 8)] Trade items *)
Definition trade_items (packet : Packet.t) : Client.M bool :=
  read (me, packet) <~ Packet.readBool packet ;;
  read (id, packet) <~ Packet.read16 packet ;;
  read (adding, packet) <~ Packet.readBool packet ;;
  read (quantity, packet) <~ Packet.read8 packet ;;
  let quantity := signed adding quantity in
  tr <~ the_trade ;;
  x <~ trade_at tr ;;
  let items := if me then Trade.items_me x else Trade.items_other x in
  let items := drop_zero id (add_quantity id quantity items) in
  update_trade tr (if me then Trade.set_items_me items
                   else Trade.set_items_other items) ;;;
  update_trade tr (Trade.set_locked_me false) ;;;
  update_trade tr (Trade.set_locked_other false) ;;;
  dispatch "trade_item_change"
    [VTrade tr; (if me then VClient else VPlayer (Trade._other x)); VInt id;
     VInt quantity; VInt (default 0%Z (items !! id))] ;;;
  Client.ret true.

(** [CCC==(31, 9)] Trade lock *)
Definition trade_lock (packet : Packet.t) : Client.M bool :=
  read (me, packet) <~ Packet.readBool packet ;;
  read (locked, packet) <~ Packet.readBool packet ;;
  tr <~ the_trade ;;
  x <~ trade_at tr ;;
  if me then
    update_trade tr (Trade.set_locked_me locked) ;;;
    dispatch "trade_lock" [VTrade tr; VClient; VBool locked] ;;;
    Client.ret true
  else
    update_trade tr (Trade.set_locked_other locked) ;;;
    dispatch "trade_lock" [VTrade tr; VPlayer (Trade._other x); VBool locked] ;;;
    Client.ret true.

(** [CCC==(31, 10)] Trade complete *)
Definition trade_complete : Client.M bool :=
  trade <~ the_trade ;;
  _close trade ;;;
  dispatch "trade_complete" [VTrade trade] ;;;
  Client.ret true.

(** [CCC==(44, 22)] Fingerprint offset changed *)
Definition fingerprint_changed (connection : conn_ref) (packet : Packet.t)
  : Client.M bool :=
  read (fingerprint, packet) <~ Packet.read8 packet ;;
  x <~ the_conn connection ;;
  put_conn connection (Connection.set_fingerprint fingerprint x) ;;;
  Client.ret true.

(** [CCC==(144, 1)] Set player list *)
Definition set_player_list (packet : Packet.t) : Client.M bool :=
  r <~ the_room ;;
  let before := Room.players r in
  Client.modify (Client.set_room (Some (Room.mk (Room.name r) (Room.private r) []))) ;;;
  read (n, packet) <~ Packet.read16 packet ;;
  _ <~ read_players (Z.to_nat n) packet ;;
  sync_trades before ;;;
  r <~ the_room ;;
  dispatch "bulk_player_update"
    [VList (VPlayer <$> before); VList (VPlayer <$> Room.players r)] ;;;
  Client.ret true.

(** [CCC==(144, 2)] Add a player *)
Definition add_player (packet : Packet.t) : Client.M bool :=
  read (p, packet) <~ Packet.readPlayer packet ;;
  after <~ new_player p ;;
  r <~ the_room ;;
  before <~ room_get_player r [("pid", VInt (Player.pid p))] ;;
  players_append after ;;;
  match before with
  | None =>
      dispatch "player_join" [VPlayer after] ;;;
      Client.ret true
  | Some before =>
      players_remove before ;;;
      b <~ player_at before ;;
      match Player.trade b with
      | Some tr => _update_player tr after
      | None => Client.ret tt
      end ;;;
      dispatch "player_update" [VPlayer before; VPlayer after] ;;;
      Client.ret true
  end.

(** The opcode pairs that [handle_packet] handles and that are not
    embedded here. *)
Definition beyond (CCC : Z * Z) : bool :=
  bool_decide (CCC ∈ [(5, 21); (6, 6); (6, 20); (8, 5); (8, 16); (8, 20);
                      (8, 22); (26, 2); (31, 1); (31, 2); (31, 5); (44, 1);
                      (60, 3); (100, 67)]%Z).

(** [Client.handle_packet(connection, packet)] *)
Definition handle_packet (connection : conn_ref) (packet : Packet.t)
  : Client.M bool :=
  let CCC := Packet.ccc packet in
  match CCC with
  | (1, 1)%Z => old_packets connection packet
  | (16, 2)%Z => tribe_invitation packet
  | (26, 3)%Z => handshake_ok connection packet
  | (26, 12)%Z => login_result packet
  | (26, 25)%Z => dispatch "ping" [] ;;; Client.ret true
  | (28, 6)%Z => server_ping connection packet
  | (29, 6)%Z => lua_logs packet
  | (31, 6)%Z => trade_error packet
  | (31, 7)%Z => trade_start packet
  | (31, 8)%Z => trade_items packet
  | (31, 9)%Z => trade_lock packet
  | (31, 10)%Z => trade_complete
  | (44, 22)%Z => fingerprint_changed connection packet
  | (144, 1)%Z => set_player_list packet
  | (144, 2)%Z => add_player packet
  | _ => if beyond CCC then Client.stuck else Client.ret false
  end.


(** The frames of a connection handled one after the other, each under
    the [try] of [received_data]: what a frame raises is printed and
    the state it leaves is where the next frame starts. *)
Fixpoint handle_all (connection : conn_ref) (packets : list Packet.t)
    (c : Client.t) : Client.t :=
  match packets with
  | [] => c
  | packet :: rest =>
      handle_all connection rest (fst (catch (handle_packet connection packet) c))
  end.

(** The frames of the claims. *)
Definition item_frame (me : bool) (id : Z) (adding : bool) (quantity : Z)
  : Packet.t :=
  Packet.mk (31, 8)%Z
    [Packet.FBool me; Packet.F16 id; Packet.FBool adding; Packet.F8 quantity].

End Packets.

(** ** Objects for the examples *)

(** Modelled from the spec: [Player.__eq__] is not in src; the examples
    compare players by their display name, one part of the "identity
    (numeric session id, numeric persistent id, display name)". *)
Definition by_name : PlayerEq :=
  {| player_eq_value := fun p v =>
       match v with
       | VStr s => String.eqb (Player.username p) s
       | _ => false
       end;
     player_eq := fun p q => String.eqb (Player.username p) (Player.username q) |}.

Definition alice : Player.t := Player.mk "Alice" 11 101 None.
Definition bob : Player.t := Player.mk "Bob" 12 102 None.
Definition carol : Player.t := Player.mk "Carol" 13 102 None.

Definition lobby : Room.t Player.t := Room.mk "en-1" false [alice; bob; carol].

(** The login taxonomy in the words of the spec: "code 1 yields
    already-connected; code 2 yields incorrect-credentials; any other code
    yields other carrying that code". *)
Definition login_taxonomy (code : Z) : exn :=
  match code with
  | 1%Z => AlreadyConnected
  | 2%Z => IncorrectPassword
  | _ => LoginError code
  end.

(** ** The trade after an item delta *)

(** A trade item-delta frame by its four fields. *)
Record delta : Type := mk_delta
  { d_me : bool;
    d_id : Z;
    d_adding : bool;
    d_quantity : Z }.

Definition delta_frame (d : delta) : Packet.t :=
  item_frame (d_me d) (d_id d) (d_adding d) (d_quantity d).

(** The side of the trade a frame is about. *)
Definition side (me : bool) (x : Trade.t) : gmap Z Z :=
  if me then Trade.items_me x else Trade.items_other x.

(** The trade once the frame has been handled. *)
Definition after_delta (me : bool) (id quantity : Z) (x : Trade.t) : Trade.t :=
  let items := drop_zero id (add_quantity id quantity (side me x)) in
  Trade.set_locked_other false
    (Trade.set_locked_me false
       ((if me then Trade.set_items_me items else Trade.set_items_other items) x)).

(** The signed delta of a frame, in the words of the spec: the quantity,
    "negated when the frame's 'adding' flag is false". *)
Definition signed_delta (d : delta) : Z :=
  if d_adding d then d_quantity d else (- d_quantity d)%Z.

(** The sum of the signed deltas of the frames about one side and one
    item id. *)
Fixpoint net (me : bool) (id : Z) (ds : list delta) : Z :=
  match ds with
  | [] => 0%Z
  | d :: rest =>
      ((if Bool.eqb (d_me d) me && (d_id d =? id)%Z
        then signed_delta d else 0) + net me id rest)%Z
  end.

(** What a mapping without zero entries holds for a net quantity. *)
Definition stored (n : Z) : option Z := if (n =? 0)%Z then None else Some n.

(** The quantity a mapping stands for at an id: 0 where it has no entry. *)
Definition quantity_at (m : gmap Z Z) (id : Z) : Z := default 0%Z (m !! id).

Definition zero_free (m : gmap Z Z) : Prop := forall id, m !! id <> Some 0%Z.

(** ** States for the examples *)

(** A trade with Alice (player 0 of the store), agreed on both sides and
    with nothing on the table. *)
Definition agreed_trade : Trade.t :=
  Trade.mk 0 true false ∅ ∅ true true.

(** A client in a room with Alice and Bob, trading with Alice. *)
Definition trading : Client.t :=
  Client.mk (Connection.mk "main" true 0 []) (Some (Connection.mk "bulle" true 0 [])) ∅
    (Some (Room.mk "en-1" false [0; 1])) (Some 0) [0] 0%Z None
    (Client.coros (Client.init 0))
    [Player.set_trade (Some 0) alice; bob] [agreed_trade] [] [] [] [].

(** A client of community 3 whose main connection is open and has sent
    one frame already. *)
Definition connected : Client.t :=
  Client.mk (Connection.mk "main" true 0 [(Packet.new 28 1, false)]) None ∅
    None None [] 3%Z None (Client.coros (Client.init 3)) [] [] [] [] [] [].

(** The connection object behind a reference, when the client has it. *)
Definition conn_at (c : Client.t) (conn : conn_ref) : option Connection.t :=
  match conn with
  | CMain => Some (Client.main c)
  | CBulle => Client.bulle c
  end.

(** The handshake-acknowledged frame by its fields. *)
Definition handshake_frame (online : Z) (fingerprint : Z) (community country : string)
    (authkey : Z) : Packet.t :=
  Packet.mk (26, 3)%Z
    [Packet.F32 online; Packet.F8 fingerprint; Packet.FUTF community;
     Packet.FUTF country; Packet.F32 authkey].

(** ** Waiters and their futures *)

(** A waiter whose future is still pending or has been cancelled. *)
Definition live (futs : list future) (w : waiter) : Prop :=
  futs !! w_fut w = Some Pending \/ futs !! w_fut w = Some Cancelled.

(** Waiters as [wait_for] and [cancel] leave them: each with a future of
    its own, pending or cancelled. *)
Definition sound (futs : list future) (ws : list waiter) : Prop :=
  Forall (live futs) ws /\ NoDup (w_fut <$> ws).


(** A waiter that ends the loop of [dispatch] when it is reached: not
    cancelled, with a condition that holds and [stopPropagation] set. *)
Definition stops (futs : list future) (args : list pyval) (w : waiter) : Prop :=
  futs !! w_fut w = Some Pending /\ w_cond w args = Holds true /\ w_stop w = true.

(** The trade-start frame by its field. *)
Definition start_frame (pid : Z) : Packet.t := Packet.mk (31, 7)%Z [Packet.F32 pid].

(** An invitation from Bob (player 1 of the store), not started yet. *)
Definition invitation : Trade.t :=
  Trade.mk 1 true true ∅ ∅ false false.

(** The client of [trading] after Bob has invited it to a trade. *)
Definition invited : Client.t :=
  Client.mk (Connection.mk "main" true 0 []) (Some (Connection.mk "bulle" true 0 [])) ∅
    (Some (Room.mk "en-1" false [0; 1])) (Some 0) [0; 1] 0%Z None
    (Client.coros (Client.init 0))
    [Player.set_trade (Some 0) alice; Player.set_trade (Some 1) bob]
    [agreed_trade; invitation] [] [] [] [].

(** ** Clients with waiters, for the examples *)

(** [wait_for('on_ping', stopPropagation=True)] on a new client. *)
Definition one_stopper : Client.t :=
  fst (wait_for "on_ping" None true (Client.init 0)).

(** A second waiter for the same event, registered after the first. *)
Definition two_waiters : Client.t :=
  fst (wait_for "on_ping" None false one_stopper).

(** A condition that raises, as [lambda: 1/0] does. *)
Definition failing : list pyval -> verdict := fun _ => Throws ValueError.

(** [wait_for('on_ping', failing)] on a new client. *)
Definition one_failing : Client.t :=
  fst (wait_for "on_ping" (Some failing) false (Client.init 0)).

(** A waiter that matches and does not stop, then one that matches and
    stops. *)
Definition plain_then_stopper : Client.t :=
  fst (wait_for "on_ping" None true
         (fst (wait_for "on_ping" None false (Client.init 0)))).

(** ** Frames for the examples *)

(** The old-protocol frame that removes the player with persistent id
    101: the bytes 8, 7, the separator 1 and the digits of the id. *)
Definition remove_alice : Packet.t :=
  Packet.mk (1, 1)%Z
    [Packet.FBytes (String "008"%char (String "007"%char (String "001"%char "101")))].

(** The roster frame that leaves Bob alone in the room. *)
Definition roster_of_bob : Packet.t :=
  Packet.mk (144, 1)%Z [Packet.F16 1; Packet.FPlayer bob].

(** The trade-error frames: the form with an empty name and the form
    that names the counterparty. *)
Definition own_trade_error (error : Z) : Packet.t :=
  Packet.mk (31, 6)%Z [Packet.FUTF ""; Packet.F8 error].

Definition named_trade_error (name : string) (error : Z) : Packet.t :=
  Packet.mk (31, 6)%Z [Packet.FUTF name; Packet.F8 error].

(** The login-result frame by its fields. *)
Definition login_result_frame (code : Z) (key args : string) : Packet.t :=
  Packet.mk (26, 12)%Z [Packet.F8 code; Packet.FUTF key; Packet.FUTF args].

(** * More of the code *)

(** ** [aiotfm/room.py]: the properties of the name *)

Module RoomName.

(** [s.split(sep, 1)] for a one-character separator: the text before the
    first separator and the text after it, or the text alone. *)
Fixpoint split_once (sep : ascii) (s : string) : list string :=
  match s with
  | EmptyString => [EmptyString]
  | String a r =>
      if Ascii.eqb a sep then [EmptyString; r]
      else match split_once sep r with
           | p :: ps => String a p :: ps
           | [] => [String a EmptyString]
           end
  end.

(** [s.replace(c, '')] for a one-character [c]. *)
Fixpoint without (c : ascii) (s : string) : string :=
  match s with
  | EmptyString => EmptyString
  | String a r => if Ascii.eqb a c then without c r else String a (without c r)
  end.

(** [l[i]] on a list *)
Definition item {A} (l : list A) (i : nat) : outcome A :=
  match l !! i with
  | Some x => Ok x
  | None => Raise IndexError
  end.

Section Properties.
Context {P : Type}.

(** [Room.community] *)
Definition community (self : Room.t P) : outcome string :=
  if String.prefix "*" (Room.name self) then Ok "xx"
  else item (split_once "-" (Room.name self)) 0.

(** [Room.is_tribe] *)
Definition is_tribe (self : Room.t P) : bool :=
  String.prefix (String "*" (String "003" "")) (Room.name self).

(** [Room.display_name] *)
Definition display_name (self : Room.t P) : outcome string :=
  if is_tribe self then Ok (without "003" (Room.name self))
  else if String.prefix "*" (Room.name self) then Ok (Room.name self)
  else item (split_once "-" (Room.name self)) 1.

End Properties.

End RoomName.

(** A character of a text. *)
Fixpoint occurs (c : ascii) (s : string) : bool :=
  match s with
  | EmptyString => false
  | String a r => Ascii.eqb a c || occurs c r
  end.

(** ** Registrations and cancellations *)

(** What the users of the event bus do to it between two events: they
    register a waiter, or a timeout cancels the future of one. *)
Inductive bus_op : Type :=
  | Register (event : string) (condition : option (list pyval -> verdict)) (stop : bool)
  | Cancel (fut : nat).

Definition bus_step (c : Client.t) (op : bus_op) : Client.t :=
  match op with
  | Register event condition stop => fst (wait_for event condition stop c)
  | Cancel fut => cancel fut c
  end.

Definition bus_run (ops : list bus_op) (c : Client.t) : Client.t :=
  foldl bus_step c ops.



(** Every name of the registry is in lower case. *)
Definition lower_keys (c : Client.t) : Prop :=
  forall method, is_Some (Client._waiters c !! method) -> Text.lower method = method.

(** ** The waiters that [dispatch] takes out *)

(** A waiter that [dispatch] resolves: pending, with a condition that
    holds on the arguments. *)
Definition matches (futs : list future) (args : list pyval) (w : waiter) : bool :=
  match futs !! w_fut w, w_cond w args with
  | Some Pending, Holds true => true
  | _, _ => false
  end.

(** A waiter that a completed loop marks for removal: cancelled, or
    resolved. *)
Definition leaves (futs : list future) (args : list pyval) (w : waiter) : bool :=
  match futs !! w_fut w with
  | Some Cancelled => true
  | _ => matches futs args w
  end.

(** The indices, from [i] on, of the waiters that satisfy [f]. *)
Fixpoint marked (f : waiter -> bool) (i : nat) (ws : list waiter) : list nat :=
  match ws with
  | [] => []
  | w :: rest => (if f w then [i] else []) ++ marked f (S i) rest
  end.

(** No pending waiter has a condition that raises on the arguments. *)
Definition quiet (futs : list future) (args : list pyval) (w : waiter) : Prop :=
  futs !! w_fut w = Some Pending -> forall e, w_cond w args <> Throws e.

(** [lambda *a: False] *)
Definition never : list pyval -> verdict := fun _ => Holds false.


(** Three waiters of [ping] on a new client: one without a condition,
    one whose condition never holds, and one that would stop the
    propagation but has timed out. *)
Definition mixed_waiters : Client.t :=
  bus_run [Register "on_ping" None false; Register "on_ping" (Some never) false;
           Register "on_ping" None true; Cancel 2]
    (Client.init 0).

(** ** [Client.event] and [Client._run_event] *)

(** A function object as [event] looks at it: its [__name__], whether it
    is a coroutine function, and the coroutine it makes. *)
Record function : Type := mk_function
  { fn_name : string;
    fn_async : bool;
    fn_body : coro }.

(** What [event] comes to: the client with the attribute set, or the
    [InvalidEvent] it raises, with its message. *)
Inductive registration : Type :=
  | Registered (c : Client.t)
  | InvalidEvent (msg : string).

(** [setattr(self, name, coro)] *)
Definition set_coro (name : string) (coro : coro) (c : Client.t) : Client.t :=
  Client.mk (Client.main c) (Client.bulle c) (Client._waiters c) (Client.room c)
    (Client.trade c) (Client.trades c) (Client.community c) (Client.authkey c)
    (<[name := coro]> (Client.coros c)) (Client.player_store c) (Client.trade_store c)
    (Client.futures c) (Client.tasks c) (Client.timers c) (Client.dispatched c).

(** [Client.event(coro)] *)
Definition event (f : function) (c : Client.t) : registration :=
  let name := fn_name f in
  if negb (String.prefix "on_" name) then
    InvalidEvent ("'" +:+ name +:+ "' isn't a correct event naming.")
  else if negb (fn_async f) then
    InvalidEvent ("Couldn't register a non-coroutine function for the event "
                  +:+ name +:+ ".")
  else Registered (set_coro name (fn_body f) c).

(** How awaiting a coroutine ends.  [Beyond] marks a call this embedding
    does not follow (arguments that are no values here). *)
Inductive ending : Type :=
  | Completes
  | GetsCancelled
  | Fails (e : exn)
  | Beyond.

Section Tasks.
(** What the coroutines of the user do (they are Python code of the
    user, any code). *)
Context (user : nat -> list pyval -> Client.t -> Client.t * ending).

(** Awaiting the coroutine on the arguments, for the coroutines of the
    class and of the user.  [on_error] formats and prints its message. *)
Definition call (co : coro) (args : list pyval) (c : Client.t) : Client.t * ending :=
  match co with
  | OnLoginResult =>
      match args with
      | VInt code :: rest =>
          match on_login_result code rest c with
          | (c', Ok _) => (c', Completes)
          | (c', Raise e) => (c', Fails e)
          | (c', Stuck) => (c', Beyond)
          end
      | [] => (c, Fails TypeError)
      | _ :: _ => (c, Beyond)
      end
  | OnError =>
      match args with
      | _ :: _ :: _ => (c, Completes)
      | _ => (c, Fails TypeError)
      end
  | OnConnectionError => (c, Beyond)
  | UserCoro n => user n args c
  end.

(** [Client._run_event(coro, event_name, *args)].  The answer tells what
    [on_error] was called with, when it was. *)
Definition _run_event (co : coro) (event_name : string) (args : list pyval)
    (c : Client.t) : Client.t * outcome (option (string * exn)) :=
  match call co args c with
  | (c', Completes) => (c', Ok None)
  | (c', GetsCancelled) => (c', Ok None)
  | (c', Fails e) =>
      match Client.coros c' !! "on_error" with
      | Some OnError => (c', Ok (Some (event_name, e)))
      | Some _ => (c', Stuck)
      | None => (c', Ok None)
      end
  | (c', Beyond) => (c', Stuck)
  end.

(** The event loop running a task that [dispatch] handed to it. *)
Definition run_task (t : task) (c : Client.t)
  : Client.t * outcome (option (string * exn)) :=
  match t with
  | RunEvent co event_name args => _run_event co event_name args c
  | HeartbeatLoop => (c, Stuck)
  end.

End Tasks.

(** A handler of the user for the ping. *)
Definition on_ping_handler : function := mk_function "on_ping" true (UserCoro 0).

(** ** The opcode pairs of [handle_packet] *)

(** The pairs the chain of [handle_packet] compares the code with, in
    its order. *)
Definition handled : list (Z * Z) :=
  [(1, 1); (5, 21); (6, 6); (6, 20); (8, 5); (8, 16); (8, 20); (8, 22); (16, 2);
   (26, 2); (26, 3); (26, 12); (26, 25); (28, 6); (29, 6); (31, 1); (31, 2); (31, 5);
   (31, 6); (31, 7); (31, 8); (31, 9); (31, 10); (44, 1); (44, 22); (60, 3);
   (100, 67); (144, 1); (144, 2)]%Z.

(** ** Trade frames *)

(** A computation that leaves the client alone and raises. *)
Definition refuses {A} (m : Client.M A) (c : Client.t) : Prop :=
  fst (m c) = c /\ exists e, snd (m c) = Raise e.

(** The trade frames that go to the current trade. *)
Definition current_trade_codes : list (Z * Z) := [(31, 8); (31, 9); (31, 10)]%Z.

(** The trade-lock frame by its fields, and the trade-complete frame. *)
Definition lock_frame (me locked : bool) : Packet.t :=
  Packet.mk (31, 9)%Z [Packet.FBool me; Packet.FBool locked].

Definition complete_frame : Packet.t := Packet.mk (31, 10)%Z [].


(** ** Outbound commands *)

(** [bytes.replace(old, new)] for a one-byte [old]. *)
Fixpoint replace_byte (old : ascii) (new : list ascii) (b : list ascii) : list ascii :=
  match b with
  | [] => []
  | a :: rest =>
      (if Ascii.eqb a old then new else [a]) ++ replace_byte old new rest
  end.

(** [message.replace(b'<', b'&lt;').replace(b'>', b'&gt;')] *)
Definition escape (message : list ascii) : list ascii :=
  replace_byte ">"%char (list_ascii_of_string "&gt;")
    (replace_byte "<"%char (list_ascii_of_string "&lt;") message).

(** [range(start, stop, step)] for a positive [step]: the first [n]
    values from [start], where [n] is the number of steps below [stop]. *)
Fixpoint range_from (n start step : nat) : list nat :=
  match n with
  | O => []
  | S n' => start :: range_from n' (start + step) step
  end.

Definition range (start stop step : nat) : list nat :=
  range_from ((stop - start + (step - 1)) / step) start step.

(** [b[i:j]] on bytes, for [i <= j]. *)
Definition slice (i j : nat) (b : list ascii) : list ascii := take (j - i) (drop i b).

(** Whom a whisper goes to: a name, or a player object. *)
Inductive recipient : Type :=
  | ByName (username : string)
  | ByPlayer (player : Player.t).

(** [if isinstance(username, Player): username = username.username] *)
Definition recipient_name (username : recipient) : string :=
  match username with
  | ByPlayer p => Player.username p
  | ByName n => n
  end.

Module Outbound.

(** The client with the attribute [cp_fingerprint], which no handler of
    the inbound frames reads or writes, and the seconds spent in
    [asyncio.sleep]. *)
Record t : Type := mk
  { base : Client.t;
    cp_fingerprint : Z;
    slept : Z }.

(** [Client.__init__]: [self.cp_fingerprint = 0]. *)
Definition init (community : Z) : t := mk (Client.init community) 0 0.

Definition M (A : Type) : Type := t -> t * outcome A.

Definition ret {A} (a : A) : M A := fun s => (s, Ok a).

Definition bind {A B} (m : M A) (k : A -> M B) : M B := fun s =>
  match m s with
  | (s', Ok a) => k a s'
  | (s', Raise e) => (s', Raise e)
  | (s', Stuck) => (s', Stuck)
  end.

(** A method of the client that does not touch [cp_fingerprint]. *)
Definition lift {A} (m : Client.M A) : M A := fun s =>
  (mk (fst (m (base s))) (cp_fingerprint s) (slept s), snd (m (base s))).

(** [await asyncio.sleep(seconds)] *)
Definition sleep (seconds : Z) : M unit := fun s =>
  (mk (base s) (cp_fingerprint s) (slept s + seconds), Ok tt).

(** [for i in l: body(i)] *)
Fixpoint for_each {A} (l : list A) (body : A -> M unit) : M unit :=
  match l with
  | [] => ret tt
  | i :: rest => bind (body i) (fun _ => for_each rest body)
  end.

End Outbound.

(** [(self.cp_fingerprint + 1) % 0XFFFFFFFF] *)
Definition next_fingerprint (fp : Z) : Z := ((fp + 1) mod 0xFFFFFFFF)%Z.

(** Modelled from the spec: the builder of [aiotfm.packet] is not in
    src; [write16] appends a 16-bit value, and [writeBytes] of another
    packet appends what that packet carries.  The frame of [sendCP]:
    [Packet.new(60, 3).write16(code)], then
    [write32(self.cp_fingerprint).writeBytes(data)]. *)
Definition cp_frame (code fp : Z) (data : list Packet.field) : Packet.t :=
  let packet := Packet.write (Packet.F16 code) (Packet.new 60 3) in
  let packet := Packet.write32 fp packet in
  Packet.mk (Packet.ccc packet) (Packet.body packet ++ data).

(** [Client.sendCP(code, data)] *)
Definition sendCP (code : Z) (data : list Packet.field) : Outbound.M Z := fun s =>
  let fp := next_fingerprint (Outbound.cp_fingerprint s) in
  let s := Outbound.mk (Outbound.base s) fp (Outbound.slept s) in
  Outbound.bind (Outbound.lift (conn_send CMain (cp_frame code fp data) true))
    (fun _ => Outbound.ret fp) s.

(** [Client.whisper(username, message, overflow)], the message as its
    bytes.  The method calls itself for every further piece of 255
    bytes; [fuel] bounds the depth of these calls. *)
Fixpoint whisper (fuel : nat) (username : recipient) (message : list ascii)
    (overflow : bool) : Outbound.M unit :=
  match fuel with
  | O => fun s => (s, Stuck)
  | S fuel' =>
      let username := recipient_name username in
      let send (msg : list ascii) : Outbound.M Z :=
        sendCP 52 [Packet.FUTF username; Packet.FUTF (string_of_list_ascii msg)] in
      let message := escape message in
      Outbound.bind (send (slice 0 255 message)) (fun _ =>
      Outbound.for_each (range 255 (length message) 255) (fun i =>
        Outbound.bind (Outbound.sleep 1) (fun _ =>
        whisper fuel' (ByName username) (slice i (i + 255) message) false)))
  end.

(** The pieces a whisper goes out in: the escaped message cut every 255
    bytes, one piece also for an empty message. *)
Definition pieces (message : list ascii) : list (list ascii) :=
  let message := escape message in
  slice 0 255 message ::
  ((fun i => slice i (i + 255) message) <$> range 255 (length message) 255).

(** The frames of a sequence of whispered pieces, from the fingerprint
    [fp] on. *)
Fixpoint whisper_frames (username : string) (fp : Z) (chunks : list (list ascii))
  : list (Packet.t * bool) :=
  match chunks with
  | [] => []
  | chunk :: rest =>
      (cp_frame 52 (next_fingerprint fp)
         [Packet.FUTF username; Packet.FUTF (string_of_list_ascii chunk)], true)
      :: whisper_frames username (next_fingerprint fp) rest
  end.

(** The escaped message in the words of the spec, "escaping [<]/[>]":
    every [<] stands as [&lt;], every [>] as [&gt;] and every other
    byte as itself. *)
Definition entity (a : ascii) : list ascii :=
  if Ascii.eqb a "<"%char then list_ascii_of_string "&lt;"
  else if Ascii.eqb a ">"%char then list_ascii_of_string "&gt;"
  else [a].

Definition escaped (message : list ascii) : list ascii := flat_map entity message.

(** The client after [frames] went out on the main connection, with its
    fingerprint and the time spent asleep. *)
Definition with_frames (frames : list (Packet.t * bool)) (fp : Z) (slept : Z)
    (s : Outbound.t) : Outbound.t :=
  let main := Client.main (Outbound.base s) in
  Outbound.mk
    (Client.set_main
       (Connection.mk (Connection.name main) (Connection.open main)
          (Connection.fingerprint main) (Connection.sent main ++ frames))
       (Outbound.base s))
    fp slept.

(** A message of 300 bytes that starts with an angle bracket. *)
Definition long_message : list ascii :=
  "<"%char :: replicate 299 "a"%char.

(** A client that is online, before its first whisper. *)
Definition online : Outbound.t :=
  Outbound.mk trading 0 0.


(** ** Roster frames *)

(** The frame that adds a player, and the frame with a whole roster. *)
Definition add_frame (p : Player.t) : Packet.t :=
  Packet.mk (144, 2)%Z [Packet.FPlayer p].

Definition roster_frame (ps : list Player.t) : Packet.t :=
  Packet.mk (144, 1)%Z (Packet.F16 (Z.of_nat (length ps)) :: (Packet.FPlayer <$> ps)).

(** Every player of the roster is an object of the store. *)
Definition roster_stored (r : Room.t nat) (c : Client.t) : Prop :=
  Forall (fun i => i < length (Client.player_store c)) (Room.players r).

(** A player who is not in the examples' room, and a new object for
    Alice. *)
Definition dave : Player.t := Player.mk "Dave" 14 103 None.

Definition alice_again : Player.t := Player.mk "Alice" 21 101 None.

(** Two players that are equal for [by_name] and have different
    persistent ids, alone in a room; and a new object for the second. *)
Definition twins : Client.t :=
  Client.mk (Connection.mk "main" true 0 []) (Some (Connection.mk "bulle" true 0 [])) ∅
    (Some (Room.mk "en-1" false [0; 1])) None [] 0%Z None
    (Client.coros (Client.init 0))
    [Player.mk "Sam" 11 101 None; Player.mk "Sam" 12 102 None] [] [] [] [] [].

Definition second_twin_again : Player.t := Player.mk "Sam" 22 102 None.

(** A client in the room with Alice and Bob, without a trade. *)
Definition idle : Client.t :=
  Client.mk (Connection.mk "main" true 0 []) (Some (Connection.mk "bulle" true 0 [])) ∅
    (Some (Room.mk "en-1" false [0; 1])) None [] 0%Z None
    (Client.coros (Client.init 0))
    [alice; bob] [] [] [] [] [].

(** ** Frames that end inside [received_data] *)







(** * Properties *)

(** Projections of a client that is given by its fields or by setters. *)
Ltac client_fields :=
  cbn [fst snd Client.ret
       Client.main Client.bulle Client._waiters Client.room Client.trade Client.trades
       Client.community Client.authkey Client.coros Client.player_store
       Client.trade_store Client.futures Client.tasks Client.timers Client.dispatched
       Client.set_main Client.set_bulle Client.set__waiters Client.set_room
       Client.set_trade Client.set_authkey Client.set_player_store
       Client.set_trade_store Client.set_futures Client.set_tasks Client.set_timers
       Client.set_dispatched].

(** ** The text helpers on small inputs *)

Example to_int_digits : Text.to_int "101" = Some 101%Z.
Proof. reflexivity. Qed.

Example to_int_signed_blank : Text.to_int " -4_2 " = Some (-42)%Z.
Proof. reflexivity. Qed.

Example to_int_letters : Text.to_int "abc" = None.
Proof. reflexivity. Qed.

Example split_old_packet :
  Text.split "001"%char (String "008"%char (String "007"%char (String "001"%char "101")))
  = [String "008"%char (String "007"%char ""); "101"].
Proof. reflexivity. Qed.

Example split_keeps_empty_pieces :
  Text.split "001"%char (String "001"%char "") = [""; ""].
Proof. reflexivity. Qed.

Example lower_event_name : Text.lower "on_Trade_Close" = "on_trade_close".
Proof. reflexivity. Qed.

(** ** The roster lookup *)

Section RoomFacts.
Context {P : Type} `{Room.PlayerLike P}.

Lemma comprehension_total (f : P -> bool) (ps : list P) :
  Room.comprehension (fun p => Ok (f p)) ps = Ok (List.filter f ps).
Proof.
  induction ps as [|p ps IH]; simpl; [reflexivity|].
  rewrite IH. simpl. destruct (f p); reflexivity.
Qed.

Lemma head_filter_find (f : P -> bool) (ps : list P) :
  head (List.filter f ps) = List.find f ps.
Proof.
  induction ps as [|p ps IH]; simpl; [reflexivity|].
  destruct (f p); simpl; [reflexivity|exact IH].
Qed.

Lemma get_players_total (f : P -> bool) (self : Room.t P) :
  Room.get_players (fun p => Ok (f p)) None self
  = (self, Ok (List.filter f (Room.players self))).
Proof.
  unfold Room.get_players. rewrite comprehension_total. reflexivity.
Qed.

Lemma get_players_by_int (v : pyval) (n : Z) (g : P -> Z) (self : Room.t P) :
  py_int v = Ok n ->
  Room.get_players (fun p => outcome_map (Z.eqb (g p)) (py_int v)) None self
  = (self, Ok (List.filter (fun p => (g p =? n)%Z) (Room.players self))).
Proof.
  intros Hv. rewrite Hv. simpl. apply (get_players_total (fun p => (g p =? n)%Z)).
Qed.

(** C10, as the code has it.  [Room.get_player] gives the room back as
    it was; without a keyword, or with more than one, it raises an [AiotfmException]; with
    the one keyword [name] or [username] it returns the first player of
    the roster equal to the value, with [id] or [pid] and a value that
    [int] reads as [n], the first player whose id (persistent id) is
    [n]; and [None] when there is no such player. *)
Theorem get_player_spec (self : Room.t P) (kwargs : list (string * pyval)) :
  fst (Room.get_player kwargs self) = self /\
  (length kwargs <> 1 ->
   exists msg, snd (Room.get_player kwargs self) = Raise (AiotfmException msg)) /\
  (forall k v, kwargs = [(k, v)] -> k = "name" \/ k = "username" ->
     snd (Room.get_player kwargs self)
     = Ok (List.find (fun p => Room.p_eq p v) (Room.players self))) /\
  (forall v n, kwargs = [("id", v)] -> py_int v = Ok n ->
     snd (Room.get_player kwargs self)
     = Ok (List.find (fun p => (Room.p_id p =? n)%Z) (Room.players self))) /\
  (forall v n, kwargs = [("pid", v)] -> py_int v = Ok n ->
     snd (Room.get_player kwargs self)
     = Ok (List.find (fun p => (Room.p_pid p =? n)%Z) (Room.players self))).
Proof.
  repeat split.
  - destruct kwargs as [|[k v] [|kv rest]]; try reflexivity.
    unfold Room.get_player, Room.get_players.
    repeat match goal with |- context [if ?b then _ else _] => destruct b end;
      reflexivity.
  - intros Hlen. destruct kwargs as [|[k v] [|kv rest]]; simpl in *.
    + eexists; reflexivity.
    + congruence.
    + eexists; reflexivity.
  - intros k v -> Hk. unfold Room.get_player.
    assert (String.eqb k "name" || String.eqb k "username" = true) as ->.
    { destruct Hk as [-> | ->]; reflexivity. }
    rewrite (get_players_total (fun p => Room.p_eq p v)). simpl.
    rewrite head_filter_find. reflexivity.
  - intros v n -> Hv. unfold Room.get_player.
    change (String.eqb "id" "name" || String.eqb "id" "username") with false.
    change (String.eqb "id" "id") with true. cbv iota.
    rewrite (get_players_by_int v n Room.p_id self Hv). simpl.
    rewrite head_filter_find. reflexivity.
  - intros v n -> Hv. unfold Room.get_player.
    change (String.eqb "pid" "name" || String.eqb "pid" "username") with false.
    change (String.eqb "pid" "id") with false.
    change (String.eqb "pid" "pid") with true. cbv iota.
    rewrite (get_players_by_int v n Room.p_pid self Hv). simpl.
    rewrite head_filter_find. reflexivity.
Qed.

End RoomFacts.

(** The lookups of C10 in a room of three: [pid=102] finds Bob, who comes
    before Carol. *)
Lemma get_player_spec_witness :
  snd (Room.get_player (H := @player_like by_name) [("pid", VInt 102)] lobby)
  = Ok (Some bob).
Proof.
  destruct (get_player_spec (H := @player_like by_name) lobby [("pid", VInt 102)])
    as (_ & _ & _ & _ & Hpid).
  rewrite (Hpid (VInt 102) 102%Z eq_refl eq_refl). reflexivity.
Defined.

Example get_player_without_keyword :
  snd (Room.get_player (H := @player_like by_name) [] lobby)
  = Raise (AiotfmException "You did not provide any identifier.").
Proof. reflexivity. Qed.

Example get_player_by_name :
  snd (Room.get_player (H := @player_like by_name) [("name", VStr "Carol")] lobby)
  = Ok (Some carol).
Proof. reflexivity. Qed.

Example get_player_unknown_id :
  snd (Room.get_player (H := @player_like by_name) [("id", VInt 99)] lobby) = Ok None.
Proof. reflexivity. Qed.

Example get_player_id_as_text :
  snd (Room.get_player (H := @player_like by_name) [("id", VStr "12")] lobby)
  = Ok (Some bob).
Proof. reflexivity. Qed.

Example get_player_id_not_text_of_a_number :
  snd (Room.get_player (H := @player_like by_name) [("id", VStr "abc")] lobby)
  = Raise ValueError.
Proof. reflexivity. Qed.

(** The claim of C10 as it is worded, for every value of the keyword: the
    call returns.  With a roster that is not empty and a value that [int]
    refuses, the conversion in the filter raises instead. *)
Lemma get_player_id_not_a_number :
  ~ (forall (self : Room.t Player.t) (k : string) (v : pyval),
       k = "name" \/ k = "username" \/ k = "id" \/ k = "pid" ->
       exists r, snd (Room.get_player (H := @player_like by_name) [(k, v)] self) = Ok r).
Proof.
  intros Hall.
  destruct (Hall lobby "id" (VStr "abc")) as [r Hr]; [tauto|].
  vm_compute in Hr. discriminate Hr.
Qed.

(** The conversion error in general: with [id] or [pid] and a value that
    [int] refuses, the call raises what [int] raises as soon as the
    roster has a player, and returns [None] on an empty roster. *)
Lemma get_player_conversion_error {P : Type} `{Room.PlayerLike P} (self : Room.t P)
    (k : string) (v : pyval) (e : exn) :
  k = "id" \/ k = "pid" ->
  py_int v = Raise e ->
  snd (Room.get_player [(k, v)] self)
  = match Room.players self with
    | [] => Ok None
    | _ :: _ => Raise e
    end.
Proof.
  intros Hk Hv.
  destruct Hk as [-> | ->]; cbn [Room.get_player String.eqb Ascii.eqb Bool.eqb orb];
    unfold Room.get_players; cbn [snd]; rewrite Hv;
    destruct (Room.players self) as [|p rest]; reflexivity.
Qed.

(** ** What [dispatch] leaves alone *)

(** A call to [dispatch] adds itself to the trace and touches the
    waiters, the futures and the tasks, and nothing else. *)
Lemma dispatch_shape (event : string) (args : list pyval) (c : Client.t) :
  exists ws futs ts,
    fst (dispatch event args c)
    = Client.mk (Client.main c) (Client.bulle c) ws (Client.room c) (Client.trade c)
        (Client.trades c) (Client.community c) (Client.authkey c) (Client.coros c)
        (Client.player_store c) (Client.trade_store c) futs ts (Client.timers c)
        (Client.dispatched c ++ [(event, args)]).
Proof.
  unfold dispatch, fire. cbn [Client._waiters Client.set_dispatched Client.futures].
  destruct (Client._waiters c !! ("on_" +:+ event)) as [ws|].
  - destruct (scan args ws 0 [] (Client.futures c)) as [futs [rm|i|e|]]; cbn.
    + destruct (length rm =? length ws)%nat; cbn;
        match goal with
        | |- context [Client.coros c !! ?k] => destruct (Client.coros c !! k)
        end; cbn; eauto.
    + eauto.
    + eauto.
    + eauto.
  - cbn. destruct (Client.coros c !! ("on_" +:+ event)); cbn; eauto.
Qed.

Lemma fst_bind_ret {A B} (m : Client.M A) (b : B) (c : Client.t) :
  fst (Client.bind m (fun _ => Client.ret b) c) = fst (m c).
Proof. unfold Client.bind, Client.ret. destruct (m c) as [c' [a|e|]]; reflexivity. Qed.

Lemma fst_catch (m : Client.M bool) (c : Client.t) : fst (catch m c) = fst (m c).
Proof. unfold catch. destruct (m c) as [c' [a|e|]]; reflexivity. Qed.

Lemma update_trade_run (r : nat) (f : Trade.t -> Trade.t) (x : Trade.t) (c : Client.t) :
  Client.trade_store c !! r = Some x ->
  update_trade r f c
  = (Client.set_trade_store (<[r := f x]> (Client.trade_store c)) c, Ok tt).
Proof.
  intros Hx. unfold update_trade, Client.bind, trade_at, Client.modify. rewrite Hx.
  reflexivity.
Qed.

(** ** Item deltas *)

(** The state after the branch of the item delta: the trade at [tr] is
    replaced by [after_delta], the event is in the trace. *)
Lemma trade_items_run (me : bool) (id : Z) (adding : bool) (quantity : Z)
    (c : Client.t) (tr : nat) (x : Trade.t) :
  Client.trade c = Some tr -> Client.trade_store c !! tr = Some x ->
  exists ws futs ts,
    fst (trade_items (item_frame me id adding quantity) c)
    = Client.mk (Client.main c) (Client.bulle c) ws (Client.room c) (Client.trade c)
        (Client.trades c) (Client.community c) (Client.authkey c) (Client.coros c)
        (Client.player_store c)
        (<[tr := after_delta me id (signed adding quantity) x]> (Client.trade_store c))
        futs ts (Client.timers c)
        (Client.dispatched c ++
         [("trade_item_change",
           [VTrade tr; (if me then VClient else VPlayer (Trade._other x)); VInt id;
            VInt (signed adding quantity);
            VInt (default 0%Z
                    (drop_zero id (add_quantity id (signed adding quantity) (side me x))
                     !! id))])]).
Proof.
  intros Htr Hx.
  assert (tr < length (Client.trade_store c))%nat as Hlt by (eapply lookup_lt_Some; eauto).
  unfold trade_items, item_frame.
  cbv [Client.bind Client.lift Packet.readBool Packet.read16 Packet.read8 Packet.next
       Packet.body Packet.ccc the_trade trade_at].
  rewrite Htr, Hx.
  rewrite (update_trade_run tr _ x c Hx).
  set (c1 := Client.set_trade_store _ c).
  set (x1 := (if me then Trade.set_items_me _ else Trade.set_items_other _) x) in c1.
  assert (Client.trade_store c1 !! tr = Some x1) as H1.
  { subst c1. cbn [Client.trade_store Client.set_trade_store].
    rewrite list_lookup_insert_eq by exact Hlt. reflexivity. }
  rewrite (update_trade_run tr _ _ c1 H1).
  set (c2 := Client.set_trade_store _ c1).
  assert (Client.trade_store c2 !! tr = Some (Trade.set_locked_me false x1)) as H2.
  { subst c2. cbn [Client.trade_store Client.set_trade_store].
    rewrite list_lookup_insert_eq; [reflexivity|].
    subst c1. cbn [Client.trade_store Client.set_trade_store].
    rewrite length_insert. exact Hlt. }
  rewrite (update_trade_run tr _ _ c2 H2).
  set (c3 := Client.set_trade_store _ c2).
  match goal with
  | |- context [dispatch ?e ?a c3] =>
      destruct (dispatch_shape e a c3) as (ws & futs & ts & Hd);
      destruct (dispatch e a c3) as [c4 [[]|e'|]]
  end;
    cbn [fst] in *; subst c4; exists ws, futs, ts; subst c3 c2 c1 x1;
    client_fields;
    rewrite !list_insert_insert_eq, ?Htr; unfold after_delta, side;
    destruct me; reflexivity.
Qed.

Lemma handle_item_frame `{PlayerEq} (conn : conn_ref) (me : bool) (id : Z)
    (adding : bool) (quantity : Z) :
  handle_packet conn (item_frame me id adding quantity)
  = trade_items (item_frame me id adding quantity).
Proof. reflexivity. Qed.

(** C4.  Whatever side the item delta is about and whatever the lock
    flags were, once the frame has been handled both lock flags of the
    current trade are false. *)
Theorem item_delta_resets_locks `{PlayerEq} (conn : conn_ref) (me : bool) (id : Z)
    (adding : bool) (quantity : Z) (c : Client.t) (tr : nat) (x : Trade.t) :
  Client.trade c = Some tr ->
  Client.trade_store c !! tr = Some x ->
  let c' := fst (handle_packet conn (item_frame me id adding quantity) c) in
  exists x',
    Client.trade c' = Some tr /\
    Client.trade_store c' !! tr = Some x' /\
    Trade.locked_me x' = false /\
    Trade.locked_other x' = false.
Proof.
  intros Htr Hx c'. subst c'. rewrite handle_item_frame.
  destruct (trade_items_run me id adding quantity c tr x Htr Hx)
    as (ws & futs & ts & ->).
  exists (after_delta me id (signed adding quantity) x).
  cbn [Client.trade Client.trade_store].
  split; [exact Htr|]. split.
  - apply list_lookup_insert_eq. eapply lookup_lt_Some; eauto.
  - split; reflexivity.
Qed.

(** C4 on a trade that both sides had locked: Bob is not involved, the
    delta comes from the other side. *)
Lemma item_delta_resets_locks_witness :
  exists x',
    Client.trade (fst (handle_packet (H := by_name) CBulle (item_frame false 7 true 2) trading))
    = Some 0 /\
    Client.trade_store
      (fst (handle_packet (H := by_name) CBulle (item_frame false 7 true 2) trading)) !! 0
    = Some x' /\
    Trade.locked_me x' = false /\
    Trade.locked_other x' = false.
Proof.
  apply (item_delta_resets_locks (H := by_name) CBulle false 7 true 2 trading 0 agreed_trade);
    reflexivity.
Defined.

(** *** The item mappings *)

Lemma stored_quantity_at (m : gmap Z Z) (id : Z) :
  zero_free m -> m !! id = stored (quantity_at m id).
Proof.
  intros Hz. unfold stored, quantity_at. specialize (Hz id).
  destruct (m !! id) as [n|]; simpl; [|reflexivity].
  destruct (Z.eqb_spec n 0) as [->|]; [congruence|reflexivity].
Qed.

Lemma zero_free_empty : zero_free ∅.
Proof. intros id. rewrite lookup_empty. discriminate. Qed.

Lemma add_quantity_lookup (id q : Z) (m : gmap Z Z) (k : Z) :
  add_quantity id q m !! k
  = if decide (id = k) then Some (quantity_at m id + q)%Z else m !! k.
Proof.
  unfold add_quantity, quantity_at.
  destruct (m !! id) as [n|] eqn:Hm; rewrite lookup_insert; simpl;
    destruct (decide (id = k)); reflexivity.
Qed.

Lemma drop_zero_lookup (id : Z) (m : gmap Z Z) (k : Z) :
  drop_zero id m !! k
  = if decide (id = k) then (if decide (m !! id = Some 0%Z) then None else m !! id)
    else m !! k.
Proof.
  unfold drop_zero. rewrite bool_decide_decide.
  destruct (decide (m !! id = Some 0%Z)) as [H0|H0]; destruct (decide (id = k)) as [->|Hk];
    simpl; try reflexivity.
  - apply lookup_delete_eq.
  - apply lookup_delete_ne. exact Hk.
Qed.

Lemma add_quantity_at (id q : Z) (m : gmap Z Z) :
  add_quantity id q m !! id = Some (quantity_at m id + q)%Z.
Proof. rewrite add_quantity_lookup. apply decide_True. reflexivity. Qed.

Lemma delta_zero_free (id q : Z) (m : gmap Z Z) :
  zero_free m -> zero_free (drop_zero id (add_quantity id q m)).
Proof.
  intros Hz k. rewrite drop_zero_lookup.
  destruct (decide (id = k)) as [->|Hk].
  - rewrite add_quantity_at.
    destruct (decide (Some (quantity_at m k + q)%Z = Some 0%Z)); congruence.
  - rewrite add_quantity_lookup, decide_False by exact Hk. apply Hz.
Qed.

Lemma delta_quantity_at (id q : Z) (m : gmap Z Z) (k : Z) :
  quantity_at (drop_zero id (add_quantity id q m)) k
  = (quantity_at m k + (if decide (id = k) then q else 0))%Z.
Proof.
  unfold quantity_at at 1. rewrite drop_zero_lookup.
  destruct (decide (id = k)) as [->|Hk].
  - rewrite add_quantity_at.
    destruct (decide (Some (quantity_at m k + q)%Z = Some 0%Z)) as [E|E]; simpl.
    + injection E as E. lia.
    + reflexivity.
  - rewrite add_quantity_lookup, decide_False by exact Hk.
    fold (quantity_at m k). lia.
Qed.

(** The quantity the handler adds is the signed delta of the frame. *)
Lemma signed_signed_delta (d : delta) :
  signed (d_adding d) (d_quantity d) = signed_delta d.
Proof. unfold signed, signed_delta. destruct (d_adding d); lia. Qed.

Lemma side_after_delta (me me' : bool) (id q : Z) (x : Trade.t) :
  side me' (after_delta me id q x)
  = if Bool.eqb me me' then drop_zero id (add_quantity id q (side me x)) else side me' x.
Proof. destruct me, me'; reflexivity. Qed.

(** The invariant of a run of item deltas: no zero entry on either side,
    and each entry is what was there plus the net of the frames. *)
Lemma item_deltas_run `{PlayerEq} (conn : conn_ref) (ds : list delta) :
  forall (c : Client.t) (tr : nat) (x : Trade.t),
    Client.trade c = Some tr ->
    Client.trade_store c !! tr = Some x ->
    zero_free (Trade.items_me x) -> zero_free (Trade.items_other x) ->
    exists x',
      Client.trade (handle_all conn (delta_frame <$> ds) c) = Some tr /\
      Client.trade_store (handle_all conn (delta_frame <$> ds) c) !! tr = Some x' /\
      zero_free (Trade.items_me x') /\ zero_free (Trade.items_other x') /\
      forall me id,
        quantity_at (side me x') id = (quantity_at (side me x) id + net me id ds)%Z.
Proof.
  induction ds as [|d ds IH]; intros c tr x Htr Hx Hme Hother.
  - exists x. simpl. repeat split; try assumption. intros; lia.
  - cbn [fmap list_fmap handle_all]. rewrite fst_catch.
    change (delta_frame d) with
      (item_frame (d_me d) (d_id d) (d_adding d) (d_quantity d)).
    rewrite handle_item_frame.
    destruct (trade_items_run (d_me d) (d_id d) (d_adding d) (d_quantity d) c tr x Htr Hx)
      as (ws & futs & ts & Hrun).
    rewrite Hrun. clear Hrun.
    set (x1 := after_delta (d_me d) (d_id d) (signed (d_adding d) (d_quantity d)) x).
    match goal with |- context [handle_all conn _ ?c1] => set (cc := c1) end.
    assert (Client.trade cc = Some tr) as Htr1 by exact Htr.
    assert (Client.trade_store cc !! tr = Some x1) as Hx1.
    { subst cc. cbn [Client.trade_store]. apply list_lookup_insert_eq.
      eapply lookup_lt_Some; eauto. }
    assert (zero_free (Trade.items_me x1)) as Hme1.
    { change (Trade.items_me x1) with (side true x1). subst x1.
      rewrite side_after_delta. destruct (Bool.eqb (d_me d) true) eqn:E.
      - apply delta_zero_free. destruct (d_me d); [exact Hme|discriminate].
      - exact Hme. }
    assert (zero_free (Trade.items_other x1)) as Hother1.
    { change (Trade.items_other x1) with (side false x1). subst x1.
      rewrite side_after_delta. destruct (Bool.eqb (d_me d) false) eqn:E.
      - apply delta_zero_free. destruct (d_me d); [discriminate|exact Hother].
      - exact Hother. }
    destruct (IH cc tr x1 Htr1 Hx1 Hme1 Hother1) as (x' & Ht & Hs & Hz1 & Hz2 & Hq).
    exists x'. repeat split; try assumption.
    intros me id. rewrite Hq. subst x1. rewrite side_after_delta, signed_signed_delta.
    cbn [net]. destruct (Bool.eqb (d_me d) me) eqn:E.
    + apply Bool.eqb_prop in E. subst me. rewrite delta_quantity_at.
      destruct (decide (d_id d = id)) as [->|Hne].
      * rewrite Z.eqb_refl. simpl. lia.
      * destruct (Z.eqb_spec (d_id d) id); [contradiction|]. simpl. lia.
    + simpl. lia.
Qed.

(** C3.  From a trade with nothing on the table, after any sequence of
    item-delta frames the mapping of each side holds, for every item id,
    the sum of the signed deltas received for it, and holds no entry for
    an id whose sum is zero. *)
Theorem item_mapping_is_net_sum `{PlayerEq} (conn : conn_ref) (ds : list delta)
    (c : Client.t) (tr : nat) (x : Trade.t) :
  Client.trade c = Some tr ->
  Client.trade_store c !! tr = Some x ->
  Trade.items_me x = ∅ -> Trade.items_other x = ∅ ->
  exists x',
    Client.trade_store (handle_all conn (delta_frame <$> ds) c) !! tr = Some x' /\
    forall me id,
      side me x' !! id = if (net me id ds =? 0)%Z then None else Some (net me id ds).
Proof.
  intros Htr Hx Hme Hother.
  destruct (item_deltas_run conn ds c tr x Htr Hx) as (x' & _ & Hs & Hz1 & Hz2 & Hq).
  { rewrite Hme. apply zero_free_empty. }
  { rewrite Hother. apply zero_free_empty. }
  exists x'. split; [exact Hs|]. intros me id.
  rewrite stored_quantity_at by (destruct me; assumption).
  rewrite Hq. unfold stored.
  replace (quantity_at (side me x) id) with 0%Z; [reflexivity|].
  unfold quantity_at. destruct me; simpl; [rewrite Hme|rewrite Hother];
    rewrite lookup_empty; reflexivity.
Qed.

(** C3 on the scenario of the spec, and a side that goes below zero:
    three of item 10 added on my side and taken back, two of item 4
    added by the other side and five of them taken away. *)
Lemma item_mapping_is_net_sum_witness :
  exists x',
    Client.trade_store
      (handle_all (H := by_name) CBulle
         (delta_frame <$> [mk_delta true 10 true 3; mk_delta false 4 true 2;
                           mk_delta true 10 false 3; mk_delta false 4 false 5])
         trading) !! 0 = Some x' /\
    forall me id,
      side me x' !! id
      = if (net me id [mk_delta true 10 true 3; mk_delta false 4 true 2;
                       mk_delta true 10 false 3; mk_delta false 4 false 5] =? 0)%Z
        then None
        else Some (net me id [mk_delta true 10 true 3; mk_delta false 4 true 2;
                              mk_delta true 10 false 3; mk_delta false 4 false 5]).
Proof.
  apply (item_mapping_is_net_sum (H := by_name) CBulle _ trading 0 agreed_trade);
    reflexivity.
Defined.

(** The mappings of that scenario: nothing on my side, minus three of
    item 4 on the other side. *)
Example item_mapping_scenario :
  Trade.items_me <$>
    Client.trade_store
      (handle_all (H := by_name) CBulle
         (delta_frame <$> [mk_delta true 10 true 3; mk_delta false 4 true 2;
                           mk_delta true 10 false 3; mk_delta false 4 false 5])
         trading) !! 0 = Some ∅ /\
  Trade.items_other <$>
    Client.trade_store
      (handle_all (H := by_name) CBulle
         (delta_frame <$> [mk_delta true 10 true 3; mk_delta false 4 true 2;
                           mk_delta true 10 false 3; mk_delta false 4 false 5])
         trading) !! 0 = Some {[ 4%Z := (-3)%Z ]} /\
  net false 4 [mk_delta true 10 true 3; mk_delta false 4 true 2;
               mk_delta true 10 false 3; mk_delta false 4 false 5] = (-3)%Z.
Proof. repeat split; vm_compute; reflexivity. Qed.

(** ** The handshake *)

(** The handshake branch up to its last statement: in the state [c1] the
    fingerprint is stored on the connection the frame came from, that
    connection has been handed the capability frame and then the
    platform frame, no other connection anything, and nothing has been
    dispatched yet; what remains is the dispatch of [login_ready]. *)
Lemma handshake_ok_run `{PlayerEq} (conn : conn_ref) (online fingerprint : Z)
    (community country : string) (authkey : Z) (c : Client.t) (x : Connection.t) :
  conn_at c conn = Some x ->
  Connection.open x = true ->
  exists c1,
    conn_at c1 conn
    = Some (Connection.mk (Connection.name x) true fingerprint
              (Connection.sent x ++
               [(capability_frame (Client.community c), false); (os_info, false)])) /\
    (forall other, other <> conn -> conn_at c1 other = conn_at c other) /\
    Client.dispatched c1 = Client.dispatched c /\
    handle_packet conn (handshake_frame online fingerprint community country authkey) c
    = Client.bind (dispatch "login_ready" [VInt online; VStr community; VStr country])
        (fun _ => Client.ret true) c1.
Proof.
  intros Hx Hopen.
  change (handle_packet conn (handshake_frame online fingerprint community country authkey))
    with (handshake_ok conn (handshake_frame online fingerprint community country authkey)).
  unfold handshake_ok, handshake_frame.
  destruct x as [nm op fp0 snt]. cbn in Hopen. subst op.
  destruct conn; cbn in Hx.
  - injection Hx as Hx.
    cbv [Client.bind Client.lift Packet.read32 Packet.read8 Packet.readUTF Packet.next
         Packet.body Packet.ccc the_conn put_conn conn_send Client.modify Client.get
         Connection.send Connection.set_fingerprint].
    cbn [Client.main Client.set_main]. rewrite Hx.
    cbn [Client.main Client.set_main Client.set_authkey Client.set_tasks Client.community
         Connection.open Connection.name Connection.sent Connection.fingerprint].
    eexists. split; [|split; [|split; [|reflexivity]]].
    + cbn. rewrite <- app_assoc. reflexivity.
    + intros [] Ho; [congruence|]. reflexivity.
    + reflexivity.
  - cbv [Client.bind Client.lift Packet.read32 Packet.read8 Packet.readUTF Packet.next
         Packet.body Packet.ccc the_conn put_conn conn_send Client.modify Client.get
         Connection.send Connection.set_fingerprint].
    rewrite Hx.
    cbn [Client.bulle Client.set_bulle Client.set_authkey Client.set_tasks Client.community
         Connection.open Connection.name Connection.sent Connection.fingerprint].
    eexists. split; [|split; [|split; [|reflexivity]]].
    + cbn. rewrite <- app_assoc. reflexivity.
    + intros [] Ho; [|congruence]. reflexivity.
    + reflexivity.
Qed.

Example capability_frame_fields (community : Z) :
  capability_frame community = Packet.mk (8, 2)%Z [Packet.F8 community; Packet.F8 0].
Proof. reflexivity. Qed.

Example os_info_fields :
  os_info
  = Packet.mk (28, 17)%Z
      [Packet.FUTF "en"; Packet.FUTF "Linux"; Packet.FUTF "LNX 29,0,0,140"; Packet.F8 0].
Proof. reflexivity. Qed.

(** C9.  On the handshake-acknowledged frame the fingerprint is stored
    on the connection the frame came from; that connection is handed
    two frames, not ciphered: first the capability frame, opcode (8, 2)
    with the community of the client and then the byte 0, then the
    platform frame, opcode (28, 17) with the texts [en], [Linux] and
    [LNX 29,0,0,140] and the byte 0; no other connection is handed any
    frame; after that [login_ready] is dispatched with the online count,
    the community and the country. *)
Theorem handshake_reply `{PlayerEq} (conn : conn_ref) (online fingerprint : Z)
    (community country : string) (authkey : Z) (c : Client.t) (x : Connection.t) :
  conn_at c conn = Some x ->
  Connection.open x = true ->
  let frame := handshake_frame online fingerprint community country authkey in
  let replied :=
    Connection.mk (Connection.name x) true fingerprint
      (Connection.sent x ++
       [(Packet.mk (8, 2)%Z [Packet.F8 (Client.community c); Packet.F8 0], false);
        (Packet.mk (28, 17)%Z
           [Packet.FUTF "en"; Packet.FUTF "Linux"; Packet.FUTF "LNX 29,0,0,140";
            Packet.F8 0], false)]) in
  let event := ("login_ready", [VInt online; VStr community; VStr country]) in
  exists c1,
    conn_at c1 conn = Some replied /\
    (forall other, other <> conn -> conn_at c1 other = conn_at c other) /\
    Client.dispatched c1 = Client.dispatched c /\
    fst (handle_packet conn frame c) = fst (dispatch (fst event) (snd event) c1) /\
    conn_at (fst (handle_packet conn frame c)) conn = Some replied /\
    (forall other, other <> conn ->
       conn_at (fst (handle_packet conn frame c)) other = conn_at c other) /\
    Client.dispatched (fst (handle_packet conn frame c)) = Client.dispatched c ++ [event].
Proof.
  intros Hx Hopen frame replied event. subst frame replied event.
  destruct (handshake_ok_run conn online fingerprint community country authkey c x Hx Hopen)
    as (c1 & Hconn & Hothers & Htrace & Hrun).
  rewrite capability_frame_fields, os_info_fields in Hconn.
  exists c1. split; [exact Hconn|]. split; [exact Hothers|]. split; [exact Htrace|].
  rewrite Hrun, fst_bind_ret. split; [reflexivity|].
  cbn [fst snd].
  destruct (dispatch_shape "login_ready" [VInt online; VStr community; VStr country] c1)
    as (ws & futs & ts & Hd).
  rewrite Hd. split; [|split].
  - rewrite <- Hconn. destruct conn; reflexivity.
  - intros other Ho. rewrite <- (Hothers other Ho). destruct other; reflexivity.
  - cbn [Client.dispatched]. rewrite Htrace. reflexivity.
Qed.

(** C9 on the scenario of the spec: 500 players online, fingerprint 7,
    community en, country be, on the main connection of a client of
    community 3 that has sent a frame before. *)
Lemma handshake_reply_witness :
  exists c1,
    conn_at c1 CMain
    = Some (Connection.mk "main" true 7
              [(Packet.new 28 1, false);
               (Packet.mk (8, 2)%Z [Packet.F8 3; Packet.F8 0], false);
               (Packet.mk (28, 17)%Z
                  [Packet.FUTF "en"; Packet.FUTF "Linux"; Packet.FUTF "LNX 29,0,0,140";
                   Packet.F8 0], false)]) /\
    (forall other, other <> CMain -> conn_at c1 other = conn_at connected other) /\
    Client.dispatched c1 = [] /\
    fst (handle_packet (H := by_name) CMain (handshake_frame 500 7 "en" "be" 99) connected)
    = fst (dispatch "login_ready" [VInt 500; VStr "en"; VStr "be"] c1) /\
    conn_at (fst (handle_packet (H := by_name) CMain
                    (handshake_frame 500 7 "en" "be" 99) connected)) CMain
    = Some (Connection.mk "main" true 7
              [(Packet.new 28 1, false);
               (Packet.mk (8, 2)%Z [Packet.F8 3; Packet.F8 0], false);
               (Packet.mk (28, 17)%Z
                  [Packet.FUTF "en"; Packet.FUTF "Linux"; Packet.FUTF "LNX 29,0,0,140";
                   Packet.F8 0], false)]) /\
    (forall other, other <> CMain ->
       conn_at (fst (handle_packet (H := by_name) CMain
                       (handshake_frame 500 7 "en" "be" 99) connected)) other
       = conn_at connected other) /\
    Client.dispatched (fst (handle_packet (H := by_name) CMain
                              (handshake_frame 500 7 "en" "be" 99) connected))
    = [("login_ready", [VInt 500; VStr "en"; VStr "be"])].
Proof.
  apply (handshake_reply (H := by_name) CMain 500 7 "en" "be" 99 connected
           (Connection.mk "main" true 0 [(Packet.new 28 1, false)]));
    reflexivity.
Defined.

(** ** The loop over the waiters *)

Lemma live_insert_ne (futs : list future) (k : nat) (f : future) (w : waiter) :
  w_fut w <> k -> live (<[k := f]> futs) w <-> live futs w.
Proof.
  intros Hne. unfold live. rewrite list_lookup_insert_ne by congruence. reflexivity.
Qed.








(** ** The start of a trade *)

Lemma room_get_player_pure `{PlayerEq} (r : Room.t nat)
    (kwargs : list (string * pyval)) (c : Client.t) :
  room_get_player r kwargs c = (c, snd (room_get_player r kwargs c)).
Proof. reflexivity. Qed.



(** The trade that starts is already the current one: the frame for
    Alice on [trading] closes her trade, which stays current. *)
Example trade_start_of_current_trade :
  Client.trade (fst (handle_packet (H := by_name) CBulle (start_frame 101) trading)) = Some 0 /\
  Client.trade_store (fst (handle_packet (H := by_name) CBulle (start_frame 101) trading))
  = [Trade.set_alive false agreed_trade] /\
  Client.dispatched (fst (handle_packet (H := by_name) CBulle (start_frame 101) trading))
  = [("trade_close", [VTrade 0]); ("trade_start", [VTrade 0])].
Proof. repeat split; vm_compute; reflexivity. Qed.


(** What the branch does there. *)
Lemma trade_start_without_trade :
  snd (handle_packet (H := by_name) CBulle (start_frame 102) trading) = Raise AttributeError /\
  fst (handle_packet (H := by_name) CBulle (start_frame 102) trading) = trading.
Proof. split; vm_compute; reflexivity. Qed.

(** ** Waiters in [dispatch] *)



(** *** The registry between two events *)













(** C2 at its failing input.  The waiter whose condition raises gets the
    exception and stays in the registry; the next dispatch of the event
    evaluates it again and fails on the future that is already done. *)
Theorem failed_waiter_stays_registered :
  snd (dispatch "ping" [] one_failing) = Ok tt /\
  Client.futures (fst (dispatch "ping" [] one_failing)) !! 0 = Some (Failed ValueError) /\
  Client._waiters (fst (dispatch "ping" [] one_failing)) !! "on_ping"
  = Some [mk_waiter failing 0 false] /\
  snd (dispatch "ping" [] (fst (dispatch "ping" [] one_failing))) = Raise InvalidStateError.
Proof. repeat split; vm_compute; reflexivity. Qed.

(** The same through the early return: a waiter that was resolved before
    a stopping waiter matched is left in the registry. *)
Lemma early_return_keeps_resolved_waiter :
  Client.futures (fst (dispatch "ping" [] plain_then_stopper)) !! 0 = Some (Result VNone) /\
  Client.futures (fst (dispatch "ping" [] plain_then_stopper)) !! 1 = Some (Result VNone) /\
  Client._waiters (fst (dispatch "ping" [] plain_then_stopper)) !! "on_ping"
  = Some [mk_waiter always 0 false] /\
  snd (dispatch "ping" [] (fst (dispatch "ping" [] plain_then_stopper)))
  = Raise InvalidStateError.
Proof. repeat split; vm_compute; reflexivity. Qed.

(** ** Players that leave *)

(** C5 at its failing input.  Alice, who holds the current trade, is
    removed by the old-protocol frame: the handler takes her out of the
    roster and then raises at [player[1]]; the trade is not closed and no
    [trade_close] is dispatched. *)
Theorem old_remove_player_raises :
  snd (handle_packet (H := by_name) CBulle remove_alice trading) = Raise TypeError /\
  Room.players <$> Client.room (fst (handle_packet (H := by_name) CBulle remove_alice trading))
  = Some [1] /\
  Client.trade (fst (handle_packet (H := by_name) CBulle remove_alice trading)) = Some 0 /\
  Client.trade_store (fst (handle_packet (H := by_name) CBulle remove_alice trading))
  = [agreed_trade] /\
  Client.dispatched (fst (handle_packet (H := by_name) CBulle remove_alice trading))
  = [("old_packet", [VConn CBulle; VTuple [VInt 8; VInt 7]; VList [VBytes "101"]])].
Proof. repeat split; vm_compute; reflexivity. Qed.

(** The roster frame on the same state: Alice is gone, her trade is
    closed and one [trade_close] is dispatched for it. *)
Lemma roster_replacement_closes_trade :
  snd (handle_packet (H := by_name) CBulle roster_of_bob trading) = Ok true /\
  Client.trade (fst (handle_packet (H := by_name) CBulle roster_of_bob trading)) = None /\
  Client.trade_store (fst (handle_packet (H := by_name) CBulle roster_of_bob trading))
  = [Trade.set_alive false agreed_trade] /\
  Client.dispatched (fst (handle_packet (H := by_name) CBulle roster_of_bob trading))
  = [("trade_close", [VTrade 0]);
     ("bulk_player_update", [VList [VPlayer 0; VPlayer 1]; VList [VPlayer 2]])].
Proof. repeat split; vm_compute; reflexivity. Qed.

(** ** Trade errors *)

(** C7 at its failing input.  The trade-error frame with the empty name
    arrives while the trade with Alice is current: the branch compares
    the name of the counterparty with the empty name, and does nothing. *)
Theorem own_trade_error_ignored (error : Z) :
  handle_packet (H := by_name) CBulle (own_trade_error error) trading = (trading, Ok true).
Proof. reflexivity. Qed.

(** The frame that names Alice closes the trade and dispatches the
    error, with its code, and the close. *)
Lemma named_trade_error_closes :
  snd (handle_packet (H := by_name) CBulle (named_trade_error "Alice" 3) trading) = Ok true /\
  Client.trade_store
    (fst (handle_packet (H := by_name) CBulle (named_trade_error "Alice" 3) trading))
  = [Trade.set_alive false agreed_trade] /\
  Client.dispatched
    (fst (handle_packet (H := by_name) CBulle (named_trade_error "Alice" 3) trading))
  = [("trade_error", [VTrade 0; VInt 3]); ("trade_close", [VTrade 0])].
Proof. repeat split; vm_compute; reflexivity. Qed.

(** ** The login result *)

(** C8.  [on_login_result] first schedules the close of the client five
    seconds later and then raises the failure the code stands for:
    already connected for 1, incorrect password for 2, and the login
    error that carries the code for any other. *)
Theorem on_login_result_raises (c : Client.t) (code : Z) (args : list pyval) :
  on_login_result code args c
  = (Client.set_timers (Client.timers c ++ [(5%Z, Close)]) c,
     Raise (login_taxonomy code)).
Proof.
  unfold on_login_result, Client.bind, Client.modify, Client.raise, login_taxonomy.
  destruct (Z.eqb_spec code 1) as [->|H1]; [reflexivity|].
  destruct (Z.eqb_spec code 2) as [->|H2]; [reflexivity|].
  destruct code as [|[p|p|]|p]; try reflexivity; try congruence.
  destruct p; try reflexivity; congruence.
Qed.

(** The login-result frame hands [on_login_result] to the event loop
    with the code first, when the attribute is the method of the class
    and no waiter is registered for the event. *)
Lemma login_result_scheduled `{PlayerEq} (conn : conn_ref) (code : Z) (key args : string)
    (c : Client.t) :
  Client.coros c !! "on_login_result" = Some OnLoginResult ->
  Client._waiters c !! "on_login_result" = None ->
  handle_packet conn (login_result_frame code key args) c
  = (Client.set_tasks
       (Client.tasks c ++
        [RunEvent OnLoginResult "on_login_result" [VInt code; VStr key; VStr args]])
       (Client.set_dispatched
          (Client.dispatched c ++ [("login_result", [VInt code; VStr key; VStr args])]) c),
     Ok true).
Proof.
  intros Hcoro Hnone.
  change (handle_packet conn (login_result_frame code key args))
    with (login_result (login_result_frame code key args)).
  unfold login_result, login_result_frame.
  cbv [Client.bind Client.lift Packet.read8 Packet.readUTF Packet.next Packet.body
       Packet.ccc dispatch fire].
  cbn [Client._waiters Client.set_dispatched Client.coros].
  change ("on_" +:+ "login_result") with "on_login_result".
  rewrite Hnone, Hcoro. reflexivity.
Qed.

(** * More of the code *)

(** ** The name of a room *)

Example community_of_public_room :
  RoomName.community (Room.mk (P := nat) "en-village-2" false []) = Ok "en".
Proof. reflexivity. Qed.

Example display_name_of_public_room :
  RoomName.display_name (Room.mk (P := nat) "en-village-2" false []) = Ok "village-2".
Proof. reflexivity. Qed.

Example display_name_of_tribe_house :
  RoomName.display_name
    (Room.mk (P := nat) (String "*" (String "003" "Les Souris")) true [])
  = Ok "*Les Souris".
Proof. reflexivity. Qed.

Lemma split_once_cases (sep : ascii) (s : string) :
  (occurs sep s = false /\ RoomName.split_once sep s = [s]) \/
  (exists before after,
     RoomName.split_once sep s = [before; after] /\
     s = before +:+ String sep after /\ occurs sep before = false).
Proof.
  induction s as [|a r IH]; [left; split; reflexivity|].
  cbn [RoomName.split_once occurs]. destruct (Ascii.eqb_spec a sep) as [->|Hne].
  - right. exists EmptyString, r. repeat split; reflexivity.
  - destruct IH as [[Hno ->]|(before & after & -> & -> & Hno)].
    + left. split; [exact Hno|reflexivity].
    + right. exists (String a before), after. split; [reflexivity|].
      split; [reflexivity|]. cbn [occurs].
      destruct (Ascii.eqb_spec a sep); [contradiction|exact Hno].
Qed.

Lemma occurs_append (c : ascii) (s t : string) :
  occurs c (s +:+ t) = occurs c s || occurs c t.
Proof.
  induction s as [|a r IH]; [reflexivity|].
  change (String a r +:+ t) with (String a (r +:+ t)). cbn [occurs].
  rewrite IH. apply orb_assoc.
Qed.

(** The name of a room outside the ones that start with a star: the
    display name exists exactly when the name has a dash; the community
    is the text before the first dash (it has none itself) and the
    community, a dash and the display name give the name back.  Without
    a dash [display_name] raises [IndexError] and the community is the
    whole name. *)
Theorem public_room_name_splits {P : Type} (self : Room.t P) :
  String.prefix "*" (Room.name self) = false ->
  if occurs "-" (Room.name self) then
    exists community display,
      RoomName.community self = Ok community /\
      RoomName.display_name self = Ok display /\
      Room.name self = community +:+ "-" +:+ display /\
      occurs "-" community = false
  else
    RoomName.community self = Ok (Room.name self) /\
    RoomName.display_name self = Raise IndexError.
Proof.
  intros Hstar. unfold RoomName.community, RoomName.display_name, RoomName.is_tribe.
  assert (String.prefix (String "*" (String "003" "")) (Room.name self) = false) as ->.
  { destruct (Room.name self) as [|a r]; [reflexivity|].
    cbn [String.prefix] in *. destruct (ascii_dec "*" a); [|reflexivity].
    destruct r; discriminate Hstar. }
  rewrite Hstar.
  destruct (split_once_cases "-" (Room.name self))
    as [[Hno ->]|(before & after & -> & Hname & Hno)].
  - rewrite Hno. split; reflexivity.
  - assert (occurs "-" (Room.name self) = true) as ->.
    { rewrite Hname, occurs_append. cbn [occurs].
      rewrite Ascii.eqb_refl. apply orb_true_r. }
    exists before, after. repeat split; try reflexivity; assumption.
Qed.

Lemma public_room_name_splits_witness :
  exists community display,
    RoomName.community (Room.mk (P := nat) "en-village-2" false []) = Ok community /\
    RoomName.display_name (Room.mk (P := nat) "en-village-2" false []) = Ok display /\
    "en-village-2" = community +:+ "-" +:+ display /\
    occurs "-" community = false.
Proof.
  apply (public_room_name_splits (Room.mk (P := nat) "en-village-2" false []) eq_refl).
Defined.




Lemma without_gone (c : ascii) (s : string) : occurs c (RoomName.without c s) = false.
Proof.
  induction s as [|a r IH]; [reflexivity|]. cbn [RoomName.without].
  destruct (Ascii.eqb a c) eqn:E; [exact IH|]. cbn [occurs]. rewrite E. exact IH.
Qed.

(** The name of a tribe house (a star, the character 3, the name of the
    tribe): the community is [xx], and the display name is there, starts
    with the star and has no character 3 left. *)
Theorem tribe_house_name {P : Type} (self : Room.t P) :
  RoomName.is_tribe self = true ->
  RoomName.community self = Ok "xx" /\
  exists display,
    RoomName.display_name self = Ok display /\
    String.prefix "*" display = true /\
    occurs "003" display = false.
Proof.
  unfold RoomName.is_tribe, RoomName.community, RoomName.display_name, RoomName.is_tribe.
  intros Htribe. rewrite Htribe.
  destruct (Room.name self) as [|a s]; [discriminate Htribe|].
  cbn [String.prefix] in Htribe.
  destruct (ascii_dec "*" a) as [<-|]; [|discriminate Htribe].
  destruct s as [|b r]; [discriminate Htribe|].
  cbn [String.prefix] in Htribe.
  destruct (ascii_dec "003" b) as [<-|]; [|discriminate Htribe].
  split; [reflexivity|]. eexists. split; [reflexivity|].
  split; [|apply without_gone].
  cbn. destruct (RoomName.without "003" r); reflexivity.
Qed.

Lemma tribe_house_name_witness :
  RoomName.community (Room.mk (P := nat) (String "*" (String "003" "Les Souris")) true [])
  = Ok "xx" /\
  exists display,
    RoomName.display_name
      (Room.mk (P := nat) (String "*" (String "003" "Les Souris")) true [])
    = Ok display /\
    String.prefix "*" display = true /\
    occurs "003" display = false.
Proof.
  apply (tribe_house_name
           (Room.mk (P := nat) (String "*" (String "003" "Les Souris")) true []) eq_refl).
Defined.

(** ** [get_players] *)

Lemma filter_sublist {A} (f : A -> bool) (l : list A) : sublist (List.filter f l) l.
Proof.
  induction l as [|a l IH]; [constructor|]. simpl.
  destruct (f a); [apply sublist_skip|apply sublist_cons]; exact IH.
Qed.

Lemma slice_to_sublist {P : Type} (max : option Z) (l : list P) :
  sublist (Room.slice_to max l) l.
Proof.
  unfold Room.slice_to. destruct max as [n|]; [|reflexivity].
  destruct (0 <=? n)%Z; apply sublist_take.
Qed.

(** [get_players] with a predicate that answers for every player: the
    room is unchanged and the result is a selection of the roster in
    roster order, made of players that satisfy the predicate; with a
    maximum that is not negative it has at most that many players, the
    first ones that match, and without a maximum it has them all. *)
Theorem get_players_selects {P : Type} (f : P -> bool) (max : option Z) (self : Room.t P) :
  fst (Room.get_players (fun p => Ok (f p)) max self) = self /\
  exists result,
    snd (Room.get_players (fun p => Ok (f p)) max self) = Ok result /\
    sublist result (Room.players self) /\
    Forall (fun p => f p = true) result /\
    prefix result (List.filter f (Room.players self)) /\
    (forall n, max = Some n -> (0 <= n)%Z ->
       length result = Nat.min (Z.to_nat n) (length (List.filter f (Room.players self)))) /\
    (max = None -> result = List.filter f (Room.players self)).
Proof.
  split; [reflexivity|].
  unfold Room.get_players. rewrite comprehension_total. cbn [snd outcome_map outcome_bind].
  eexists. split; [reflexivity|].
  assert (prefix (Room.slice_to max (List.filter f (Room.players self)))
            (List.filter f (Room.players self))) as Hpre.
  { unfold Room.slice_to. destruct max as [n|]; [|reflexivity].
    destruct (0 <=? n)%Z; apply prefix_take. }
  split; [|split; [|split; [exact Hpre|split]]].
  - etransitivity; [apply slice_to_sublist|apply filter_sublist].
  - apply Forall_forall. intros p Hp.
    assert (p ∈ List.filter f (Room.players self)) as Hin.
    { eapply elem_of_sublist; [exact Hp|]. apply slice_to_sublist. }
    apply list_elem_of_In, List.filter_In in Hin. tauto.
  - intros n -> Hn. unfold Room.slice_to.
    destruct (Z.leb_spec 0 n); [|lia]. apply length_take.
  - intros ->. reflexivity.
Qed.

(** A predicate that raises on a player makes [get_players] raise, also
    when enough players before it match for the maximum: the list is
    built over the whole roster before it is cut. *)
Theorem get_players_raises {P : Type} (predicate : P -> outcome bool) (max : option Z)
    (self : Room.t P) (before after : list P) (p : P) (e : exn) :
  Room.players self = before ++ p :: after ->
  Forall (fun q => exists b, predicate q = Ok b) before ->
  predicate p = Raise e ->
  Room.get_players predicate max self = (self, Raise e).
Proof.
  intros Hplayers Hbefore Hp. unfold Room.get_players. rewrite Hplayers. f_equal.
  assert (Room.comprehension predicate (before ++ p :: after) = Raise e) as ->;
    [|reflexivity].
  clear Hplayers. induction Hbefore as [|q before [b Hq] _ IH].
  - cbn [app Room.comprehension]. rewrite Hp. reflexivity.
  - cbn [app Room.comprehension]. rewrite Hq, IH. reflexivity.
Qed.

Lemma get_players_raises_witness :
  Room.get_players
    (fun p => if String.eqb (Player.username p) "Bob" then Raise ValueError else Ok true)
    (Some 1%Z) lobby
  = (lobby, Raise ValueError).
Proof.
  apply (get_players_raises _ (Some 1%Z) lobby [alice] [carol] bob ValueError).
  - reflexivity.
  - constructor; [exists true; reflexivity|constructor].
  - reflexivity.
Defined.

(** ** The registry between two events *)


Lemma lower_ascii_idem (a : ascii) : Text.lower_ascii (Text.lower_ascii a) = Text.lower_ascii a.
Proof.
  destruct a as [[] [] [] [] [] [] [] []]; reflexivity.
Qed.

Lemma lower_idem (s : string) : Text.lower (Text.lower s) = Text.lower s.
Proof.
  induction s as [|a r IH]; [reflexivity|]. cbn [Text.lower].
  rewrite lower_ascii_idem, IH. reflexivity.
Qed.

Lemma bus_run_lower_keys (ops : list bus_op) :
  forall c, lower_keys c -> lower_keys (bus_run ops c).
Proof.
  induction ops as [|op ops IH]; intros c Hc; [exact Hc|].
  cbn [bus_run foldl]. apply IH. destruct op as [name condition stop|fut]; cbn [bus_step].
  - intros method. unfold wait_for.
    cbn [fst Client._waiters Client.set__waiters Client.set_futures].
    destruct (decide (Text.lower name = method)) as [<-|Hne].
    + intros _. apply lower_idem.
    + rewrite lookup_insert_ne by exact Hne. apply Hc.
  - intros method. unfold cancel.
    destruct (Client.futures c !! fut) as [[| | |]|]; apply Hc.
Qed.

(** [wait_for] files a waiter under the lower-cased name and [dispatch]
    looks the name up as it is given: the dispatch of an event with a
    capital letter in its name reaches no waiter, whatever was
    registered; all futures and the registry stay as they were. *)
Theorem capital_event_reaches_no_waiter (ops : list bus_op) (community : Z)
    (event : string) (args : list pyval) :
  Text.lower ("on_" +:+ event) <> "on_" +:+ event ->
  let c := bus_run ops (Client.init community) in
  Client.futures (fst (dispatch event args c)) = Client.futures c /\
  Client._waiters (fst (dispatch event args c)) = Client._waiters c.
Proof.
  intros Hcap c.
  assert (Client._waiters c !! ("on_" +:+ event) = None) as Hnone.
  { destruct (Client._waiters c !! ("on_" +:+ event)) eqn:E; [|reflexivity].
    exfalso. apply Hcap. apply (bus_run_lower_keys ops (Client.init community)).
    - intros method [ws Hws]. cbn in Hws. rewrite lookup_empty in Hws. discriminate.
    - fold c. rewrite E. eexists; reflexivity. }
  unfold dispatch, fire.
  cbn [Client._waiters Client.set_dispatched Client.futures Client.coros]. rewrite Hnone.
  destruct (Client.coros c !! ("on_" +:+ event)); split; reflexivity.
Qed.

Lemma capital_event_reaches_no_waiter_witness :
  Client.futures
    (fst (dispatch "Ping" [] (bus_run [Register "on_Ping" None false] (Client.init 0))))
  = Client.futures (bus_run [Register "on_Ping" None false] (Client.init 0)) /\
  Client._waiters
    (fst (dispatch "Ping" [] (bus_run [Register "on_Ping" None false] (Client.init 0))))
  = Client._waiters (bus_run [Register "on_Ping" None false] (Client.init 0)).
Proof.
  apply (capital_event_reaches_no_waiter [Register "on_Ping" None false] 0 "Ping" []).
  discriminate.
Defined.

(** ** A dispatch that runs its loop to the end *)

Lemma marked_ext (f g : waiter -> bool) (ws : list waiter) :
  Forall (fun w => f w = g w) ws -> forall i, marked f i ws = marked g i ws.
Proof.
  induction 1 as [|w ws Hw _ IH]; intros i; [reflexivity|].
  cbn [marked]. rewrite Hw, IH. reflexivity.
Qed.

Lemma marked_shift (f : waiter -> bool) (ws : list waiter) :
  forall i, marked f (S i) ws = S <$> marked f i ws.
Proof.
  induction ws as [|w ws IH]; intros i; [reflexivity|].
  cbn [marked]. rewrite fmap_app, IH. destruct (f w); reflexivity.
Qed.

Lemma marked_length (f : waiter -> bool) (ws : list waiter) :
  forall i,
    (length (marked f i ws) + length (List.filter (fun w => negb (f w)) ws)
     = length ws)%nat.
Proof.
  induction ws as [|w ws IH]; intros i; [reflexivity|].
  cbn [marked List.filter]. rewrite length_app. specialize (IH (S i)).
  destruct (f w); cbn [negb length]; lia.
Qed.

Lemma delete_shifted (w : waiter) (l : list nat) :
  forall ws, foldl (fun ws i => delete i ws) (w :: ws) (S <$> l)
             = w :: foldl (fun ws i => delete i ws) ws l.
Proof.
  induction l as [|k l IH]; intros ws; [reflexivity|].
  cbn [fmap list_fmap foldl]. apply IH.
Qed.

Lemma fmap_rev {A B} (f : A -> B) (l : list A) : f <$> rev l = rev (f <$> l).
Proof.
  induction l as [|a l IH]; [reflexivity|].
  cbn [rev fmap list_fmap]. rewrite fmap_app, IH. reflexivity.
Qed.

Lemma drop_marked (f : waiter -> bool) (ws : list waiter) :
  drop_indices (marked f 0 ws) ws = List.filter (fun w => negb (f w)) ws.
Proof.
  induction ws as [|w ws IH]; [reflexivity|].
  unfold drop_indices in *. cbn [marked List.filter].
  rewrite marked_shift, rev_app_distr, foldl_app.
  rewrite <- (fmap_rev S).
  rewrite delete_shifted, IH.
  destruct (f w); reflexivity.
Qed.

Lemma matches_insert_ne (futs : list future) (k : nat) (f : future) (args : list pyval) (w : waiter) :
  w_fut w <> k -> matches (<[k := f]> futs) args w = matches futs args w.
Proof. intros Hne. unfold matches. rewrite list_lookup_insert_ne by congruence. reflexivity. Qed.

Lemma leaves_insert_ne (futs : list future) (k : nat) (f : future) (args : list pyval) (w : waiter) :
  w_fut w <> k -> leaves (<[k := f]> futs) args w = leaves futs args w.
Proof.
  intros Hne. unfold leaves. rewrite matches_insert_ne by exact Hne.
  rewrite list_lookup_insert_ne by congruence. reflexivity.
Qed.

Lemma Forall_fresh (Q : waiter -> Prop) (k : nat) (ws : list waiter) :
  k ∉ w_fut <$> ws -> (forall w, w_fut w <> k -> Q w) -> Forall Q ws.
Proof.
  intros Hk HQ. apply Forall_forall. intros w Hw. apply HQ. intros E. apply Hk.
  rewrite <- E. apply list_elem_of_fmap. exists w. split; [reflexivity|exact Hw].
Qed.

Lemma Forall_and_intro {A} {Q R : A -> Prop} {l : list A} :
  Forall Q l -> Forall R l -> Forall (fun x => Q x /\ R x) l.
Proof. intros HQ HR. apply Forall_and. split; assumption. Qed.

Lemma scan_normal (args : list pyval) (ws : list waiter) :
  forall (i : nat) (rm : list nat) (futs : list future),
    sound futs ws ->
    Forall (quiet futs args) ws ->
    Forall (fun w => ~ stops futs args w) ws ->
    exists futs',
      scan args ws i rm futs = (futs', Finished (rm ++ marked (leaves futs args) i ws)) /\
      Forall (fun w => futs' !! w_fut w
                       = if matches futs args w then Some (Result (payload args))
                         else futs !! w_fut w) ws /\
      forall k, k ∉ w_fut <$> ws -> futs' !! k = futs !! k.
Proof.
  induction ws as [|w ws IH]; intros i rm futs [Hlive Hnd] Hquiet Hns.
  - exists futs. cbn [scan marked]. rewrite app_nil_r.
    split; [reflexivity|]. split; [constructor|reflexivity].
  - inversion Hlive as [|? ? Hw Hlive']; subst.
    inversion Hquiet as [|? ? Hqw Hquiet']; subst.
    inversion Hns as [|? ? Hnw Hns']; subst.
    cbn [fmap list_fmap] in Hnd. apply NoDup_cons in Hnd as [Hfresh Hnd'].
    (* the step that leaves the futures alone *)
    assert (forall b : bool,
              leaves futs args w = b -> matches futs args w = false ->
              scan args (w :: ws) i rm futs
              = scan args ws (S i) (rm ++ (if b then [i] else [])) futs ->
              exists futs',
                scan args (w :: ws) i rm futs
                = (futs', Finished (rm ++ marked (leaves futs args) i (w :: ws))) /\
                Forall (fun w => futs' !! w_fut w
                                 = if matches futs args w then Some (Result (payload args))
                                   else futs !! w_fut w) (w :: ws) /\
                forall k, k ∉ w_fut <$> (w :: ws) -> futs' !! k = futs !! k) as Hskip.
    { intros b Hb Hm Hstep.
      destruct (IH (S i) (rm ++ (if b then [i] else [])) futs) as (futs' & Hs & Hres & Hk);
        [split; assumption|assumption|assumption|].
      exists futs'. rewrite Hstep, Hs. cbn [marked]. rewrite Hb, app_assoc.
      split; [reflexivity|]. split.
      - constructor; [|exact Hres]. rewrite Hm. apply Hk, Hfresh.
      - intros k Hk'. cbn [fmap list_fmap] in Hk'.
        apply not_elem_of_cons in Hk' as [_ Hk']. apply Hk, Hk'. }
    destruct Hw as [Hp|Hc].
    + destruct (w_cond w args) as [[|]|e] eqn:Hcond.
      * (* resolved *)
        destruct (w_stop w) eqn:Hstop.
        { exfalso. apply Hnw. repeat split; assumption. }
        set (futs1 := <[w_fut w := Result (payload args)]> futs).
        assert (Forall (fun v => w_fut v <> w_fut w) ws) as Hothers.
        { apply (Forall_fresh _ (w_fut w)); [exact Hfresh|]. auto. }
        destruct (IH (S i) (rm ++ [i]) futs1) as (futs' & Hs & Hres & Hk).
        { split; [|exact Hnd'].
          eapply Forall_impl; [exact (Forall_and_intro Hothers Hlive')|].
          intros v [Hv Hl]. apply live_insert_ne; assumption. }
        { eapply Forall_impl; [exact (Forall_and_intro Hothers Hquiet')|].
          intros v [Hv Hq]. unfold quiet, futs1.
          rewrite list_lookup_insert_ne by congruence. exact Hq. }
        { eapply Forall_impl; [exact (Forall_and_intro Hothers Hns')|].
          intros v [Hv Hn]. unfold stops, futs1.
          rewrite list_lookup_insert_ne by congruence. exact Hn. }
        exists futs'. cbn [scan marked]. rewrite Hp, Hcond. cbn [set_result].
        rewrite Hstop. fold futs1. rewrite Hs.
        assert (leaves futs args w = true) as ->
          by (unfold leaves, matches; rewrite Hp, Hcond; reflexivity).
        rewrite (marked_ext (leaves futs1 args) (leaves futs args)).
        2:{ eapply Forall_impl; [exact Hothers|]. intros v Hv.
            apply leaves_insert_ne. exact Hv. }
        rewrite <- app_assoc. split; [reflexivity|]. split.
        -- constructor.
           ++ unfold matches at 1. rewrite Hp, Hcond.
              rewrite (Hk _ Hfresh). apply list_lookup_insert_eq.
              eapply lookup_lt_Some; exact Hp.
           ++ eapply Forall_impl;
                [exact (Forall_and_intro Hothers Hres)|].
              intros v [Hv Hr]. rewrite Hr. unfold futs1.
              rewrite matches_insert_ne by exact Hv.
              rewrite list_lookup_insert_ne by congruence. reflexivity.
        -- intros k Hk'. cbn [fmap list_fmap] in Hk'.
           apply not_elem_of_cons in Hk' as [Hne Hk'].
           rewrite (Hk k Hk'). apply list_lookup_insert_ne. congruence.
      * apply (Hskip false); try reflexivity.
        -- unfold leaves, matches. rewrite Hp, Hcond. reflexivity.
        -- unfold matches. rewrite Hp, Hcond. reflexivity.
        -- cbn [scan]. rewrite Hp, Hcond. rewrite app_nil_r. reflexivity.
      * exfalso. exact (Hqw Hp e Hcond).
    + apply (Hskip true); try reflexivity.
      * unfold leaves. rewrite Hc. reflexivity.
      * unfold matches. rewrite Hc. reflexivity.
      * cbn [scan]. rewrite Hc. reflexivity.
Qed.

(** A dispatch whose loop runs to its end: the waiters of the event are
    sound, no condition raises and no waiter that matches stops the
    propagation.  The call returns; the cancelled waiters and the
    resolved ones are gone from the registry and the others stay in
    their order (the name itself goes when none stays); the resolved
    ones hold the payload and no other future changes; what stays is
    sound again; and the persistent handler, when there is one, is
    handed to the event loop once. *)
Theorem dispatch_completed_loop (event : string) (args : list pyval) (c : Client.t)
    (ws : list waiter) :
  Client._waiters c !! ("on_" +:+ event) = Some ws ->
  sound (Client.futures c) ws ->
  Forall (quiet (Client.futures c) args) ws ->
  Forall (fun w => ~ stops (Client.futures c) args w) ws ->
  let c' := fst (dispatch event args c) in
  let remaining := List.filter (fun w => negb (leaves (Client.futures c) args w)) ws in
  snd (dispatch event args c) = Ok tt /\
  Client._waiters c'
  = (if decide (remaining = []) then delete ("on_" +:+ event) (Client._waiters c)
     else <["on_" +:+ event := remaining]> (Client._waiters c)) /\
  Forall (fun w => Client.futures c' !! w_fut w
                   = if matches (Client.futures c) args w
                     then Some (Result (payload args))
                     else Client.futures c !! w_fut w) ws /\
  (forall k, k ∉ w_fut <$> ws -> Client.futures c' !! k = Client.futures c !! k) /\
  sound (Client.futures c') remaining /\
  Client.tasks c'
  = Client.tasks c ++
    match Client.coros c !! ("on_" +:+ event) with
    | Some coro => [RunEvent coro ("on_" +:+ event) args]
    | None => []
    end.
Proof.
  intros Hws Hsound Hquiet Hns c' remaining.
  destruct (scan_normal args ws 0 [] (Client.futures c) Hsound Hquiet Hns)
    as (futs' & Hscan & Hres & Hkeep).
  cbn [app] in Hscan.
  assert (sound futs' remaining) as Hsound'.
  { destruct Hsound as [Hlive Hnd]. split.
    - apply Forall_forall. intros w Hw. subst remaining.
      apply list_elem_of_In, List.filter_In in Hw as [Hin Hstay].
      apply list_elem_of_In in Hin.
      rewrite Forall_forall in Hres, Hlive. specialize (Hres w Hin).
      specialize (Hlive w Hin). unfold live. rewrite Hres.
      unfold leaves in Hstay. destruct Hlive as [Hp|Hc].
      + rewrite Hp in Hstay. destruct (matches (Client.futures c) args w); [discriminate|].
        left. exact Hp.
      + rewrite Hc in Hstay. discriminate.
    - assert (sublist (w_fut <$> remaining) (w_fut <$> ws)) as Hsub
        by (apply fmap_sublist; subst remaining; apply filter_sublist).
      exact (sublist_NoDup _ _ Hnd Hsub). }
  subst c'. unfold dispatch, fire.
  cbn [Client._waiters Client.set_dispatched Client.futures Client.coros].
  rewrite Hws, Hscan.
  pose proof (marked_length (leaves (Client.futures c) args) ws 0) as Hlen.
  rewrite (drop_marked (leaves (Client.futures c) args) ws).
  fold remaining in Hlen |- *.
  destruct (decide (remaining = [])) as [Hnil|Hsome].
  - assert ((length (marked (leaves (Client.futures c) args) 0 ws) =? length ws)%nat = true)
      as -> by (apply Nat.eqb_eq; subst remaining; rewrite Hnil in Hlen; cbn in Hlen; lia).
    client_fields.
    destruct (Client.coros c !! ("on_" +:+ event)); client_fields;
      (split; [reflexivity|]; split; [reflexivity|]; split; [exact Hres|];
       split; [exact Hkeep|]; split; [exact Hsound'|]);
      [reflexivity|symmetry; apply app_nil_r].
  - assert ((length (marked (leaves (Client.futures c) args) 0 ws) =? length ws)%nat = false)
      as ->.
    { apply Nat.eqb_neq. destruct remaining; [congruence|]. cbn in Hlen. lia. }
    client_fields.
    destruct (Client.coros c !! ("on_" +:+ event)); client_fields;
      (split; [reflexivity|]; split; [reflexivity|]; split; [exact Hres|];
       split; [exact Hkeep|]; split; [exact Hsound'|]);
      [reflexivity|symmetry; apply app_nil_r].
Qed.

Lemma dispatch_completed_loop_witness :
  snd (dispatch "ping" [] mixed_waiters) = Ok tt /\
  Client._waiters (fst (dispatch "ping" [] mixed_waiters)) !! "on_ping"
  = Some [mk_waiter never 1 false] /\
  Client.futures (fst (dispatch "ping" [] mixed_waiters))
  = [Result VNone; Pending; Cancelled].
Proof.
  destruct (dispatch_completed_loop "ping" [] mixed_waiters
              [mk_waiter always 0 false; mk_waiter never 1 false; mk_waiter always 2 true])
    as (Hok & Hreg & _).
  - reflexivity.
  - split.
    + repeat constructor; (left; reflexivity) || (right; reflexivity).
    + apply (bool_decide_unpack _). vm_compute. exact I.
  - repeat constructor; intros _ e; discriminate.
  - repeat constructor; intros (Hp & Hc & Hs); discriminate.
  - split; [exact Hok|]. split; [|vm_compute; reflexivity].
    rewrite Hreg. vm_compute. reflexivity.
Defined.

(** ** Handlers: [event], [dispatch] and [_run_event] *)

Example event_without_prefix :
  event (mk_function "ping" true (UserCoro 0)) (Client.init 0)
  = InvalidEvent "'ping' isn't a correct event naming.".
Proof. reflexivity. Qed.

Example event_not_a_coroutine :
  event (mk_function "on_ping" false (UserCoro 0)) (Client.init 0)
  = InvalidEvent "Couldn't register a non-coroutine function for the event on_ping.".
Proof. reflexivity. Qed.

(** A coroutine function named [on_] and the name of an event is
    accepted by [event], and the next dispatch of that event hands this
    coroutine, with the arguments of the event, to the event loop: one
    task, for the coroutine registered last (a handler that was bound
    to the name before is not run). *)
Theorem registered_handler_is_scheduled (f : function) (name : string)
    (args : list pyval) (c : Client.t) :
  fn_name f = "on_" +:+ name ->
  fn_async f = true ->
  Client._waiters c !! ("on_" +:+ name) = None ->
  exists c1,
    event f c = Registered c1 /\
    Client.coros c1 !! ("on_" +:+ name) = Some (fn_body f) /\
    dispatch name args c1
    = (Client.set_tasks (Client.tasks c ++ [RunEvent (fn_body f) ("on_" +:+ name) args])
         (Client.set_dispatched (Client.dispatched c ++ [(name, args)]) c1),
       Ok tt).
Proof.
  intros Hname Hasync Hnone. exists (set_coro ("on_" +:+ name) (fn_body f) c).
  unfold event. rewrite Hname, Hasync.
  change ("on_" +:+ name) with (String "o" (String "n" (String "_" name))).
  cbn [String.prefix negb]. destruct (ascii_dec "o" "o"); [|congruence].
  destruct (ascii_dec "n" "n"); [|congruence].
  destruct (ascii_dec "_" "_"); [|congruence].
  assert (String.prefix "" name = true) as -> by (destruct name; reflexivity).
  cbn [negb]. split; [reflexivity|].
  change (String "o" (String "n" (String "_" name))) with ("on_" +:+ name).
  split; [apply lookup_insert_eq|].
  unfold dispatch, fire, set_coro. client_fields. rewrite Hnone, lookup_insert_eq.
  reflexivity.
Qed.

Lemma registered_handler_is_scheduled_witness :
  exists c1,
    event on_ping_handler (Client.init 0) = Registered c1 /\
    Client.coros c1 !! "on_ping" = Some (UserCoro 0) /\
    dispatch "ping" [] c1
    = (Client.set_tasks [RunEvent (UserCoro 0) "on_ping" []]
         (Client.set_dispatched [("ping", [])] c1),
       Ok tt).
Proof.
  apply (registered_handler_is_scheduled on_ping_handler "ping" [] (Client.init 0));
    reflexivity.
Defined.

Lemma on_login_result_run (code : Z) (args : list pyval) (c : Client.t) :
  on_login_result code args c
  = (Client.set_timers (Client.timers c ++ [(5%Z, Close)]) c,
     Raise (if (code =? 1)%Z then AlreadyConnected
            else if (code =? 2)%Z then IncorrectPassword else LoginError code)).
Proof.
  unfold on_login_result, Client.bind, Client.modify, Client.raise.
  destruct (code =? 1)%Z; [reflexivity|]. destruct (code =? 2)%Z; reflexivity.
Qed.

Lemma login_taxonomy_codes (code : Z) :
  login_taxonomy code
  = if (code =? 1)%Z then AlreadyConnected
    else if (code =? 2)%Z then IncorrectPassword else LoginError code.
Proof.
  unfold login_taxonomy.
  destruct (Z.eqb_spec code 1) as [->|H1]; [reflexivity|].
  destruct (Z.eqb_spec code 2) as [->|H2]; [reflexivity|].
  destruct code as [|[p|p|]|p]; try reflexivity; try congruence.
  destruct p; try reflexivity; congruence.
Qed.

(** The login failure from the frame to the report.  On a client that
    has the handlers of the class and no waiter for the event, the
    login-result frame is handled without an exception and leaves one
    task; when the event loop runs it, the close is scheduled five
    seconds later and the failure of the code goes to [on_error]: the
    task ends without raising. *)
Theorem login_failure_is_reported `{PlayerEq}
    (user : nat -> list pyval -> Client.t -> Client.t * ending)
    (conn : conn_ref) (code : Z) (key args : string) (c : Client.t) :
  Client.coros c !! "on_login_result" = Some OnLoginResult ->
  Client.coros c !! "on_error" = Some OnError ->
  Client._waiters c !! "on_login_result" = None ->
  exists c1 t,
    handle_packet conn (login_result_frame code key args) c = (c1, Ok true) /\
    Client.tasks c1 = Client.tasks c ++ [t] /\
    run_task user t c1
    = (Client.set_timers (Client.timers c ++ [(5%Z, Close)]) c1,
       Ok (Some ("on_login_result", login_taxonomy code))).
Proof.
  intros Hlogin Herror Hnone.
  rewrite (login_result_scheduled conn code key args c Hlogin Hnone).
  eexists. eexists. split; [reflexivity|]. split; [reflexivity|].
  cbn [run_task]. unfold _run_event, call. rewrite on_login_result_run.
  client_fields. rewrite Herror, login_taxonomy_codes. reflexivity.
Qed.

Lemma login_failure_is_reported_witness :
  exists c1 t,
    handle_packet (H := by_name) CMain (login_result_frame 2 "" "") (Client.init 0)
    = (c1, Ok true) /\
    Client.tasks c1 = [t] /\
    run_task (fun _ _ c => (c, Completes)) t c1
    = (Client.set_timers [(5%Z, Close)] c1,
       Ok (Some ("on_login_result", IncorrectPassword))).
Proof.
  apply (login_failure_is_reported (H := by_name) (fun _ _ c => (c, Completes))
           CMain 2 "" "" (Client.init 0));
    reflexivity.
Defined.

(** ** Frames that are not handled *)

(** A frame whose opcode pair is none of the pairs of the chain is
    reported as not handled: [handle_packet] answers [False], raises
    nothing and leaves the client as it was, whatever the frame
    carries. *)
Theorem unknown_opcode_unhandled `{PlayerEq} (conn : conn_ref) (packet : Packet.t)
    (c : Client.t) :
  Packet.ccc packet ∉ handled ->
  handle_packet conn packet c = (c, Ok false).
Proof.
  destruct packet as [[a b] body]. cbn [Packet.ccc]. intros Hnot.
  assert (beyond (a, b) = false) as Hb.
  { apply bool_decide_eq_false. intros Hin. apply Hnot.
    apply list_elem_of_In in Hin. cbn [In] in Hin.
    repeat (destruct Hin as [Hin|Hin];
            [rewrite <- Hin; apply (bool_decide_unpack _); vm_compute; exact I|]).
    contradiction. }
  unfold handle_packet. cbn [Packet.ccc].
  repeat match goal with
         | |- context [match ?x with _ => _ end] => is_var x; destruct x
         end;
    first [ rewrite Hb; reflexivity
          | exfalso; apply Hnot; apply (bool_decide_unpack _); vm_compute; exact I ].
Qed.

Lemma unknown_opcode_unhandled_witness :
  handle_packet (H := by_name) CMain (Packet.mk (99, 1)%Z [Packet.F8 7]) trading
  = (trading, Ok false).
Proof.
  apply (unknown_opcode_unhandled (H := by_name) CMain
           (Packet.mk (99, 1)%Z [Packet.F8 7]) trading).
  apply (bool_decide_unpack _). vm_compute. exact I.
Defined.

(** ** Trade frames *)

Lemma refuses_after_read {A B} (r : outcome A) (k : A -> Client.M B) (c : Client.t) :
  r <> Stuck ->
  (forall a, refuses (k a) c) ->
  refuses (Client.bind (Client.lift r) k) c.
Proof.
  intros Hr Hk. unfold refuses, Client.bind, Client.lift.
  destruct r as [a|e|]; [apply Hk| |congruence].
  split; [reflexivity|]. exists e. reflexivity.
Qed.

Lemma next_not_stuck {A} (pick : Packet.field -> option A) (p : Packet.t) :
  Packet.next pick p <> Stuck.
Proof.
  unfold Packet.next. destruct (Packet.body p) as [|f rest]; [discriminate|].
  destruct (pick f); discriminate.
Qed.

Lemma refuses_without_trade {B} (k : nat -> Client.M B) (c : Client.t) :
  Client.trade c = None -> refuses (Client.bind the_trade k) c.
Proof.
  intros Hnone. unfold refuses, Client.bind, the_trade. rewrite Hnone.
  split; [reflexivity|]. exists AttributeError. reflexivity.
Qed.

(** One frame for the current trade, received without a current trade:
    whatever it carries, the branch raises before it changes anything. *)
Lemma trade_frame_refused `{PlayerEq} (conn : conn_ref) (packet : Packet.t)
    (c : Client.t) :
  Client.trade c = None ->
  Packet.ccc packet ∈ current_trade_codes ->
  refuses (handle_packet conn packet) c.
Proof.
  intros Hnone Hin. destruct packet as [ccc body]. cbn [Packet.ccc] in Hin.
  apply list_elem_of_In in Hin. cbn [In current_trade_codes] in Hin.
  destruct Hin as [<-|[<-|[<-|[]]]].
  - change (handle_packet conn (Packet.mk (31, 8)%Z body))
      with (trade_items (Packet.mk (31, 8)%Z body)).
    unfold trade_items.
    repeat (apply refuses_after_read; [apply next_not_stuck|intros [? ?]]).
    apply refuses_without_trade, Hnone.
  - change (handle_packet conn (Packet.mk (31, 9)%Z body))
      with (trade_lock (Packet.mk (31, 9)%Z body)).
    unfold trade_lock.
    repeat (apply refuses_after_read; [apply next_not_stuck|intros [? ?]]).
    apply refuses_without_trade, Hnone.
  - change (handle_packet conn (Packet.mk (31, 10)%Z body)) with trade_complete.
    apply refuses_without_trade, Hnone.
Qed.

Lemma trade_frames_refused `{PlayerEq} (conn : conn_ref) (packets : list Packet.t)
    (c : Client.t) :
  Client.trade c = None ->
  Forall (fun p => Packet.ccc p ∈ current_trade_codes) packets ->
  handle_all conn packets c = c.
Proof.
  intros Hnone Hall. induction Hall as [|p packets Hp _ IH]; [reflexivity|].
  destruct (trade_frame_refused conn p c Hnone Hp) as [Hfst _].
  cbn [handle_all]. rewrite fst_catch, Hfst. exact IH.
Qed.

(** Without a current trade, the frames of an item change, of a lock
    and of the completion of a trade are all refused: each one raises in
    [handle_packet], and a whole sequence of them, received one after
    the other, leaves the client exactly as it was (no trade appears, no
    event is dispatched, nothing is sent). *)
Theorem trade_frames_without_trade `{PlayerEq} (conn : conn_ref)
    (packets : list Packet.t) (c : Client.t) :
  Client.trade c = None ->
  Forall (fun p => Packet.ccc p ∈ current_trade_codes) packets ->
  handle_all conn packets c = c /\
  Forall (fun p => exists e, snd (handle_packet conn p c) = Raise e) packets.
Proof.
  intros Hnone Hall. split; [apply trade_frames_refused; assumption|].
  eapply Forall_impl; [exact Hall|]. intros p Hp.
  apply (trade_frame_refused conn p c Hnone Hp).
Qed.

Lemma trade_frames_without_trade_witness :
  handle_all (H := by_name) CBulle
    [item_frame true 1 true 1; lock_frame true true; complete_frame] (Client.init 0)
  = Client.init 0 /\
  Forall (fun p => exists e, snd (handle_packet (H := by_name) CBulle p (Client.init 0)) = Raise e)
    [item_frame true 1 true 1; lock_frame true true; complete_frame].
Proof.
  apply (trade_frames_without_trade (H := by_name) CBulle
           [item_frame true 1 true 1; lock_frame true true; complete_frame]
           (Client.init 0)).
  - reflexivity.
  - repeat constructor; apply (bool_decide_unpack _); vm_compute; exact I.
Defined.

(** The state after the branch of the lock. *)
Lemma trade_lock_run `{PlayerEq} (conn : conn_ref) (me locked : bool)
    (c : Client.t) (tr : nat) (x : Trade.t) :
  Client.trade c = Some tr -> Client.trade_store c !! tr = Some x ->
  exists ws futs ts,
    fst (handle_packet conn (lock_frame me locked) c)
    = Client.mk (Client.main c) (Client.bulle c) ws (Client.room c) (Client.trade c)
        (Client.trades c) (Client.community c) (Client.authkey c) (Client.coros c)
        (Client.player_store c)
        (<[tr := (if me then Trade.set_locked_me locked x
                  else Trade.set_locked_other locked x)]> (Client.trade_store c))
        futs ts (Client.timers c)
        (Client.dispatched c ++
         [("trade_lock",
           [VTrade tr; (if me then VClient else VPlayer (Trade._other x)); VBool locked])]).
Proof.
  intros Htr Hx.
  change (handle_packet conn (lock_frame me locked)) with (trade_lock (lock_frame me locked)).
  unfold trade_lock, lock_frame.
  cbv [Client.bind Client.lift Packet.readBool Packet.next Packet.body Packet.ccc
       the_trade trade_at].
  rewrite Htr, Hx.
  destruct me; rewrite (update_trade_run tr _ x c Hx);
    match goal with
    | |- context [dispatch ?e ?a ?c3] =>
        destruct (dispatch_shape e a c3) as (ws & futs & ts & Hd);
        destruct (dispatch e a c3) as [c4 [[]|e'|]]
    end;
    cbn [fst] in *; subst c4; exists ws, futs, ts; client_fields;
    rewrite ?Htr; reflexivity.
Qed.

(** A lock frame changes one flag of the current trade and nothing else
    of it: the flag of the side the frame names takes the value of the
    frame, the flag of the other side, both item mappings and the state
    of the trade stay, the other trades are untouched, and exactly one
    [trade_lock] event is dispatched, with the trade, the side (the
    client or the counterparty) and the new value. *)
Theorem trade_lock_sets_one_flag `{PlayerEq} (conn : conn_ref) (me locked : bool)
    (c : Client.t) (tr : nat) (x : Trade.t) :
  Client.trade c = Some tr ->
  Client.trade_store c !! tr = Some x ->
  exists x',
    Client.trade (fst (handle_packet conn (lock_frame me locked) c)) = Some tr /\
    Client.trade_store (fst (handle_packet conn (lock_frame me locked) c)) !! tr = Some x' /\
    (if me then Trade.locked_me x' else Trade.locked_other x') = locked /\
    (if me then Trade.locked_other x' = Trade.locked_other x
     else Trade.locked_me x' = Trade.locked_me x) /\
    Trade.items_me x' = Trade.items_me x /\
    Trade.items_other x' = Trade.items_other x /\
    Trade.alive x' = Trade.alive x /\
    (forall t, t <> tr ->
       Client.trade_store (fst (handle_packet conn (lock_frame me locked) c)) !! t
       = Client.trade_store c !! t) /\
    Client.dispatched (fst (handle_packet conn (lock_frame me locked) c))
    = Client.dispatched c ++
      [("trade_lock",
        [VTrade tr; (if me then VClient else VPlayer (Trade._other x)); VBool locked])].
Proof.
  intros Htr Hx.
  destruct (trade_lock_run conn me locked c tr x Htr Hx) as (ws & futs & ts & ->).
  client_fields. eexists. split; [exact Htr|]. split.
  { apply list_lookup_insert_eq. eapply lookup_lt_Some; eauto. }
  destruct me; repeat split; try reflexivity;
    intros t Ht; apply list_lookup_insert_ne; congruence.
Qed.

(** Bob unlocks his side of the trade that Alice had agreed on. *)
Lemma trade_lock_sets_one_flag_witness :
  exists x',
    Client.trade (fst (handle_packet (H := by_name) CBulle (lock_frame false false) trading))
    = Some 0 /\
    Client.trade_store
      (fst (handle_packet (H := by_name) CBulle (lock_frame false false) trading)) !! 0
    = Some x' /\
    Trade.locked_other x' = false /\
    Trade.locked_me x' = Trade.locked_me agreed_trade /\
    Trade.items_me x' = Trade.items_me agreed_trade /\
    Trade.items_other x' = Trade.items_other agreed_trade /\
    Trade.alive x' = Trade.alive agreed_trade /\
    (forall t, t <> 0 ->
       Client.trade_store
         (fst (handle_packet (H := by_name) CBulle (lock_frame false false) trading)) !! t
       = Client.trade_store trading !! t) /\
    Client.dispatched
      (fst (handle_packet (H := by_name) CBulle (lock_frame false false) trading))
    = Client.dispatched trading ++
      [("trade_lock", [VTrade 0; VPlayer (Trade._other agreed_trade); VBool false])].
Proof.
  apply (trade_lock_sets_one_flag (H := by_name) CBulle false false trading 0 agreed_trade);
    reflexivity.
Defined.

Lemma _close_run (tr : nat) (x : Trade.t) (c : Client.t) :
  Client.trade_store c !! tr = Some x ->
  _close tr c
  = (let c1 :=
       Client.set_trade_store (<[tr := Trade.set_alive false x]> (Client.trade_store c)) c in
     match Client.trade c with
     | Some cur => if (cur =? tr)%nat then Client.set_trade None c1 else c1
     | None => c1
     end, Ok tt).
Proof.
  intros Hx. unfold _close, Client.bind, Client.modify.
  rewrite (update_trade_run tr _ x c Hx). client_fields. reflexivity.
Qed.

(** The frame of a completed trade ends the current trade: the client
    has no current trade afterwards, the trade is no longer alive but
    stays in the list of trades, one [trade_complete] event carries it,
    and every later item, lock or completion frame is refused without
    an effect. *)
Theorem trade_complete_closes `{PlayerEq} (conn : conn_ref) (c : Client.t) (tr : nat)
    (x : Trade.t) :
  Client.trade c = Some tr ->
  Client.trade_store c !! tr = Some x ->
  Client.trade (fst (handle_packet conn complete_frame c)) = None /\
  Client.trade_store (fst (handle_packet conn complete_frame c))
  = <[tr := Trade.set_alive false x]> (Client.trade_store c) /\
  Client.trades (fst (handle_packet conn complete_frame c)) = Client.trades c /\
  Client.dispatched (fst (handle_packet conn complete_frame c))
  = Client.dispatched c ++ [("trade_complete", [VTrade tr])] /\
  forall packets,
    Forall (fun p => Packet.ccc p ∈ current_trade_codes) packets ->
    handle_all conn packets (fst (handle_packet conn complete_frame c))
    = fst (handle_packet conn complete_frame c).
Proof.
  intros Htr Hx.
  assert (Client.trade (fst (handle_packet conn complete_frame c)) = None /\
          Client.trade_store (fst (handle_packet conn complete_frame c))
          = <[tr := Trade.set_alive false x]> (Client.trade_store c) /\
          Client.trades (fst (handle_packet conn complete_frame c)) = Client.trades c /\
          Client.dispatched (fst (handle_packet conn complete_frame c))
          = Client.dispatched c ++ [("trade_complete", [VTrade tr])])
    as (H1 & H2 & H3 & H4).
  { change (handle_packet conn complete_frame) with trade_complete.
    unfold trade_complete. cbv [Client.bind the_trade]. rewrite Htr.
    rewrite (_close_run tr x c Hx). cbv zeta. rewrite Htr, Nat.eqb_refl.
    match goal with
    | |- context [dispatch ?e ?a ?c3] =>
        destruct (dispatch_shape e a c3) as (ws & futs & ts & Hd);
        destruct (dispatch e a c3) as [c4 [[]|e'|]]
    end;
      cbn [fst] in *; subst c4; client_fields; repeat split; reflexivity. }
  repeat split; try assumption.
  intros packets Hall.
  apply (trade_frames_refused conn packets _ H1 Hall).
Qed.

Lemma trade_complete_closes_witness :
  Client.trade (fst (handle_packet (H := by_name) CBulle complete_frame trading)) = None /\
  Client.trade_store (fst (handle_packet (H := by_name) CBulle complete_frame trading))
  = <[0 := Trade.set_alive false agreed_trade]> (Client.trade_store trading) /\
  Client.trades (fst (handle_packet (H := by_name) CBulle complete_frame trading))
  = Client.trades trading /\
  Client.dispatched (fst (handle_packet (H := by_name) CBulle complete_frame trading))
  = Client.dispatched trading ++ [("trade_complete", [VTrade 0])] /\
  forall packets,
    Forall (fun p => Packet.ccc p ∈ current_trade_codes) packets ->
    handle_all (H := by_name) CBulle packets
      (fst (handle_packet (H := by_name) CBulle complete_frame trading))
    = fst (handle_packet (H := by_name) CBulle complete_frame trading).
Proof.
  apply (trade_complete_closes (H := by_name) CBulle trading 0 agreed_trade); reflexivity.
Defined.

(** ** Outbound commands *)

Lemma replace_byte_elem (old x : ascii) (new b : list ascii) :
  x ∈ replace_byte old new b -> x ∈ new \/ (x ∈ b /\ x <> old).
Proof.
  induction b as [|a rest IH]; cbn [replace_byte]; [intros Hx; inversion Hx|].
  rewrite elem_of_app. intros [Hx|Hx].
  - destruct (Ascii.eqb_spec a old) as [->|Hne]; [left; exact Hx|].
    apply list_elem_of_singleton in Hx. subst x. right. split; [left|exact Hne].
  - destruct (IH Hx) as [Hnew|[Hin Hne]]; [left; exact Hnew|].
    right. split; [right; exact Hin|exact Hne].
Qed.

Lemma replace_byte_clean (old : ascii) (new b : list ascii) :
  old ∉ b -> replace_byte old new b = b.
Proof.
  induction b as [|a rest IH]; [reflexivity|]. intros Hnot.
  apply not_elem_of_cons in Hnot as [Hne Hrest]. cbn [replace_byte].
  destruct (Ascii.eqb_spec a old) as [->|_]; [congruence|].
  rewrite (IH Hrest). reflexivity.
Qed.

(** No angle bracket is left in an escaped message. *)
Lemma escape_clean (message : list ascii) :
  ("<"%char ∉ escape message) /\ (">"%char ∉ escape message).
Proof.
  unfold escape. split; intros Hin.
  - apply replace_byte_elem in Hin as [Hin|[Hin _]].
    + apply list_elem_of_In in Hin. cbn in Hin. intuition discriminate.
    + apply replace_byte_elem in Hin as [Hin|[_ Hne]]; [|congruence].
      apply list_elem_of_In in Hin. cbn in Hin. intuition discriminate.
  - apply replace_byte_elem in Hin as [Hin|[_ Hne]]; [|congruence].
    apply list_elem_of_In in Hin. cbn in Hin. intuition discriminate.
Qed.

Lemma escape_of_clean (b : list ascii) :
  "<"%char ∉ b -> ">"%char ∉ b -> escape b = b.
Proof.
  intros Hlt Hgt. unfold escape. rewrite (replace_byte_clean "<" _ b Hlt).
  apply replace_byte_clean, Hgt.
Qed.

Lemma slice_sublist (i j : nat) (b : list ascii) : slice i j b `sublist_of` b.
Proof.
  unfold slice. etransitivity; [apply sublist_take|apply sublist_drop].
Qed.

Lemma slice_length (i j : nat) (b : list ascii) : length (slice i j b) <= j - i.
Proof. unfold slice. rewrite length_take. lia. Qed.

Lemma range_short (len : nat) : len <= 255 -> range 255 len 255 = [].
Proof.
  intros Hlen. unfold range. replace (len - 255) with 0 by lia.
  reflexivity.
Qed.

Lemma with_frames_twice (f1 f2 : list (Packet.t * bool)) (fp1 fp2 sl1 sl2 : Z)
    (s : Outbound.t) :
  with_frames f2 fp2 sl2 (with_frames f1 fp1 sl1 s) = with_frames (f1 ++ f2) fp2 sl2 s.
Proof.
  unfold with_frames. cbn [Outbound.base]. client_fields.
  cbn [Connection.name Connection.open Connection.fingerprint Connection.sent].
  rewrite <- app_assoc. reflexivity.
Qed.

Lemma with_frames_open (f : list (Packet.t * bool)) (fp sl : Z) (s : Outbound.t) :
  Connection.open (Client.main (Outbound.base (with_frames f fp sl s)))
  = Connection.open (Client.main (Outbound.base s)).
Proof. reflexivity. Qed.

(** [sendCP] on an open main connection. *)
Lemma sendCP_open (code : Z) (data : list Packet.field) (s : Outbound.t) :
  Connection.open (Client.main (Outbound.base s)) = true ->
  sendCP code data s
  = (with_frames [(cp_frame code (next_fingerprint (Outbound.cp_fingerprint s)) data, true)]
       (next_fingerprint (Outbound.cp_fingerprint s)) (Outbound.slept s) s,
     Ok (next_fingerprint (Outbound.cp_fingerprint s))).
Proof.
  intros Hopen. unfold sendCP, Outbound.bind, Outbound.lift, conn_send, Client.bind,
    the_conn, Client.lift, Connection.send, put_conn, Client.modify.
  unfold with_frames.
  cbn [Outbound.base Outbound.cp_fingerprint Outbound.slept fst snd].
  rewrite Hopen. reflexivity.
Qed.

(** A piece that needs no escaping and fits one frame goes out in one
    frame. *)
Lemma whisper_one_piece (fuel : nat) (u : string) (piece : list ascii) (overflow : bool)
    (s : Outbound.t) :
  Connection.open (Client.main (Outbound.base s)) = true ->
  "<"%char ∉ piece -> ">"%char ∉ piece -> length piece <= 255 ->
  whisper (S fuel) (ByName u) piece overflow s
  = (with_frames (whisper_frames u (Outbound.cp_fingerprint s) [piece])
       (next_fingerprint (Outbound.cp_fingerprint s)) (Outbound.slept s) s, Ok tt).
Proof.
  intros Hopen Hlt Hgt Hlen. cbn [whisper recipient_name].
  rewrite (escape_of_clean piece Hlt Hgt), (range_short _ Hlen).
  unfold Outbound.bind. rewrite (sendCP_open _ _ s Hopen).
  unfold slice. rewrite drop_0, take_ge by lia. reflexivity.
Qed.

Lemma whisper_loop (fuel : nat) (u : string) (message : list ascii) (l : list nat)
    (s : Outbound.t) :
  Connection.open (Client.main (Outbound.base s)) = true ->
  "<"%char ∉ message -> ">"%char ∉ message ->
  Outbound.for_each l (fun i =>
    Outbound.bind (Outbound.sleep 1) (fun _ =>
      whisper (S fuel) (ByName u) (slice i (i + 255) message) false)) s
  = (with_frames
       (whisper_frames u (Outbound.cp_fingerprint s)
          ((fun i => slice i (i + 255) message) <$> l))
       (Nat.iter (length l) next_fingerprint (Outbound.cp_fingerprint s))
       (Outbound.slept s + Z.of_nat (length l)) s, Ok tt).
Proof.
  intros Hopen Hlt Hgt. revert s Hopen.
  induction l as [|i rest IH]; intros s Hopen.
  - cbn [Outbound.for_each fmap list_fmap whisper_frames length Nat.iter nat_rect].
    unfold Outbound.ret, with_frames. destruct s as [c fp sl].
    cbn [Outbound.base Outbound.cp_fingerprint Outbound.slept].
    rewrite app_nil_r, Z.add_0_r. destruct c as [[n o f snt] b w r t ts cm a cs ps tst fs tk tm d].
    reflexivity.
  - cbn [Outbound.for_each]. unfold Outbound.bind at 1. unfold Outbound.bind at 1.
    cbn [Outbound.sleep].
    rewrite whisper_one_piece.
    + rewrite IH by exact Hopen.
      rewrite with_frames_twice.
      cbn [Outbound.cp_fingerprint Outbound.slept Outbound.base with_frames].
      unfold with_frames at 1.
      cbn [Outbound.cp_fingerprint Outbound.slept Outbound.base].
      rewrite fmap_cons. cbn [whisper_frames length app].
      rewrite Nat.iter_succ_r.
      replace (Outbound.slept s + 1 + Z.of_nat (length rest))%Z
        with (Outbound.slept s + Z.of_nat (S (length rest)))%Z by lia.
      reflexivity.
    + exact Hopen.
    + intros Hin. apply Hlt. eapply elem_of_sublist; [exact Hin|apply slice_sublist].
    + intros Hin. apply Hgt. eapply elem_of_sublist; [exact Hin|apply slice_sublist].
    + etransitivity; [apply slice_length|lia].
Qed.

Lemma range_from_shift (n start : nat) (b : list ascii) :
  (fun i => slice i (i + 255) b) <$> range_from n start 255
  = (fun i => slice i (i + 255) (drop start b)) <$> range_from n 0 255.
Proof.
  revert start b. induction n as [|n IH]; intros start b; [reflexivity|].
  cbn [range_from]. rewrite !fmap_cons. f_equal.
  - unfold slice. rewrite drop_0. f_equal. lia.
  - rewrite (IH (start + 255)), (IH (0 + 255)). apply list_fmap_ext.
    intros _ i _. unfold slice. rewrite !drop_drop. do 2 f_equal. lia.
Qed.

Lemma pieces_concat (n : nat) (b : list ascii) :
  length b <= n * 255 ->
  concat ((fun i => slice i (i + 255) b) <$> range_from n 0 255) = b.
Proof.
  revert b. induction n as [|n IH]; intros b Hlen.
  - destruct b; [reflexivity|cbn in Hlen; lia].
  - cbn [range_from]. rewrite fmap_cons. cbn [concat].
    rewrite (range_from_shift n (0 + 255)), IH.
    + unfold slice. rewrite drop_0. replace (0 + 255 - 0) with 255 by lia.
      apply take_drop.
    + rewrite length_drop. lia.
Qed.

Lemma range_from_length (n start step : nat) : length (range_from n start step) = n.
Proof.
  revert start. induction n as [|n IH]; intros start; [reflexivity|].
  cbn [range_from length]. rewrite IH. reflexivity.
Qed.

Lemma pieces_count (len : nat) :
  S ((len - 255 + (255 - 1)) / 255) = Nat.max 1 ((len + 254) / 255).
Proof.
  destruct (Nat.le_gt_cases len 255) as [Hle|Hgt].
  - replace (len - 255) with 0 by lia.
    assert ((len + 254) / 255 <= 1).
    { apply Nat.lt_succ_r, Nat.Div0.div_lt_upper_bound. lia. }
    change ((0 + (255 - 1)) / 255) with 0. lia.
  - replace (len + 254) with (len - 255 + (255 - 1) + 1 * 255) by lia.
    rewrite Nat.div_add by lia. lia.
Qed.

Lemma pieces_cover (len : nat) :
  len <= S ((len - 255 + (255 - 1)) / 255) * 255.
Proof.
  pose proof (Nat.div_mod_eq (len - 255 + (255 - 1)) 255) as Hdm.
  pose proof (Nat.mod_upper_bound (len - 255 + (255 - 1)) 255) as Hub.
  lia.
Qed.

(** What a whisper does, in the terms of the method: the frames of the
    pieces, the fingerprint after as many steps, the seconds asleep. *)
Lemma whisper_run (fuel : nat) (username : recipient)
    (message : list ascii) (overflow : bool) (s : Outbound.t) :
  Connection.open (Client.main (Outbound.base s)) = true ->
  2 <= fuel ->
  whisper fuel username message overflow s
  = (with_frames
       (whisper_frames (recipient_name username) (Outbound.cp_fingerprint s)
          (pieces message))
       (Nat.iter (length (pieces message)) next_fingerprint (Outbound.cp_fingerprint s))
       (Outbound.slept s + Z.of_nat (length (pieces message)) - 1) s, Ok tt) /\
  concat (pieces message) = escape message /\
  Forall (fun piece => length piece <= 255) (pieces message) /\
  Forall (fun piece => ("<"%char ∉ piece) /\ (">"%char ∉ piece)) (pieces message) /\
  length (pieces message) = Nat.max 1 ((length (escape message) + 254) / 255).
Proof.
  intros Hopen Hfuel. destruct (escape_clean message) as [Hlt Hgt].
  assert (forall i j, ("<"%char ∉ slice i j (escape message)) /\
                      (">"%char ∉ slice i j (escape message))) as Hclean.
  { intros i j. split; intros Hin; [apply Hlt|apply Hgt];
      (eapply elem_of_sublist; [exact Hin|apply slice_sublist]). }
  destruct fuel as [|[|fuel]]; [lia|lia|]. split; [|split; [|split; [|split]]].
  - cbn [whisper]. unfold Outbound.bind at 1. rewrite (sendCP_open _ _ s Hopen).
    rewrite (whisper_loop fuel (recipient_name username) (escape message) _
               (with_frames _ _ _ s) Hopen Hlt Hgt).
    rewrite with_frames_twice. unfold pieces.
    cbn [whisper_frames length app Outbound.cp_fingerprint Outbound.slept with_frames].
    rewrite length_fmap, Nat.iter_succ_r. do 2 f_equal. lia.
  - unfold pieces, range.
    change (slice 0 255 (escape message) ::
            ((fun i => slice i (i + 255) (escape message)) <$>
             range_from ((length (escape message) - 255 + (255 - 1)) / 255) 255 255))
      with ((fun i => slice i (i + 255) (escape message)) <$>
            range_from (S ((length (escape message) - 255 + (255 - 1)) / 255)) 0 255).
    apply pieces_concat, pieces_cover.
  - unfold pieces. constructor; [apply (slice_length 0 255)|].
    apply Forall_fmap, Forall_forall. intros i _. cbn.
    etransitivity; [apply slice_length|lia].
  - unfold pieces. constructor; [apply Hclean|].
    apply Forall_fmap, Forall_forall. intros i _. apply Hclean.
  - unfold pieces, range. cbn [length]. rewrite length_fmap, range_from_length.
    apply pieces_count.
Qed.

Lemma replace_byte_app (old : ascii) (new a b : list ascii) :
  replace_byte old new (a ++ b) = replace_byte old new a ++ replace_byte old new b.
Proof.
  induction a as [|x a IH]; [reflexivity|].
  cbn [app replace_byte]. rewrite IH, app_assoc. reflexivity.
Qed.

Lemma escape_escaped (message : list ascii) : escape message = escaped message.
Proof.
  unfold escape, escaped. induction message as [|a rest IH]; [reflexivity|].
  cbn [replace_byte flat_map]. rewrite replace_byte_app, IH. f_equal.
  unfold entity. destruct (Ascii.eqb_spec a "<") as [->|Hlt]; [reflexivity|].
  cbn [replace_byte]. rewrite app_nil_r.
  destruct (Ascii.eqb a ">"); reflexivity.
Qed.

Lemma fingerprint_after (n : nat) (fp : Z) :
  Nat.iter (S n) next_fingerprint fp = ((fp + Z.of_nat (S n)) mod 4294967295)%Z.
Proof.
  induction n as [|n IH].
  - cbn [Nat.iter nat_rect]. unfold next_fingerprint. reflexivity.
  - rewrite Nat.iter_succ, IH. unfold next_fingerprint.
    rewrite Zplus_mod_idemp_l. f_equal. lia.
Qed.

Lemma whisper_frames_imap (u : string) (chunks : list (list ascii)) :
  forall fp : Z,
    whisper_frames u fp chunks
    = imap (fun k chunk =>
              (Packet.mk (60, 3)%Z
                 [Packet.F16 52;
                  Packet.F32 ((fp + Z.of_nat k + 1) mod 4294967295)%Z;
                  Packet.FUTF u; Packet.FUTF (string_of_list_ascii chunk)], true))
        chunks.
Proof.
  induction chunks as [|chunk rest IH]; intros fp; [reflexivity|].
  cbn [whisper_frames]. rewrite imap_cons, IH. f_equal.
  - unfold next_fingerprint. rewrite Z.add_0_r. reflexivity.
  - assert (forall k : nat,
              ((fp + 1) mod 4294967295 + Z.of_nat k + 1) mod 4294967295
              = (fp + Z.of_nat (S k) + 1) mod 4294967295)%Z as E.
    { intros k. rewrite <- Z.add_assoc, Zplus_mod_idemp_l. f_equal. lia. }
    apply imap_ext. intros k x _. cbn [compose]. unfold next_fingerprint.
    rewrite E. reflexivity.
Qed.

Lemma range_from_lookup (n start step k : nat) :
  k < n -> range_from n start step !! k = Some (start + k * step).
Proof.
  revert start k. induction n as [|n IH]; intros start k Hk; [lia|].
  destruct k as [|k]; cbn [range_from lookup list_lookup].
  - f_equal. lia.
  - change (range_from n (start + step) step !! k = Some (start + S k * step)).
    rewrite IH by lia. f_equal. lia.
Qed.

Lemma pieces_lookup (message : list ascii) (k : nat) :
  k < length (pieces message) ->
  pieces message !! k = Some (take 255 (drop (255 * k) (escape message))).
Proof.
  unfold pieces, range. cbn [length]. rewrite length_fmap, range_from_length.
  intros Hk. destruct k as [|k].
  - cbn [lookup list_lookup]. unfold slice. rewrite drop_0. reflexivity.
  - change ((((fun i => slice i (i + 255) (escape message)) <$>
              range_from ((length (escape message) - 255 + (255 - 1)) / 255) 255 255) !! k)
            = Some (take 255 (drop (255 * S k) (escape message)))).
    rewrite list_lookup_fmap, range_from_lookup by lia. cbn [fmap option_fmap option_map].
    unfold slice.
    replace (255 + k * 255 + 255 - (255 + k * 255)) with 255 by lia.
    replace (255 * S k) with (255 + k * 255) by lia. reflexivity.
Qed.

(** A whisper goes out as the escaped message cut every 255 bytes.  The
    escaped message is the message with every [<] replaced by [&lt;]
    and every [>] by [&gt;]; piece [k] is its bytes from [255 * k] on,
    at most 255 of them, and there are as many pieces as the length of
    the escaped message divided by 255, rounded up (one piece for an
    empty message).  [whisper] returns; the main connection has sent,
    after what it had sent before, one ciphered frame for each piece in
    order: opcode (60, 3) with the code 52, the fingerprint, the name
    of the recipient and the piece, the fingerprint of piece [k] being
    the fingerprint of before plus [k + 1], modulo [0xFFFFFFFF]; the
    client has that of the last piece afterwards and slept one second
    before each piece but the first.  The parameter [overflow] has no
    influence, and two levels of calls are enough. *)
Theorem whisper_sends_pieces (fuel : nat) (username : recipient)
    (message : list ascii) (overflow : bool) (s : Outbound.t) :
  Connection.open (Client.main (Outbound.base s)) = true ->
  2 <= fuel ->
  exists chunks : list (list ascii),
    concat chunks = escaped message /\
    (forall k, k < length chunks ->
       chunks !! k = Some (take 255 (drop (255 * k) (escaped message)))) /\
    length chunks = Nat.max 1 ((length (escaped message) + 254) / 255) /\
    whisper fuel username message overflow s
    = (Outbound.mk
         (Client.set_main
            (Connection.mk
               (Connection.name (Client.main (Outbound.base s)))
               (Connection.open (Client.main (Outbound.base s)))
               (Connection.fingerprint (Client.main (Outbound.base s)))
               (Connection.sent (Client.main (Outbound.base s)) ++
                imap (fun k chunk =>
                        (Packet.mk (60, 3)%Z
                           [Packet.F16 52;
                            Packet.F32 ((Outbound.cp_fingerprint s + Z.of_nat k + 1)
                                        mod 4294967295)%Z;
                            Packet.FUTF match username with
                                        | ByName name => name
                                        | ByPlayer player => Player.username player
                                        end;
                            Packet.FUTF (string_of_list_ascii chunk)], true))
                  chunks))
            (Outbound.base s))
         ((Outbound.cp_fingerprint s + Z.of_nat (length chunks)) mod 4294967295)%Z
         (Outbound.slept s + (Z.of_nat (length chunks) - 1)),
       Ok tt).
Proof.
  intros Hopen Hfuel.
  destruct (whisper_run fuel username message overflow s Hopen Hfuel)
    as (Hrun & Hconcat & _ & _ & Hlen).
  rewrite escape_escaped in Hconcat, Hlen.
  exists (pieces message). split; [exact Hconcat|]. split; [|split; [exact Hlen|]].
  - intros k Hk. rewrite <- escape_escaped. apply pieces_lookup, Hk.
  - rewrite Hrun. unfold with_frames. rewrite whisper_frames_imap.
    assert (exists n, length (pieces message) = S n) as [n Hn].
    { destruct (length (pieces message)) as [|n]; [lia|]. exists n. reflexivity. }
    replace (Nat.iter (length (pieces message)) next_fingerprint (Outbound.cp_fingerprint s))
      with ((Outbound.cp_fingerprint s + Z.of_nat (length (pieces message)))
            mod 4294967295)%Z
      by (rewrite Hn; symmetry; apply fingerprint_after).
    replace (Outbound.slept s + Z.of_nat (length (pieces message)) - 1)%Z
      with (Outbound.slept s + (Z.of_nat (length (pieces message)) - 1))%Z by lia.
    destruct username; reflexivity.
Qed.

(** A message of 300 bytes with one angle bracket, whispered to Alice on
    an open connection. *)
Lemma whisper_sends_pieces_witness :
  exists chunks : list (list ascii),
    concat chunks = escaped long_message /\
    (forall k, k < length chunks ->
       chunks !! k = Some (take 255 (drop (255 * k) (escaped long_message)))) /\
    length chunks = Nat.max 1 ((length (escaped long_message) + 254) / 255) /\
    whisper 2 (ByPlayer alice) long_message true online
    = (Outbound.mk
         (Client.set_main
            (Connection.mk
               (Connection.name (Client.main (Outbound.base online)))
               (Connection.open (Client.main (Outbound.base online)))
               (Connection.fingerprint (Client.main (Outbound.base online)))
               (Connection.sent (Client.main (Outbound.base online)) ++
                imap (fun k chunk =>
                        (Packet.mk (60, 3)%Z
                           [Packet.F16 52;
                            Packet.F32 ((Outbound.cp_fingerprint online + Z.of_nat k + 1)
                                        mod 4294967295)%Z;
                            Packet.FUTF match ByPlayer alice with
                                        | ByName name => name
                                        | ByPlayer player => Player.username player
                                        end;
                            Packet.FUTF (string_of_list_ascii chunk)], true))
                  chunks))
            (Outbound.base online))
         ((Outbound.cp_fingerprint online + Z.of_nat (length chunks)) mod 4294967295)%Z
         (Outbound.slept online + (Z.of_nat (length chunks) - 1)),
       Ok tt).
Proof.
  apply (whisper_sends_pieces 2 (ByPlayer alice) long_message true online);
    [reflexivity|lia].
Defined.

(** The two frames of that whisper, on a client whose fingerprint is
    about to wrap around. *)
Example whisper_wraps_around :
  Connection.sent
    (Client.main
       (Outbound.base
          (fst (whisper 2 (ByName "Alice") long_message false
                  (Outbound.mk trading 4294967293 0)))))
  = [(Packet.mk (60, 3)%Z
        [Packet.F16 52; Packet.F32 4294967294; Packet.FUTF "Alice";
         Packet.FUTF (string_of_list_ascii
                        (list_ascii_of_string "&lt;" ++ replicate 251 "a"%char))], true);
     (Packet.mk (60, 3)%Z
        [Packet.F16 52; Packet.F32 0; Packet.FUTF "Alice";
         Packet.FUTF (string_of_list_ascii (replicate 48 "a"%char))], true)] /\
  Outbound.cp_fingerprint
    (fst (whisper 2 (ByName "Alice") long_message false
            (Outbound.mk trading 4294967293 0))) = 0%Z.
Proof. split; vm_compute; reflexivity. Qed.

Example whisper_long_message :
  pieces long_message
  = [list_ascii_of_string "&lt;" ++ replicate 251 "a"%char; replicate 48 "a"%char].
Proof. vm_compute. reflexivity. Qed.

(** ** Roster frames *)

Lemma omap_stored_app (store extra : list Player.t) (l : list nat) :
  Forall (fun i => i < length store) l ->
  omap (fun i => (fun p => (i, p)) <$> (store ++ extra) !! i) l
  = omap (fun i => (fun p => (i, p)) <$> store !! i) l.
Proof.
  induction 1 as [|i l Hi _ IH]; [reflexivity|].
  cbn [omap list_omap]. rewrite IH, lookup_app_l by exact Hi. reflexivity.
Qed.

Lemma room_get_player_stored `{PlayerEq} (r : Room.t nat) (kwargs : list (string * pyval))
    (c : Client.t) (extra : list Player.t) :
  roster_stored r c ->
  snd (room_get_player r kwargs
         (Client.set_player_store (Client.player_store c ++ extra) c))
  = snd (room_get_player r kwargs c).
Proof.
  intros Hwf. unfold room_get_player, room_view. cbn [snd]. client_fields.
  rewrite (omap_stored_app _ _ _ Hwf). reflexivity.
Qed.

(** What the lookup by persistent id finds is a player of the roster
    with that id. *)
Lemma room_get_player_found `{PlayerEq} (r : Room.t nat) (n : Z) (c : Client.t)
    (found : nat) :
  snd (room_get_player r [("pid", VInt n)] c) = Ok (Some found) ->
  found ∈ Room.players r /\
  exists q, Client.player_store c !! found = Some q /\ Player.pid q = n.
Proof.
  unfold room_get_player. cbn [snd Room.get_player String.eqb Ascii.eqb Bool.eqb orb].
  rewrite (get_players_by_int (VInt n) n Room.p_pid _ eq_refl).
  cbn [snd outcome_map outcome_bind]. rewrite head_filter_find.
  destruct (List.find _ _) as [[i q]|] eqn:Hfind; [|discriminate].
  intros [= <-]. apply List.find_some in Hfind as [Hin Hpid].
  apply list_elem_of_In, list_elem_of_omap in Hin as (j & Hj & Hsome).
  destruct (Client.player_store c !! j) as [q'|] eqn:Hq; [|discriminate].
  cbn in Hsome. injection Hsome as -> ->. split; [exact Hj|]. exists q. split; [exact Hq|].
  apply Z.eqb_eq in Hpid. exact Hpid.
Qed.

Lemma remove_first_app (same : nat -> bool) (l l' extra : list nat) :
  remove_first same l = Some l' ->
  remove_first same (l ++ extra) = Some (l' ++ extra) /\
  length l = S (length l') /\ l' `sublist_of` l.
Proof.
  revert l'. induction l as [|y rest IH]; intros l'; cbn [remove_first app]; [discriminate|].
  destruct (same y).
  - intros [= <-]. split; [reflexivity|]. split; [reflexivity|].
    apply sublist_cons, reflexivity.
  - destruct (remove_first same rest) as [rest'|]; [|discriminate].
    intros [= <-]. destruct (IH rest' eq_refl) as (-> & Hlen & Hsub).
    split; [reflexivity|]. split; [cbn; lia|]. apply sublist_skip, Hsub.
Qed.

Lemma remove_first_finds (same : nat -> bool) (l : list nat) (x : nat) :
  x ∈ l -> same x = true -> is_Some (remove_first same l).
Proof.
  induction l as [|y rest IH]; [intros Hin; inversion Hin|].
  intros Hin Hx. cbn [remove_first]. destruct (same y) eqn:Hy; [eexists; reflexivity|].
  apply elem_of_cons in Hin as [->|Hin]; [congruence|].
  destruct (IH Hin Hx) as [l' ->]. eexists. reflexivity.
Qed.

Lemma remove_first_gone (same : nat -> bool) (l l' : list nat) (x : nat) :
  NoDup l ->
  (forall y, y ∈ l -> same y = true -> y = x) ->
  remove_first same l = Some l' ->
  same x = true ->
  x ∉ l'.
Proof.
  intros Hnd. revert l'. induction Hnd as [|y rest Hy Hnd IH]; intros l' Hsame;
    cbn [remove_first]; [discriminate|].
  destruct (same y) eqn:Hsy.
  - intros [= <-] _. rewrite <- (Hsame y (list_elem_of_here _ _) Hsy). exact Hy.
  - destruct (remove_first same rest) as [rest'|] eqn:Hrest; [|discriminate].
    intros [= <-] Hx. apply not_elem_of_cons. split.
    + intros ->. congruence.
    + apply IH; [|reflexivity|exact Hx].
      intros z Hz. apply Hsame. right. exact Hz.
Qed.

Lemma remove_first_keeps (same : nat -> bool) (l l' : list nat) (y : nat) :
  remove_first same l = Some l' -> y ∈ l -> same y = false -> y ∈ l'.
Proof.
  revert l'. induction l as [|z rest IH]; intros l'; cbn [remove_first]; [discriminate|].
  destruct (same z) eqn:Hz.
  - intros [= <-] Hin Hy. apply elem_of_cons in Hin as [->|Hin]; [congruence|exact Hin].
  - destruct (remove_first same rest) as [rest'|]; [|discriminate].
    intros [= <-] Hin Hy. apply elem_of_cons in Hin as [->|Hin]; [left|right].
    apply IH; [reflexivity|exact Hin|exact Hy].
Qed.

Lemma add_player_joins_run `{PlayerEq} (conn : conn_ref) (p : Player.t) (c : Client.t)
    (r : Room.t nat) :
  Client.room c = Some r ->
  roster_stored r c ->
  snd (room_get_player r [("pid", VInt (Player.pid p))] c) = Ok None ->
  exists ws futs ts,
    fst (handle_packet conn (add_frame p) c)
    = Client.mk (Client.main c) (Client.bulle c) ws
        (Some (Room.mk (Room.name r) (Room.private r)
                 (Room.players r ++ [length (Client.player_store c)])))
        (Client.trade c) (Client.trades c) (Client.community c) (Client.authkey c)
        (Client.coros c) (Client.player_store c ++ [Player.set_trade None p])
        (Client.trade_store c) futs ts (Client.timers c)
        (Client.dispatched c ++ [("player_join", [VPlayer (length (Client.player_store c))])]).
Proof.
  intros Hroom Hwf Hnone.
  change (handle_packet conn (add_frame p)) with (add_player (add_frame p)).
  unfold add_player, add_frame.
  cbv [Client.bind Client.lift Packet.readPlayer Packet.next Packet.body Packet.ccc
       new_player the_room players_append Client.modify].
  client_fields. rewrite Hroom.
  rewrite (room_get_player_pure r _ _), (room_get_player_stored r _ c _ Hwf), Hnone.
  client_fields. rewrite Hroom.
  match goal with
  | |- context [dispatch ?e ?a ?c3] =>
      destruct (dispatch_shape e a c3) as (ws & futs & ts & Hd);
      destruct (dispatch e a c3) as [c4 [[]|e'|]]
  end;
    cbn [fst] in *; subst c4; client_fields; eauto.
Qed.

(** A player who is not yet in the room joins it: the frame appends the
    new player to the roster, which is otherwise as it was, and one
    [player_join] event carries the new player; no trade is touched. *)
Theorem new_player_joins `{PlayerEq} (conn : conn_ref) (p : Player.t) (c : Client.t)
    (r : Room.t nat) :
  Client.room c = Some r ->
  roster_stored r c ->
  snd (room_get_player r [("pid", VInt (Player.pid p))] c) = Ok None ->
  Client.room (fst (handle_packet conn (add_frame p) c))
  = Some (Room.mk (Room.name r) (Room.private r)
            (Room.players r ++ [length (Client.player_store c)])) /\
  Client.player_store (fst (handle_packet conn (add_frame p) c))
  = Client.player_store c ++ [Player.set_trade None p] /\
  Client.trade_store (fst (handle_packet conn (add_frame p) c)) = Client.trade_store c /\
  Client.trade (fst (handle_packet conn (add_frame p) c)) = Client.trade c /\
  Client.dispatched (fst (handle_packet conn (add_frame p) c))
  = Client.dispatched c ++ [("player_join", [VPlayer (length (Client.player_store c))])].
Proof.
  intros Hroom Hwf Hnone.
  destruct (add_player_joins_run conn p c r Hroom Hwf Hnone) as (ws & futs & ts & ->).
  repeat split.
Qed.

Lemma add_player_updates_run `{PlayerEq} (conn : conn_ref) (p : Player.t) (c : Client.t)
    (r : Room.t nat) (before : nat) (q : Player.t) :
  Client.room c = Some r ->
  roster_stored r c ->
  snd (room_get_player r [("pid", VInt (Player.pid p))] c) = Ok (Some before) ->
  Client.player_store c !! before = Some q ->
  (forall tr, Player.trade q = Some tr -> is_Some (Client.trade_store c !! tr)) ->
  exists l ws futs ts,
    remove_first
      (fun y => (y =? before)%nat ||
                match (Client.player_store c ++ [Player.set_trade None p]) !! y,
                      (Client.player_store c ++ [Player.set_trade None p]) !! before with
                | Some a, Some b => player_eq a b
                | _, _ => false
                end) (Room.players r) = Some l /\
    l `sublist_of` Room.players r /\
    length (Room.players r) = S (length l) /\
    fst (handle_packet conn (add_frame p) c)
    = Client.mk (Client.main c) (Client.bulle c) ws
        (Some (Room.mk (Room.name r) (Room.private r)
                 (l ++ [length (Client.player_store c)])))
        (Client.trade c) (Client.trades c) (Client.community c) (Client.authkey c)
        (Client.coros c) (Client.player_store c ++ [Player.set_trade (Player.trade q) p])
        (match Player.trade q with
         | Some tr =>
             match Client.trade_store c !! tr with
             | Some x =>
                 <[tr := Trade.set__other (length (Client.player_store c)) x]>
                   (Client.trade_store c)
             | None => Client.trade_store c
             end
         | None => Client.trade_store c
         end)
        futs ts (Client.timers c)
        (Client.dispatched c ++
         [("player_update", [VPlayer before; VPlayer (length (Client.player_store c))])]).
Proof.
  intros Hroom Hwf Hfound Hq Htrade.
  destruct (room_get_player_found r _ c before Hfound) as (Hin & _).
  assert (before < length (Client.player_store c)) as Hlt
    by (eapply lookup_lt_Some; eauto).
  change (handle_packet conn (add_frame p)) with (add_player (add_frame p)).
  unfold add_player, add_frame.
  cbv [Client.bind Client.lift Packet.readPlayer Packet.next Packet.body Packet.ccc
       new_player the_room players_append players_remove Client.modify player_at].
  client_fields. rewrite Hroom.
  rewrite (room_get_player_pure r _ _), (room_get_player_stored r _ c _ Hwf), Hfound.
  client_fields. rewrite Hroom. client_fields. cbn [Room.players Room.name Room.private].
  match goal with
  | |- context [remove_first ?same (Room.players r ++ ?e)] =>
      destruct (remove_first_finds same (Room.players r) before Hin) as [l Hl];
        [rewrite Nat.eqb_refl; reflexivity|];
      destruct (remove_first_app same _ l e Hl) as (-> & Hlen & Hsub)
  end.
  client_fields. rewrite (lookup_app_l _ _ _ Hlt), Hq in Hl |- *.
  exists l.
  destruct (Player.trade q) as [tr|] eqn:Htr.
  - destruct (Htrade tr eq_refl) as [x Hx]. rewrite Hx.
    unfold _update_player, Client.bind.
    match goal with
    | |- context [update_trade tr ?f ?st] => rewrite (update_trade_run tr f x st Hx)
    end.
    cbv [player_at Client.modify]. client_fields.
    rewrite (list_lookup_middle _ [] _ _ eq_refl).
    replace (<[length (Client.player_store c) :=
                Player.set_trade (Some tr) (Player.set_trade None p)]>
               (Client.player_store c ++ [Player.set_trade None p]))
      with (Client.player_store c ++ [Player.set_trade (Some tr) p])
      by (rewrite insert_app_r_alt, Nat.sub_diag by lia; reflexivity).
    match goal with
    | |- context [dispatch ?e ?a ?c3] =>
        destruct (dispatch_shape e a c3) as (ws & futs & ts & Hd);
        destruct (dispatch e a c3) as [c4 [[]|e'|]]
    end;
      cbn [fst] in *; subst c4; client_fields; eauto 10.
  - unfold Client.ret.
    match goal with
    | |- context [dispatch ?e ?a ?c3] =>
        destruct (dispatch_shape e a c3) as (ws & futs & ts & Hd);
        destruct (dispatch e a c3) as [c4 [[]|e'|]]
    end;
      cbn [fst] in *; subst c4; client_fields; eauto 10.
Qed.

(** A frame for a player who is already in the room (the lookup by the
    persistent id finds one) puts the new player last in the roster and
    takes one entry out: the size of the roster is as before and the
    others are those of before, in their order.  When the roster has no
    entry twice and no other player of the room equals the one that was
    found, the entry that left is the player that was found.  The new
    player takes over the trade of the player that was found, whose
    counterparty it becomes; one [player_update] event carries the
    player that was found and the new one. *)
Theorem known_player_is_replaced `{PlayerEq} (conn : conn_ref) (p : Player.t)
    (c : Client.t) (r : Room.t nat) (before : nat) (q : Player.t) :
  Client.room c = Some r ->
  roster_stored r c ->
  snd (room_get_player r [("pid", VInt (Player.pid p))] c) = Ok (Some before) ->
  Client.player_store c !! before = Some q ->
  (forall tr, Player.trade q = Some tr -> is_Some (Client.trade_store c !! tr)) ->
  exists l,
    Room.players <$> Client.room (fst (handle_packet conn (add_frame p) c))
    = Some (l ++ [length (Client.player_store c)]) /\
    l `sublist_of` Room.players r /\
    length (l ++ [length (Client.player_store c)]) = length (Room.players r) /\
    (NoDup (Room.players r) ->
     (forall y a, y ∈ Room.players r -> y <> before ->
                  Client.player_store c !! y = Some a -> player_eq a q = false) ->
     (before ∉ l ++ [length (Client.player_store c)]) /\
     forall y, y ∈ Room.players r -> y <> before -> y ∈ l) /\
    Client.player_store (fst (handle_packet conn (add_frame p) c))
    = Client.player_store c ++ [Player.set_trade (Player.trade q) p] /\
    (forall tr x,
       Player.trade q = Some tr -> Client.trade_store c !! tr = Some x ->
       Client.trade_store (fst (handle_packet conn (add_frame p) c))
       = <[tr := Trade.set__other (length (Client.player_store c)) x]>
           (Client.trade_store c)) /\
    (Player.trade q = None ->
     Client.trade_store (fst (handle_packet conn (add_frame p) c)) = Client.trade_store c) /\
    Client.dispatched (fst (handle_packet conn (add_frame p) c))
    = Client.dispatched c ++
      [("player_update", [VPlayer before; VPlayer (length (Client.player_store c))])].
Proof.
  intros Hroom Hwf Hfound Hq Htrade.
  destruct (add_player_updates_run conn p c r before q Hroom Hwf Hfound Hq Htrade)
    as (l & ws & futs & ts & Hl & Hsub & Hlen & ->).
  assert (before < length (Client.player_store c)) as Hlt
    by (eapply lookup_lt_Some; eauto).
  exists l. client_fields. split; [reflexivity|]. split; [exact Hsub|].
  split; [rewrite length_app; cbn; lia|].
  split; [|split; [reflexivity|split; [|split; [|reflexivity]]]].
  - intros Hnd Hothers.
    assert (before ∉ l) as Hgone.
    { eapply remove_first_gone; [exact Hnd| |exact Hl|].
      - intros y Hy Hsame. destruct (decide (y = before)) as [->|Hne]; [reflexivity|].
        cbv beta in Hsame.
        assert (y < length (Client.player_store c)) as Hy'.
        { unfold roster_stored in Hwf. rewrite Forall_forall in Hwf. apply Hwf, Hy. }
        rewrite !lookup_app_l, Hq in Hsame by assumption.
        apply Nat.eqb_neq in Hne. rewrite Hne in Hsame. cbn [orb] in Hsame.
        destruct (Client.player_store c !! y) as [a|] eqn:Ha; [|discriminate].
        apply Nat.eqb_neq in Hne. rewrite (Hothers y a Hy Hne Ha) in Hsame. discriminate.
      - cbv beta. rewrite Nat.eqb_refl. reflexivity. }
    split.
    + rewrite elem_of_app, list_elem_of_singleton. intros [Hin|Heq]; [exact (Hgone Hin)|lia].
    + intros y Hy Hne. eapply remove_first_keeps; [exact Hl|exact Hy|].
      cbv beta.
      assert (y < length (Client.player_store c)) as Hy'.
      { unfold roster_stored in Hwf. rewrite Forall_forall in Hwf. apply Hwf, Hy. }
      rewrite !lookup_app_l, Hq by assumption.
      apply Nat.eqb_neq in Hne. rewrite Hne. cbn [orb].
      destruct (Client.player_store c !! y) as [a|] eqn:Ha; [|reflexivity].
      apply Nat.eqb_neq in Hne. apply (Hothers y a Hy Hne Ha).
  - intros tr x -> ->. reflexivity.
  - intros ->. reflexivity.
Qed.

Lemma new_player_joins_witness :
  Client.room (fst (handle_packet (H := by_name) CBulle (add_frame dave) trading))
  = Some (Room.mk (Room.name (Room.mk "en-1" false [0; 1]))
            (Room.private (Room.mk "en-1" false [0; 1]))
            (Room.players (Room.mk "en-1" false [0; 1]) ++
             [length (Client.player_store trading)])) /\
  Client.player_store (fst (handle_packet (H := by_name) CBulle (add_frame dave) trading))
  = Client.player_store trading ++ [Player.set_trade None dave] /\
  Client.trade_store (fst (handle_packet (H := by_name) CBulle (add_frame dave) trading))
  = Client.trade_store trading /\
  Client.trade (fst (handle_packet (H := by_name) CBulle (add_frame dave) trading))
  = Client.trade trading /\
  Client.dispatched (fst (handle_packet (H := by_name) CBulle (add_frame dave) trading))
  = Client.dispatched trading ++
    [("player_join", [VPlayer (length (Client.player_store trading))])].
Proof.
  apply (new_player_joins (H := by_name) CBulle dave trading (Room.mk "en-1" false [0; 1])).
  - reflexivity.
  - repeat constructor.
  - reflexivity.
Defined.

(** Alice comes back as a new object while the client trades with her. *)
Lemma known_player_is_replaced_witness :
  exists l,
    Room.players <$>
      Client.room (fst (handle_packet (H := by_name) CBulle (add_frame alice_again) trading))
    = Some (l ++ [length (Client.player_store trading)]) /\
    l `sublist_of` Room.players (Room.mk "en-1" false [0; 1]) /\
    length (l ++ [length (Client.player_store trading)])
    = length (Room.players (Room.mk "en-1" false [0; 1])) /\
    (NoDup (Room.players (Room.mk "en-1" false [0; 1])) ->
     (forall y a, y ∈ Room.players (Room.mk "en-1" false [0; 1]) -> y <> 0 ->
                  Client.player_store trading !! y = Some a ->
                  player_eq (PlayerEq := by_name) a (Player.set_trade (Some 0) alice) = false) ->
     (0 ∉ l ++ [length (Client.player_store trading)]) /\
     forall y, y ∈ Room.players (Room.mk "en-1" false [0; 1]) -> y <> 0 -> y ∈ l) /\
    Client.player_store
      (fst (handle_packet (H := by_name) CBulle (add_frame alice_again) trading))
    = Client.player_store trading ++
      [Player.set_trade (Player.trade (Player.set_trade (Some 0) alice)) alice_again] /\
    (forall tr x,
       Player.trade (Player.set_trade (Some 0) alice) = Some tr ->
       Client.trade_store trading !! tr = Some x ->
       Client.trade_store
         (fst (handle_packet (H := by_name) CBulle (add_frame alice_again) trading))
       = <[tr := Trade.set__other (length (Client.player_store trading)) x]>
           (Client.trade_store trading)) /\
    (Player.trade (Player.set_trade (Some 0) alice) = None ->
     Client.trade_store
       (fst (handle_packet (H := by_name) CBulle (add_frame alice_again) trading))
     = Client.trade_store trading) /\
    Client.dispatched
      (fst (handle_packet (H := by_name) CBulle (add_frame alice_again) trading))
    = Client.dispatched trading ++
      [("player_update", [VPlayer 0; VPlayer (length (Client.player_store trading))])].
Proof.
  apply (known_player_is_replaced (H := by_name) CBulle alice_again trading
           (Room.mk "en-1" false [0; 1]) 0 (Player.set_trade (Some 0) alice)).
  - reflexivity.
  - repeat constructor.
  - reflexivity.
  - reflexivity.
  - intros tr [= <-]. eexists. reflexivity.
Defined.

(** Why the entry that leaves is the player that was found only when no
    other player equals it: [list.remove] takes the first equal entry.
    Of two equal players the frame for the second takes the first out
    of the roster, and the second stays next to its replacement. *)
Example twin_leaves_instead :
  snd (room_get_player (H := by_name) (Room.mk "en-1" false [0; 1])
         [("pid", VInt (Player.pid second_twin_again))] twins) = Ok (Some 1) /\
  Room.players <$>
    Client.room (fst (handle_packet (H := by_name) CBulle (add_frame second_twin_again) twins))
  = Some [1; 2].
Proof. split; vm_compute; reflexivity. Qed.

Example alice_replaced :
  Room.players <$>
    Client.room (fst (handle_packet (H := by_name) CBulle (add_frame alice_again) trading))
  = Some [1; 2] /\
  Client.trade_store (fst (handle_packet (H := by_name) CBulle (add_frame alice_again) trading))
  = [Trade.set__other 2 agreed_trade].
Proof. split; vm_compute; reflexivity. Qed.

(** ** The old protocol: a player leaves *)

Lemma old_remove_run `{PlayerEq} (conn : conn_ref) (d : string) (data : list string)
    (c : Client.t) (r : Room.t nat) (n : Z) (player : nat) (q : Player.t) :
  Client.room c = Some r ->
  py_int (VBytes d) = Ok n ->
  snd (room_get_player r [("pid", VInt n)] c) = Ok (Some player) ->
  Client.player_store c !! player = Some q ->
  Player.trade q = None ->
  exists l ws futs ts,
    remove_first
      (fun y => (y =? player)%nat ||
                match Client.player_store c !! y, Client.player_store c !! player with
                | Some a, Some b => player_eq a b
                | _, _ => false
                end) (Room.players r) = Some l /\
    fst (handle_old_packet conn [8; 7]%Z (d :: data) c)
    = Client.mk (Client.main c) (Client.bulle c) ws
        (Some (Room.mk (Room.name r) (Room.private r) l))
        (Client.trade c) (Client.trades c) (Client.community c) (Client.authkey c)
        (Client.coros c) (Client.player_store c) (Client.trade_store c)
        futs ts (Client.timers c)
        (Client.dispatched c ++ [("player_remove", [VPlayer player])]).
Proof.
  intros Hroom Hint Hfound Hq Htrade.
  destruct (room_get_player_found r _ c player Hfound) as (Hin & _).
  unfold handle_old_packet.
  cbv [Client.bind Client.lift the_room players_remove player_at].
  rewrite Hroom, Hint, (room_get_player_pure r _ _), Hfound. rewrite ?Hroom.
  match goal with
  | |- context [remove_first ?same (Room.players r)] =>
      destruct (remove_first_finds same (Room.players r) player Hin) as [l Hl];
        [rewrite Nat.eqb_refl; reflexivity|];
      rewrite Hl
  end.
  client_fields. rewrite Hq, Htrade. unfold Client.ret.
  exists l.
  match goal with
  | |- context [dispatch ?e ?a ?c3] =>
      destruct (dispatch_shape e a c3) as (ws & futs & ts & Hd);
      destruct (dispatch e a c3) as [c4 [[]|e'|]]
  end;
    cbn [fst] in *; subst c4; client_fields; eauto 10.
Qed.

(** The old-protocol frame that removes a player, for a player of the
    room who holds no trade: one entry leaves the roster, the others
    stay in their order, and one [player_remove] event carries the
    player; the stores are untouched.  When no other player of the
    roster equals the leaving one, the entry that leaves is the player
    found by the persistent id. *)
Theorem departed_player_leaves_roster `{PlayerEq} (conn : conn_ref) (d : string)
    (data : list string) (c : Client.t) (r : Room.t nat) (n : Z) (player : nat)
    (q : Player.t) :
  Client.room c = Some r ->
  py_int (VBytes d) = Ok n ->
  snd (room_get_player r [("pid", VInt n)] c) = Ok (Some player) ->
  Client.player_store c !! player = Some q ->
  Player.trade q = None ->
  exists l,
    Room.players <$> Client.room (fst (handle_old_packet conn [8; 7]%Z (d :: data) c))
    = Some l /\
    l `sublist_of` Room.players r /\
    length (Room.players r) = S (length l) /\
    (NoDup (Room.players r) ->
     (forall y a, y ∈ Room.players r -> y <> player ->
                  Client.player_store c !! y = Some a -> player_eq a q = false) ->
     player ∉ l) /\
    Client.player_store (fst (handle_old_packet conn [8; 7]%Z (d :: data) c))
    = Client.player_store c /\
    Client.trade_store (fst (handle_old_packet conn [8; 7]%Z (d :: data) c))
    = Client.trade_store c /\
    Client.dispatched (fst (handle_old_packet conn [8; 7]%Z (d :: data) c))
    = Client.dispatched c ++ [("player_remove", [VPlayer player])].
Proof.
  intros Hroom Hint Hfound Hq Htrade.
  destruct (old_remove_run conn d data c r n player q Hroom Hint Hfound Hq Htrade)
    as (l & ws & futs & ts & Hl & ->).
  exists l. client_fields.
  destruct (remove_first_app _ _ _ [] Hl) as (_ & Hlen & Hsub).
  split; [reflexivity|]. split; [exact Hsub|]. split; [exact Hlen|].
  split; [|repeat split].
  intros Hnd Hothers. eapply remove_first_gone; [exact Hnd| |exact Hl|].
  - intros y Hy Hsame. destruct (decide (y = player)) as [->|Hne]; [reflexivity|].
    cbv beta in Hsame.
    apply Nat.eqb_neq in Hne. rewrite Hne, Hq in Hsame. cbn [orb] in Hsame.
    destruct (Client.player_store c !! y) as [a|] eqn:Ha; [|discriminate].
    apply Nat.eqb_neq in Hne. rewrite (Hothers y a Hy Hne Ha) in Hsame. discriminate.
  - cbv beta. rewrite Nat.eqb_refl. reflexivity.
Qed.

(** Bob leaves the room. *)
Lemma departed_player_leaves_roster_witness :
  exists l,
    Room.players <$>
      Client.room (fst (handle_old_packet (H := by_name) CBulle [8; 7]%Z ("102" :: []) trading))
    = Some l /\
    l `sublist_of` Room.players (Room.mk "en-1" false [0; 1]) /\
    length (Room.players (Room.mk "en-1" false [0; 1])) = S (length l) /\
    (NoDup (Room.players (Room.mk "en-1" false [0; 1])) ->
     (forall y a, y ∈ Room.players (Room.mk "en-1" false [0; 1]) -> y <> 1 ->
                  Client.player_store trading !! y = Some a ->
                  player_eq (PlayerEq := by_name) a bob = false) ->
     1 ∉ l) /\
    Client.player_store
      (fst (handle_old_packet (H := by_name) CBulle [8; 7]%Z ("102" :: []) trading))
    = Client.player_store trading /\
    Client.trade_store
      (fst (handle_old_packet (H := by_name) CBulle [8; 7]%Z ("102" :: []) trading))
    = Client.trade_store trading /\
    Client.dispatched
      (fst (handle_old_packet (H := by_name) CBulle [8; 7]%Z ("102" :: []) trading))
    = Client.dispatched trading ++ [("player_remove", [VPlayer 1])].
Proof.
  apply (departed_player_leaves_roster (H := by_name) CBulle "102" [] trading
           (Room.mk "en-1" false [0; 1]) 102 1 bob); reflexivity.
Defined.

(** ** The roster frame *)

(** The loop that reads the players of a roster frame. *)
Lemma read_players_run `{PlayerEq} (ps : list Player.t) (CCC : Z * Z)
    (rest : list Packet.field) (c : Client.t) (r : Room.t nat) :
  Client.room c = Some r ->
  read_players (length ps) (Packet.mk CCC ((Packet.FPlayer <$> ps) ++ rest)) c
  = (Client.set_room
       (Some (Room.mk (Room.name r) (Room.private r)
                (Room.players r ++ seq (length (Client.player_store c)) (length ps))))
       (Client.set_player_store
          (Client.player_store c ++ (Player.set_trade None <$> ps)) c),
     Ok (Packet.mk CCC rest)).
Proof.
  revert c r. induction ps as [|p ps IH]; intros c r Hroom.
  - cbn [length read_players fmap list_fmap app seq]. unfold Client.ret.
    rewrite !app_nil_r. destruct c, r. cbn in Hroom. subst. reflexivity.
  - cbn [length read_players fmap list_fmap app].
    cbv [Client.bind Client.lift Packet.readPlayer Packet.next Packet.body Packet.ccc
         new_player the_room players_append Client.modify].
    client_fields. rewrite Hroom. client_fields.
    match goal with
    | |- context [read_players _ _ ?st] =>
        rewrite (IH st (Room.mk (Room.name r) (Room.private r)
                          (Room.players r ++ [length (Client.player_store c)])) eq_refl)
    end.
    client_fields. cbn [Room.name Room.private Room.players].
    unfold Client.set_room, Client.set_player_store. client_fields.
    rewrite length_app, <- !app_assoc. cbn [length app seq].
    rewrite Nat.add_1_r. reflexivity.
Qed.

(** Players without a trade need no synchronisation. *)
Lemma sync_trades_idle `{PlayerEq} (before : list nat) (c : Client.t) :
  Forall (fun i => exists q, Client.player_store c !! i = Some q /\ Player.trade q = None)
    before ->
  sync_trades before c = (c, Ok tt).
Proof.
  induction 1 as [|i before (q & Hq & Htr) _ IH]; [reflexivity|].
  cbn [sync_trades]. cbv [Client.bind player_at]. rewrite Hq, Htr. exact IH.
Qed.

Lemma roster_frame_run `{PlayerEq} (conn : conn_ref) (ps : list Player.t) (c : Client.t)
    (r : Room.t nat) :
  Client.room c = Some r ->
  Forall (fun i => exists q, Client.player_store c !! i = Some q /\ Player.trade q = None)
    (Room.players r) ->
  exists ws futs ts,
    fst (handle_packet conn (roster_frame ps) c)
    = Client.mk (Client.main c) (Client.bulle c) ws
        (Some (Room.mk (Room.name r) (Room.private r)
                 (seq (length (Client.player_store c)) (length ps))))
        (Client.trade c) (Client.trades c) (Client.community c) (Client.authkey c)
        (Client.coros c) (Client.player_store c ++ (Player.set_trade None <$> ps))
        (Client.trade_store c) futs ts (Client.timers c)
        (Client.dispatched c ++
         [("bulk_player_update",
           [VList (VPlayer <$> Room.players r);
            VList (VPlayer <$> seq (length (Client.player_store c)) (length ps))])]).
Proof.
  intros Hroom Hidle.
  change (handle_packet conn (roster_frame ps)) with (set_player_list (roster_frame ps)).
  unfold set_player_list, roster_frame.
  cbv [Client.bind Client.lift Packet.read16 Packet.next Packet.body Packet.ccc
       the_room Client.modify].
  rewrite Hroom. client_fields. rewrite Nat2Z.id.
  rewrite <- (app_nil_r (Packet.FPlayer <$> ps)).
  match goal with
  | |- context [read_players _ _ ?st] =>
      rewrite (read_players_run ps _ [] st (Room.mk (Room.name r) (Room.private r) [])
                 eq_refl)
  end.
  client_fields. cbn [Room.name Room.private Room.players app].
  rewrite sync_trades_idle.
  - client_fields.
    match goal with
    | |- context [dispatch ?e ?a ?c3] =>
        destruct (dispatch_shape e a c3) as (ws & futs & ts & Hd);
        destruct (dispatch e a c3) as [c4 [[]|e'|]]
    end;
      cbn [fst] in *; subst c4; client_fields; eauto 10.
  - client_fields. eapply Forall_impl; [exact Hidle|].
    intros i (q & Hq & Htr). exists q. split; [|exact Htr].
    rewrite lookup_app_l; [exact Hq|]. eapply lookup_lt_Some; eauto.
Qed.

(** A roster frame, received while no player of the room holds a trade:
    the roster becomes the players of the frame, in the order of the
    frame and each one a new object, so that no player object of before
    is left in the room; one [bulk_player_update] event carries the old
    and the new roster; no trade is touched. *)
Theorem roster_is_replaced `{PlayerEq} (conn : conn_ref) (ps : list Player.t)
    (c : Client.t) (r : Room.t nat) :
  Client.room c = Some r ->
  Forall (fun i => exists q, Client.player_store c !! i = Some q /\ Player.trade q = None)
    (Room.players r) ->
  Client.room (fst (handle_packet conn (roster_frame ps) c))
  = Some (Room.mk (Room.name r) (Room.private r)
            (seq (length (Client.player_store c)) (length ps))) /\
  Client.player_store (fst (handle_packet conn (roster_frame ps) c))
  = Client.player_store c ++ (Player.set_trade None <$> ps) /\
  (forall i, i ∈ Room.players r ->
             i ∉ seq (length (Client.player_store c)) (length ps)) /\
  Client.trade_store (fst (handle_packet conn (roster_frame ps) c)) = Client.trade_store c /\
  Client.trade (fst (handle_packet conn (roster_frame ps) c)) = Client.trade c /\
  Client.dispatched (fst (handle_packet conn (roster_frame ps) c))
  = Client.dispatched c ++
    [("bulk_player_update",
      [VList (VPlayer <$> Room.players r);
       VList (VPlayer <$> seq (length (Client.player_store c)) (length ps))])].
Proof.
  intros Hroom Hidle.
  destruct (roster_frame_run conn ps c r Hroom Hidle) as (ws & futs & ts & ->).
  client_fields. split; [reflexivity|]. split; [reflexivity|].
  split; [|repeat split].
  intros i Hi Hin. apply elem_of_seq in Hin as [Hge _].
  rewrite Forall_forall in Hidle. destruct (Hidle i Hi) as (q & Hq & _).
  apply lookup_lt_Some in Hq. lia.
Qed.

(** Carol and Dave replace Alice and Bob. *)
Lemma roster_is_replaced_witness :
  Client.room (fst (handle_packet (H := by_name) CBulle (roster_frame [carol; dave]) idle))
  = Some (Room.mk (Room.name (Room.mk "en-1" false [0; 1]))
            (Room.private (Room.mk "en-1" false [0; 1]))
            (seq (length (Client.player_store idle)) (length [carol; dave]))) /\
  Client.player_store
    (fst (handle_packet (H := by_name) CBulle (roster_frame [carol; dave]) idle))
  = Client.player_store idle ++ (Player.set_trade None <$> [carol; dave]) /\
  (forall i, i ∈ Room.players (Room.mk "en-1" false [0; 1]) ->
             i ∉ seq (length (Client.player_store idle)) (length [carol; dave])) /\
  Client.trade_store
    (fst (handle_packet (H := by_name) CBulle (roster_frame [carol; dave]) idle))
  = Client.trade_store idle /\
  Client.trade (fst (handle_packet (H := by_name) CBulle (roster_frame [carol; dave]) idle))
  = Client.trade idle /\
  Client.dispatched
    (fst (handle_packet (H := by_name) CBulle (roster_frame [carol; dave]) idle))
  = Client.dispatched idle ++
    [("bulk_player_update",
      [VList (VPlayer <$> Room.players (Room.mk "en-1" false [0; 1]));
       VList (VPlayer <$> seq (length (Client.player_store idle)) (length [carol; dave]))])].
Proof.
  apply (roster_is_replaced (H := by_name) CBulle [carol; dave] idle
           (Room.mk "en-1" false [0; 1])).
  - reflexivity.
  - repeat constructor; eexists; split; reflexivity.
Defined.

(** ** The trade error that names a counterparty *)

(** A trade with a counterparty of another name. *)
Lemma close_named_skips (name : string) (error : Z) (l1 rest : list nat) (c : Client.t) :
  Forall (fun t => exists x o,
            Client.trade_store c !! t = Some x /\
            Client.player_store c !! Trade._other x = Some o /\
            Player.username o <> name) l1 ->
  close_named name error (l1 ++ rest) c = close_named name error rest c.
Proof.
  induction 1 as [|t l1 (x & o & Hx & Ho & Hname) _ IH]; [reflexivity|].
  cbn [app close_named]. cbv [Client.bind trade_at player_at]. rewrite Hx, Ho.
  apply String.eqb_neq in Hname. rewrite Hname. exact IH.
Qed.

(** A trade-error frame with the name of a player the client has no
    trade with is handled without any effect: no trade is closed and no
    event is dispatched. *)
Theorem trade_error_for_stranger `{PlayerEq} (conn : conn_ref) (name : string) (error : Z)
    (c : Client.t) :
  name <> "" ->
  Forall (fun t => exists x o,
            Client.trade_store c !! t = Some x /\
            Client.player_store c !! Trade._other x = Some o /\
            Player.username o <> name) (Client.trades c) ->
  handle_packet conn (named_trade_error name error) c = (c, Ok true).
Proof.
  intros Hname Hall.
  change (handle_packet conn (named_trade_error name error))
    with (trade_error (named_trade_error name error)).
  unfold trade_error, named_trade_error.
  cbv [Client.bind Client.lift Packet.readUTF Packet.read8 Packet.next Packet.body
       Packet.ccc Client.get].
  apply String.eqb_neq in Hname. rewrite Hname.
  rewrite <- (app_nil_r (Client.trades c)), (close_named_skips name error _ [] c Hall).
  reflexivity.
Qed.

Lemma trade_error_for_stranger_witness :
  handle_packet (H := by_name) CBulle (named_trade_error "Carol" 3) invited
  = (invited, Ok true).
Proof.
  apply (trade_error_for_stranger (H := by_name) CBulle "Carol" 3 invited).
  - discriminate.
  - repeat constructor; do 2 eexists; repeat split; discriminate.
Defined.




(** ** Frames that end inside [received_data] *)














(** *** The updates of the stores *)






(** *** The methods of the stores *)








(** *** The connections *)




(** *** The event bus *)






(** *** The branches *)

































Example short_frame_raises :
  snd (handle_packet (H := by_name) CBulle (Packet.mk (31, 8)%Z [Packet.FBool true]) trading)
  = Raise ProtocolError.
Proof. reflexivity. Qed.
